(** * Rehab-Flow: the session pipeline of [rehab_flow/main.py]

    A shallow embedding of the five stages of [RehabFlow] and of the helper
    [clean_and_parse_json], with the properties of the specification stated
    over it.

    Modelling conventions.
    - A Python [str] is a Rocq [string] holding its UTF-8 bytes.
      Whitespace ([str.strip], the class [\s] of the pattern) is CPython's
      [Py_UNICODE_ISSPACE], read on the UTF-8 bytes of each character.
      [str.lower] maps the ASCII letters: the code only compares its result
      with ["q"], ["no"] and ["yes"], and Python maps no character outside
      ASCII to one of their letters.
    - Console output ([print]) is not part of the model.
    - What the run cannot decide itself (the replies of the agents, Python's
      JSON decoder, random identifiers, whether a file can be opened) is a
      [World], and every property is stated for all worlds. *)

From Stdlib Require Import String Ascii List Bool Arith Lia ZArith.
Import ListNotations.
Local Open Scope string_scope.

(** ** Python string primitives *)

Module PyStr.

(** Whitespace is what CPython's [Py_UNICODE_ISSPACE] accepts, the class
    used by [str.strip] and by [\s] in a [str] pattern: the code points
    9..13, 28..32, U+0085, U+00A0, U+1680, U+2000..U+200A, U+2028, U+2029,
    U+202F, U+205F and U+3000.  In UTF-8 the first two ranges are one byte
    each, U+0085 and U+00A0 two bytes, the others three. *)
Definition ascii_space (n : nat) : bool :=
  ((9 <=? n)%nat && (n <=? 13)%nat) || ((28 <=? n)%nat && (n <=? 32)%nat).

(** [194 133] is U+0085 and [194 160] is U+00A0. *)
Definition space2 (n m : nat) : bool :=
  (n =? 194)%nat && ((m =? 133)%nat || (m =? 160)%nat).

(** [225 154 128] is U+1680; [226 128 128] to [226 128 138] are U+2000 to
    U+200A; [226 128 168], [226 128 169] and [226 128 175] are U+2028,
    U+2029 and U+202F; [226 129 159] is U+205F; [227 128 128] is U+3000. *)
Definition space3 (n m k : nat) : bool :=
  ((n =? 225)%nat && (m =? 154)%nat && (k =? 128)%nat)
  || ((n =? 226)%nat && (m =? 128)%nat
      && (((128 <=? k)%nat && (k <=? 138)%nat)
          || (k =? 168)%nat || (k =? 169)%nat || (k =? 175)%nat))
  || ((n =? 226)%nat && (m =? 129)%nat && (k =? 159)%nat)
  || ((n =? 227)%nat && (m =? 128)%nat && (k =? 128)%nat).

(** The number of bytes of the whitespace character [s] begins with, and 0
    when it begins with none. *)
Definition space_width (s : string) : nat :=
  match s with
  | String c r =>
      if ascii_space (nat_of_ascii c) then 1
      else
        match r with
        | String c2 r2 =>
            if space2 (nat_of_ascii c) (nat_of_ascii c2) then 2
            else
              match r2 with
              | String c3 _ =>
                  if space3 (nat_of_ascii c) (nat_of_ascii c2) (nat_of_ascii c3)
                  then 3 else 0
              | EmptyString => 0
              end
        | EmptyString => 0
        end
  | EmptyString => 0
  end.

(** [s] without its first [k] bytes. *)
Fixpoint skip (s : string) (k : nat) {struct s} : string :=
  match k, s with
  | S k', String _ r => skip r k'
  | _, _ => s
  end.

(** [str.lower] on ASCII letters. *)
Definition lower_char (c : ascii) : ascii :=
  let n := nat_of_ascii c in
  if (65 <=? n)%nat && (n <=? 90)%nat then ascii_of_nat (n + 32) else c.

Fixpoint lower (s : string) : string :=
  match s with
  | EmptyString => EmptyString
  | String c s' => String (lower_char c) (lower s')
  end.

(** [s.lstrip()]: the whitespace characters at the head are dropped one
    after the other. *)
Fixpoint lstrip (s : string) : string :=
  match s with
  | EmptyString => s
  | String _ r =>
      match space_width s with
      | O => s
      | S k => lstrip (skip r k)
      end
  end.

Definition is_empty (s : string) : bool :=
  match s with EmptyString => true | _ => false end.

(** [s] is made of whitespace characters only. *)
Fixpoint all_space (s : string) : bool :=
  match s with
  | EmptyString => true
  | String _ r =>
      match space_width s with
      | O => false
      | S k => all_space (skip r k)
      end
  end.

(** [s.rstrip()]: the text is cut where only whitespace is left. *)
Fixpoint rstrip (s : string) : string :=
  match s with
  | EmptyString => EmptyString
  | String c r => if all_space s then EmptyString else String c (rstrip r)
  end.

(** [s.strip()] *)
Definition strip (s : string) : string := rstrip (lstrip s).

(** [s.startswith(p)] *)
Fixpoint startswith (p s : string) : bool :=
  match p, s with
  | EmptyString, _ => true
  | String a p', String b s' => Ascii.eqb a b && startswith p' s'
  | String _ _, EmptyString => false
  end.

(** The rest of [s] after the literal [p], when [s] starts with it. *)
Fixpoint drop_prefix (p s : string) : option string :=
  match p, s with
  | EmptyString, _ => Some s
  | String a p', String b s' =>
      if Ascii.eqb a b then drop_prefix p' s' else None
  | String _ _, EmptyString => None
  end.

End PyStr.

(** ** The code-fence pattern of [clean_and_parse_json]

    [re.search(r"```(?:json)?\s*(.*?)\s*```", response, re.DOTALL)], written
    as the backtracking matcher it is: alternatives are tried in the order
    of the regular-expression engine and the first success wins.  The
    matcher walks the UTF-8 bytes of the text; where a byte continues a
    character nothing of the pattern can match (see
    [inside_a_character] below), so walking bytes and walking characters
    find the same match. *)

Module Fence.
Import PyStr.

Definition fence : string := "```".

(** [\s*```] at the end of the pattern: some run of whitespace characters,
    then the closing marker.  Nothing is captured after it, so only success
    matters. *)
Fixpoint ws_fence (r : string) : bool :=
  startswith fence r ||
  match r with
  | String _ r' =>
      match space_width r with
      | S k => ws_fence (skip r' k)
      | O => false
      end
  | EmptyString => false
  end.

(** [(.*?)\s*```]: the lazy group takes the shortest prefix after which
    the tail of the pattern matches; with DOTALL every character is allowed. *)
Fixpoint lazy_group (r : string) : option string :=
  if ws_fence r then Some EmptyString
  else match r with
       | EmptyString => None
       | String c r' => option_map (String c) (lazy_group r')
       end.

(** [\s*] followed by the continuation [k]: greedy, giving whitespace back
    one character at a time when [k] fails. *)
Fixpoint ws_then (k : string -> option string) (r : string) : option string :=
  match r with
  | String _ r' =>
      match space_width r with
      | S w => match ws_then k (skip r' w) with
               | Some g => Some g
               | None => k r
               end
      | O => k r
      end
  | EmptyString => k r
  end.

(** The whole pattern anchored at the start of [s]; the result is group 1. *)
Definition match_at (s : string) : option string :=
  match drop_prefix fence s with
  | None => None
  | Some r1 =>
      match drop_prefix "json" r1 with
      | Some r2 =>
          match ws_then lazy_group r2 with
          | Some g => Some g
          | None => ws_then lazy_group r1
          end
      | None => ws_then lazy_group r1
      end
  end.

(** [re.search]: the leftmost position at which the pattern matches. *)
Fixpoint search (s : string) : option string :=
  match match_at s with
  | Some g => Some g
  | None =>
      match s with
      | EmptyString => None
      | String _ s' => search s'
      end
  end.

End Fence.

(** [clean_and_parse_json] (main.py, nested in [inquiry_assistance]).  Its
    [try] block returns the cleaned text itself: nothing is decoded here. *)
Definition clean_and_parse_json (response : string) : string :=
  match Fence.search response with
  | Some g => g
  | None => PyStr.strip response
  end.

(** A newline, and a Markdown code fence around [content]. *)
Definition nl : string := String (ascii_of_nat 10) EmptyString.

Definition fence_wrap (tag : bool) (content : string) : string :=
  Fence.fence ++ (if tag then "json" else "") ++ nl ++ content ++ nl ++ Fence.fence.

(** [content] holds three backticks in a row somewhere. *)
Fixpoint has_fence (s : string) : bool :=
  PyStr.startswith Fence.fence s ||
  match s with
  | EmptyString => false
  | String _ s' => has_fence s'
  end.


(** ** Python values

    What [json.loads] returns and what the session dictionaries hold.
    Dictionaries keep insertion order; numbers are the integers (floating
    point literals are outside the model). *)

Local Unset Elimination Schemes.
Inductive pyval : Type :=
| PNone
| PBool (b : bool)
| PInt (z : Z)
| PStr (s : string)
| PList (l : list pyval)
| PDict (d : list (pyval * pyval)).
Local Set Elimination Schemes.

Definition dict : Type := list (pyval * pyval).

(** The exceptions the stages can raise.  In Python [JSONDecodeError] is a
    subclass of [ValueError]. *)
Inductive exn : Type :=
| ValueError | JSONDecodeError | AttributeError | TypeError
| KeyError | IndexError | EOFError | OSError | RecursionError.

(** The outcome of a computation; [Diverge] is a loop that has not ended
    within the fuel it was given. *)
Inductive outcome (A : Type) : Type :=
| Return (a : A)
| Raise (e : exn)
| Diverge.
Arguments Return {A} a.
Arguments Raise {A} e.
Arguments Diverge {A}.

(** What [json.loads] does with a text: it returns the decoded value, or
    it raises. *)
Inductive decoded : Type :=
| Decoded (v : pyval)
| Fails (e : exn).

Module Py.

(** Code points of a string: a lead byte with its continuation bytes. *)
Definition is_cont (c : ascii) : bool :=
  let n := nat_of_ascii c in (128 <=? n)%nat && (n <? 192)%nat.

Fixpoint chars (s : string) : list string :=
  match s with
  | EmptyString => []
  | String c s' =>
      match s' with
      | EmptyString => [String c EmptyString]
      | String c' _ =>
          if is_cont c'
          then match chars s' with
               | x :: xs => String c x :: xs
               | [] => [String c EmptyString]
               end
          else String c EmptyString :: chars s'
      end
  end.

Definition int_of_key (k : pyval) : option Z :=
  match k with
  | PBool true => Some 1%Z
  | PBool false => Some 0%Z
  | PInt z => Some z
  | _ => None
  end.

(** [==] on dictionary keys: [True == 1] and [False == 0]. *)
Definition key_eqb (a b : pyval) : bool :=
  match a, b with
  | PNone, PNone => true
  | PStr x, PStr y => String.eqb x y
  | _, _ =>
      match int_of_key a, int_of_key b with
      | Some x, Some y => Z.eqb x y
      | _, _ => false
      end
  end.

Definition hashable (k : pyval) : bool :=
  match k with PList _ | PDict _ => false | _ => true end.

Fixpoint dict_get (d : dict) (k : pyval) : option pyval :=
  match d with
  | [] => None
  | (k', v) :: d' => if key_eqb k' k then Some v else dict_get d' k
  end.

(** [d[k] = v] for a hashable [k]: an existing key keeps its place. *)
Fixpoint dict_set (d : dict) (k v : pyval) : dict :=
  match d with
  | [] => [(k, v)]
  | (k', v') :: d' =>
      if key_eqb k' k then (k', v) :: d' else (k', v') :: dict_set d' k v
  end.

Definition setitem (d : dict) (k v : pyval) : outcome dict :=
  if hashable k then Return (dict_set d k v) else Raise TypeError.

(** [d.get(key, default)] on a dictionary. *)
Definition dict_get_or (d : dict) (key : string) (default : pyval) : pyval :=
  match dict_get d (PStr key) with Some v => v | None => default end.

(** [x.get(key, default)]; only dictionaries have the method. *)
Definition get (x : pyval) (key : string) (default : pyval) : outcome pyval :=
  match x with
  | PDict d => Return (dict_get_or d key default)
  | _ => Raise AttributeError
  end.

Definition obind {A B} (r : outcome A) (k : A -> outcome B) : outcome B :=
  match r with
  | Return a => k a
  | Raise e => Raise e
  | Diverge => Diverge
  end.

Fixpoint map_outcome {A B} (f : A -> outcome B) (l : list A) : outcome (list B) :=
  match l with
  | [] => Return []
  | x :: l' =>
      obind (f x) (fun y => obind (map_outcome f l') (fun ys => Return (y :: ys)))
  end.

(** [x.lower()] *)
Definition lower (x : pyval) : outcome string :=
  match x with
  | PStr s => Return (PyStr.lower s)
  | _ => Raise AttributeError
  end.

(** [len(x)] *)
Definition len (x : pyval) : outcome nat :=
  match x with
  | PStr s => Return (length (chars s))
  | PList l => Return (length l)
  | PDict d => Return (length d)
  | _ => Raise TypeError
  end.

(** [x[i]] for a non-negative integer [i]. *)
Definition getitem (x : pyval) (i : nat) : outcome pyval :=
  match x with
  | PStr s =>
      match nth_error (chars s) i with
      | Some c => Return (PStr c)
      | None => Raise IndexError
      end
  | PList l =>
      match nth_error l i with
      | Some v => Return v
      | None => Raise IndexError
      end
  | PDict d =>
      match dict_get d (PInt (Z.of_nat i)) with
      | Some v => Return v
      | None => Raise KeyError
      end
  | _ => Raise TypeError
  end.

(** [for e in x]: the elements a loop over [x] visits. *)
Definition iter (x : pyval) : outcome (list pyval) :=
  match x with
  | PStr s => Return (map PStr (chars s))
  | PList l => Return l
  | PDict d => Return (map fst d)
  | _ => Raise TypeError
  end.

(** [x.items()] *)
Definition items (x : pyval) : outcome dict :=
  match x with
  | PDict d => Return d
  | _ => Raise AttributeError
  end.

(** One element of the sequence given to [dict.update]: it must itself be
    a sequence of length two. *)
Definition pair_of (e : pyval) : outcome (pyval * pyval) :=
  match iter e with
  | Return [k; v] => Return (k, v)
  | Return _ => Raise ValueError
  | Raise _ => Raise TypeError
  | Diverge => Diverge
  end.

(** [d.update(seq)] over the elements of a sequence: pairs are stored one
    by one, so what was stored before a bad element stays. *)
Fixpoint update_pairs (d : dict) (l : list pyval) : dict * option exn :=
  match l with
  | [] => (d, None)
  | e :: l' =>
      match pair_of e with
      | Return (k, v) =>
          if hashable k then update_pairs (dict_set d k v) l'
          else (d, Some TypeError)
      | Raise x => (d, Some x)
      | Diverge => (d, None)
      end
  end.

(** [d.update(x)] *)
Definition update (d : dict) (x : pyval) : dict * option exn :=
  match x with
  | PDict kvs => (fold_left (fun acc kv => dict_set acc (fst kv) (snd kv)) kvs d, None)
  | PStr s => update_pairs d (map PStr (chars s))
  | PList l => update_pairs d l
  | _ => (d, Some TypeError)
  end.

End Py.

(** ** Session state (the pydantic models of main.py) *)

Record ProcessOutline : Type := mkProcessOutline {
  complete_sections : list string;
  supplementary_inquiries : dict;
  suggested_diagnostic_dialectics : list pyval;
  supplementary_auxiliary_examinations : dict
}.

Record InitialInquriy : Type := mkInitialInquriy {
  main_complain : string;
  history_of_present_illness : string;
  past_medical_history : string;
  allergy_history : string;
  family_history : string;
  physical_examination : string;
  personal_history : string;
  auxiliary_examination : dict
}.

Record PatientState : Type := mkPatientState {
  initial_inquiry : InitialInquriy;
  audience_level : string;
  process_outline : ProcessOutline;
  diagnosis_result : dict;
  treatment_plan : dict
}.

Definition default_PatientState : PatientState :=
  mkPatientState (mkInitialInquriy "" "" "" "" "" "" "" [])
                 "" (mkProcessOutline [] [] [] []) [] [].

Definition set_initial_inquiry (i : InitialInquriy) (p : PatientState) :=
  mkPatientState i (audience_level p) (process_outline p)
                 (diagnosis_result p) (treatment_plan p).
Definition set_audience_level (a : string) (p : PatientState) :=
  mkPatientState (initial_inquiry p) a (process_outline p)
                 (diagnosis_result p) (treatment_plan p).
Definition set_process_outline (o : ProcessOutline) (p : PatientState) :=
  mkPatientState (initial_inquiry p) (audience_level p) o
                 (diagnosis_result p) (treatment_plan p).
Definition set_diagnosis_result (d : dict) (p : PatientState) :=
  mkPatientState (initial_inquiry p) (audience_level p) (process_outline p)
                 d (treatment_plan p).
Definition set_treatment_plan (d : dict) (p : PatientState) :=
  mkPatientState (initial_inquiry p) (audience_level p) (process_outline p)
                 (diagnosis_result p) d.

(** [complete_sections.append(x)] *)
Definition append_section (x : string) (p : PatientState) :=
  let o := process_outline p in
  set_process_outline
    (mkProcessOutline (complete_sections o ++ [x]) (supplementary_inquiries o)
       (suggested_diagnostic_dialectics o) (supplementary_auxiliary_examinations o)) p.
Definition set_supplementary_inquiries (d : dict) (p : PatientState) :=
  let o := process_outline p in
  set_process_outline
    (mkProcessOutline (complete_sections o) d
       (suggested_diagnostic_dialectics o) (supplementary_auxiliary_examinations o)) p.
(** [suggested_diagnostic_dialectics.append(x)] *)
Definition append_dialectic (x : pyval) (p : PatientState) :=
  let o := process_outline p in
  set_process_outline
    (mkProcessOutline (complete_sections o) (supplementary_inquiries o)
       (suggested_diagnostic_dialectics o ++ [x]) (supplementary_auxiliary_examinations o)) p.
Definition set_supplementary_auxiliary_examinations (d : dict) (p : PatientState) :=
  let o := process_outline p in
  set_process_outline
    (mkProcessOutline (complete_sections o) (supplementary_inquiries o)
       (suggested_diagnostic_dialectics o) d) p.

(** ** The world outside the process *)

Inductive Crew : Type :=
| SupervisorLLM
| DiagnosisCrew
| PossibilitiesEliminationCrew
| TreatmentPlanCrew
| MultiAgentsReportCrew.

(** One agent invocation: who was called and with which input bindings. *)
Record Call : Type := mkCall {
  crew : Crew;
  inputs : list (string * pyval)
}.

(** What the run cannot decide itself.  [agent_reply n] is the raw text the
    [n]-th agent invocation of the run returns; [json_loads] is Python's
    decoder: the value, or the exception it raises ([JSONDecodeError] on a
    text that is not JSON, but also [RecursionError] on nesting too deep, or
    a plain [ValueError] on an integer literal over the digit limit);
    [py_repr] is [str] on values
    that are not strings; [json_dumps] is [json.dumps(_, ensure_ascii=False,
    indent=2)]; [uuid4 n] is the [n]-th random identifier; [can_open] tells
    whether a path can be opened for writing. *)
Record World : Type := mkWorld {
  json_loads : string -> decoded;
  py_repr : pyval -> string;
  json_dumps : pyval -> string;
  agent_reply : nat -> string;
  uuid4 : nat -> string;
  can_open : string -> bool
}.

(** The running process: the flow state, the console lines not yet read,
    the agent invocations made so far (oldest first), the number of
    identifiers drawn, and the files written (latest first). *)
Record Session : Type := mkSession {
  state : PatientState;
  stdin : list string;
  calls : list Call;
  uuids : nat;
  files : list (string * string)
}.

Definition initial_session (console : list string) : Session :=
  mkSession default_PatientState console [] 0 [].

(** ** State and exception monad *)

Definition M (A : Type) : Type := Session -> Session * outcome A.

Definition ret {A} (a : A) : M A := fun s => (s, Return a).
Definition raise {A} (e : exn) : M A := fun s => (s, Raise e).
Definition diverge {A} : M A := fun s => (s, Diverge).

Definition bind {A B} (m : M A) (k : A -> M B) : M B :=
  fun s =>
    match m s with
    | (s1, Return a) => k a s1
    | (s1, Raise e) => (s1, Raise e)
    | (s1, Diverge) => (s1, Diverge)
    end.

Declare Scope monad_scope.
Delimit Scope monad_scope with monad.
Notation "x <- m ;; k" := (bind m (fun x => k))
  (at level 61, m at next level, right associativity) : monad_scope.
Notation "m ;;; k" := (bind m (fun _ => k))
  (at level 61, right associativity) : monad_scope.
Local Open Scope monad_scope.

Definition lift {A} (r : outcome A) : M A := fun s => (s, r).

Definition get_state : M PatientState := fun s => (s, Return (state s)).

Definition modify_state (f : PatientState -> PatientState) : M unit :=
  fun s => (mkSession (f (state s)) (stdin s) (calls s) (uuids s) (files s),
            Return tt).

(** [input(...)]: the next console line, [EOFError] when there is none. *)
Definition input : M string :=
  fun s =>
    match stdin s with
    | [] => (s, Raise EOFError)
    | l :: rest =>
        (mkSession (state s) rest (calls s) (uuids s) (files s), Return l)
    end.

Fixpoint for_each {A} (l : list A) (f : A -> M unit) : M unit :=
  match l with
  | [] => ret tt
  | x :: l' => f x ;;; for_each l' f
  end.

(** [when c m]: an [if] without [else]. *)
Definition when (c : bool) (m : M unit) : M unit := if c then m else ret tt.

(** ** The five stages of [RehabFlow] *)

Section Flow.

Variable W : World.

(** [crew.kickoff(inputs=...)] and [llm.call(messages=...)]: the call is
    recorded and the world supplies the raw text. *)
Definition kickoff_crew (c : Crew) (ins : list (string * pyval)) : M string :=
  fun s =>
    (mkSession (state s) (stdin s) (calls s ++ [mkCall c ins]) (uuids s) (files s),
     Return (agent_reply W (length (calls s)))).

(** [str(uuid.uuid4())] *)
Definition new_uuid : M string :=
  fun s =>
    (mkSession (state s) (stdin s) (calls s) (S (uuids s)) (files s),
     Return (uuid4 W (uuids s))).

(** [with open(path, "w") as f: f.write(text)] *)
Definition write_file (path text : string) : M unit :=
  fun s =>
    if can_open W path
    then (mkSession (state s) (stdin s) (calls s) (uuids s)
                    ((path, text) :: files s), Return tt)
    else (s, Raise OSError).

(** [json.loads(text)].  Inside [try ... except json.JSONDecodeError] the
    stage raises [e] in place of the decoder's [JSONDecodeError]; where the
    call stands alone, [e] is [JSONDecodeError] itself.  Whatever else the
    decoder raises goes through as it is. *)
Definition loads_or (e : exn) (text : string) : M pyval :=
  match json_loads W text with
  | Decoded v => ret v
  | Fails JSONDecodeError => raise e
  | Fails x => raise x
  end.

(** [f"{v}"] *)
Definition format (v : pyval) : string :=
  match v with
  | PStr s => s
  | _ => py_repr W v
  end.

(** *** Stage 1: [get_user_input] *)

Definition intake_record : InitialInquriy :=
  mkInitialInquriy
    "骑车摔倒，小臂疼痛，无法活动"
    "一年前小臂骨折"
    "无其他疾病史"
    "无药物过敏史"
    "无家族遗传病史"
    "小臂肿胀，压痛明显，活动受限"
    "无吸烟饮酒史，工作压力大，缺乏锻炼"
    [(PStr "X-ray", PStr "显示小臂骨折愈合不良")].

Definition audience_choices : list string :=
  ["non-professional"; "professional"; "top-expert"].

(** The [while True] loop that validates the audience level. *)
Fixpoint audience_loop (fuel : nat) : M unit :=
  match fuel with
  | O => diverge
  | S fuel' =>
      let audience := PyStr.lower "Professional" in
      if existsb (String.eqb audience) audience_choices
      then modify_state (set_audience_level audience)
      else audience_loop fuel'
  end.

Definition get_user_input (fuel : nat) : M PatientState :=
  modify_state (set_initial_inquiry intake_record) ;;;
  audience_loop fuel ;;;
  get_state.

(** *** Stage 2: [inquiry_assistance] *)

Definition inquiry_messages (p_state st : PatientState) : list (string * pyval) :=
  let i := initial_inquiry p_state in
  [("main_complain", PStr (main_complain i));
   ("history_of_present_illness", PStr (history_of_present_illness i));
   ("past_medical_history", PStr (past_medical_history i));
   ("allergy_history", PStr (allergy_history i));
   ("family_history", PStr (family_history i));
   ("physical_examination", PStr (physical_examination i));
   ("personal_history", PStr (personal_history i));
   ("auxiliary_examination", PDict (auxiliary_examination i));
   ("supplementary_inquiries",
    PDict (supplementary_inquiries (process_outline st)))].

(** [self.state.process_outline.supplementary_inquiries[k] = v] *)
Definition record_inquiry (k v : pyval) : M unit :=
  st <- get_state ;;
  d <- lift (Py.setitem (supplementary_inquiries (process_outline st)) k v) ;;
  modify_state (set_supplementary_inquiries d).

(** The checks between the agent's reply and its decoded value. *)
Definition checked_loads (response : string) : M pyval :=
  let clean_response := clean_and_parse_json response in
  if PyStr.is_empty (PyStr.strip clean_response) then raise ValueError
  else if negb (PyStr.startswith "{" (PyStr.strip clean_response))
  then raise ValueError
  else loads_or ValueError clean_response.

(** One pass of the [while] loop of [inquiry_assistance]. *)
Definition inquiry_body (p_state : PatientState) : M unit :=
  st <- get_state ;;
  response <- kickoff_crew SupervisorLLM (inquiry_messages p_state st) ;;
  reply <- checked_loads response ;;
  analysis <- lift (Py.get reply "inquiry_analysis" (PStr "无问诊总结")) ;;
  record_inquiry (PStr "inquiry_analysis") analysis ;;;
  shown <- lift (Py.get reply "supplementary_inquiries" (PStr "无补充问诊")) ;;
  n <- lift (Py.len shown) ;;
  when (0 <? n)%nat
    (asked <- lift (Py.get reply "supplementary_inquiries" PNone) ;;
     m <- lift (Py.len asked) ;;
     for_each (seq 0 m) (fun i =>
       question <- lift (Py.getitem asked i) ;;
       supplementary_anwser <- input ;;
       when (negb (PyStr.is_empty supplementary_anwser))
         (record_inquiry question (PStr supplementary_anwser)))) ;;;
  complete <- lift (Py.get reply "inquiry_complete" (PStr "")) ;;
  answer <- lift (Py.lower complete) ;;
  when (String.eqb answer "yes") (modify_state (append_section "initial_inquiry")).

(** The loop guard of [inquiry_assistance]. *)
Definition inquiry_guard (iter_times : nat) (st : PatientState) : bool :=
  negb (existsb (String.eqb "initial_inquiry")
                (complete_sections (process_outline st)))
  && (iter_times <? 2)%nat.

(** The [while] loop; the result is the final value of [iter_times]. *)
Fixpoint inquiry_loop (fuel : nat) (p_state : PatientState) (iter_times : nat)
  : M nat :=
  st <- get_state ;;
  if inquiry_guard iter_times st then
    match fuel with
    | O => diverge
    | S fuel' =>
        inquiry_body p_state ;;;
        inquiry_loop fuel' p_state (iter_times + 1)
    end
  else ret iter_times.

Definition inquiry_assistance (fuel : nat) (p_state : PatientState)
  : M ProcessOutline :=
  inquiry_loop fuel p_state 0 ;;;
  st <- get_state ;;
  ret (process_outline st).

(** *** Stage 3: [diagnosis_assistance] *)

(** The local variables of the stage that the elimination loop carries. *)
Record DiagLocals : Type := mkDiagLocals {
  diagnosis_conclusion : pyval;
  diagnosis_basis : pyval;
  list_of_other_diagnosis_possibility : pyval;
  str_of_other_diagnosis_possibility : string;
  suggested_dialectics : pyval;
  ready_to_treatment_plan : bool
}.

Definition set_ready (b : bool) (loc : DiagLocals) : DiagLocals :=
  mkDiagLocals (diagnosis_conclusion loc) (diagnosis_basis loc)
    (list_of_other_diagnosis_possibility loc)
    (str_of_other_diagnosis_possibility loc) (suggested_dialectics loc) b.

(** ["; ".join(", ".join(f"{k}:{v}" for k, v in entity.items())
               for entity in possibilities)] *)
Definition join_possibilities (possibilities : pyval) : outcome string :=
  Py.obind (Py.iter possibilities) (fun entities =>
  Py.obind (Py.map_outcome
              (fun entity =>
                 Py.obind (Py.items entity) (fun kvs =>
                 Return (String.concat ", "
                           (map (fun kv => format (fst kv) ++ ":" ++ format (snd kv))
                                kvs))))
              entities) (fun parts =>
  Return (String.concat "; " parts))).

(** [print(x[i])] for every [i] in [range(len(x))]: only the indexing can
    fail. *)
Definition show_each (x : pyval) (n : nat) : M unit :=
  for_each (seq 0 n) (fun i => lift (Py.getitem x i) ;;; ret tt).

(** [self.state.process_outline.supplementary_auxiliary_examinations[k] = v] *)
Definition record_examination (k v : pyval) : M unit :=
  st <- get_state ;;
  d <- lift (Py.setitem
               (supplementary_auxiliary_examinations (process_outline st)) k v) ;;
  modify_state (set_supplementary_auxiliary_examinations d).

(** [{question: answer}], a dictionary display with one key. *)
Definition single_dict (question : pyval) (answer : string) : M pyval :=
  if Py.hashable question then ret (PDict [(question, PStr answer)])
  else raise TypeError.

Definition diagnosis_inputs (audience : string) (st : PatientState)
    (p_outline : ProcessOutline) : list (string * pyval) :=
  let i := initial_inquiry st in
  [("audience_level", PStr audience);
   ("main_complain", PStr (main_complain i));
   ("history_of_present_illness", PStr (history_of_present_illness i));
   ("past_medical_history", PStr (past_medical_history i));
   ("allergy_history", PStr (allergy_history i));
   ("family_history", PStr (family_history i));
   ("physical_examination", PStr (physical_examination i));
   ("personal_history", PStr (personal_history i));
   ("auxiliary_examination", PDict (auxiliary_examination i));
   ("supplementary_inquiries", PDict (supplementary_inquiries p_outline))].

(** From the call of the diagnosis crew down to the choice of the most
    recent question/answer pair (the code before the elimination loop). *)
Definition diagnosis_consult (audience : string) (p_outline : ProcessOutline)
  : M DiagLocals :=
  st <- get_state ;;
  raw <- kickoff_crew DiagnosisCrew (diagnosis_inputs audience st p_outline) ;;
  parsed_result <- loads_or JSONDecodeError raw ;;
  conclusion <- lift (Py.get parsed_result "diagnosis_conclusion" (PStr "无诊断结论")) ;;
  basis <- lift (Py.get parsed_result "diagnosis_basis" (PStr "无诊断依据")) ;;
  others <- lift (Py.get parsed_result "other_diagnosis_possibility" (PList [])) ;;
  n <- lift (Py.len others) ;;
  show_each others n ;;;
  joined <- lift (join_possibilities others) ;;
  answer_suggested_question <- input ;;
  when (negb (PyStr.is_empty answer_suggested_question))
    (question <- lift (Py.get parsed_result "suggested_question" (PStr "无建议问题")) ;;
     pair <- single_dict question answer_suggested_question ;;
     modify_state (append_dialectic pair)) ;;;
  exams <- lift (Py.get parsed_result "suggested_auxiliary_examinations" (PList [])) ;;
  m <- lift (Py.len exams) ;;
  when (negb (m =? 0)%nat)
    (for_each (seq 0 m) (fun i =>
       exam <- lift (Py.getitem exams i) ;;
       suggested_auxiliary_check_answer <- input ;;
       when (negb (PyStr.is_empty suggested_auxiliary_check_answer))
         (name <- lift (Py.get exam "examination_name" (PStr "无检查项目")) ;;
          record_examination name (PStr suggested_auxiliary_check_answer)))) ;;;
  st' <- get_state ;;
  let recorded := suggested_diagnostic_dialectics (process_outline st') in
  ret (mkDiagLocals conclusion basis others joined
         (last recorded (PStr "暂无建议的诊断对话")) false).

Definition elimination_inputs (audience : string) (loc : DiagLocals)
    (st : PatientState) : list (string * pyval) :=
  [("diagnosis_conclusion", diagnosis_conclusion loc);
   ("diagnosis_basis", diagnosis_basis loc);
   ("other_diagnosis_possibility", PStr (str_of_other_diagnosis_possibility loc));
   ("suggested_question_and_answer", suggested_dialectics loc);
   ("suggested_auxiliary_check_and_result",
    PDict (supplementary_auxiliary_examinations (process_outline st)));
   ("audience_level", PStr audience)].

(** One pass of the elimination loop (the body of
    [while ready_to_treatment_plan != True]).  Both branches of the test on
    [further_inquiries_needed] begin by reading the conclusion and the basis
    from the reply; they are read once here, before the test. *)
Definition elimination_body (audience : string) (loc : DiagLocals)
  : M DiagLocals :=
  st <- get_state ;;
  raw <- kickoff_crew PossibilitiesEliminationCrew
           (elimination_inputs audience loc st) ;;
  reply <- loads_or JSONDecodeError raw ;;
  further <- lift (Py.get reply "further_inquiries_needed" (PStr "unknown")) ;;
  needed <- lift (Py.lower further) ;;
  conclusion <- lift (Py.get reply "diagnosis_conclusion" (PStr "无更新诊断结论")) ;;
  basis <- lift (Py.get reply "diagnosis_basis" (PStr "无更新诊断依据")) ;;
  if String.eqb needed "no" then
    ret (mkDiagLocals conclusion basis
           (list_of_other_diagnosis_possibility loc)
           (str_of_other_diagnosis_possibility loc)
           (suggested_dialectics loc) true)
  else
    others <- lift (Py.get reply "other_diagnosis_possibility" (PList [])) ;;
    n <- lift (Py.len others) ;;
    if (n =? 0)%nat then
      ret (mkDiagLocals conclusion basis others
             (str_of_other_diagnosis_possibility loc)
             (suggested_dialectics loc) true)
    else
      show_each others n ;;;
      joined <- lift (join_possibilities others) ;;
      checks <- lift (Py.get reply "suggested_auxiliary_check" (PList [])) ;;
      m <- lift (Py.len checks) ;;
      when (negb (m =? 0)%nat)
        (for_each (seq 0 m) (fun i =>
           check <- lift (Py.getitem checks i) ;;
           suggested_auxiliary_check_answer <- input ;;
           when (negb (PyStr.is_empty suggested_auxiliary_check_answer))
             (record_examination check (PStr suggested_auxiliary_check_answer)))) ;;;
      question <- lift (Py.get reply "suggested_question" (PStr "无建议问题")) ;;
      answer_suggested_question <- input ;;
      dialectics <-
        (if negb (PyStr.is_empty answer_suggested_question) then
           pair <- single_dict question answer_suggested_question ;;
           modify_state (append_dialectic pair) ;;;
           ret pair
         else ret (PDict [])) ;;
      ret (mkDiagLocals conclusion basis others joined dialectics (m =? 0)%nat).

Fixpoint elimination_loop (fuel : nat) (audience : string) (loc : DiagLocals)
  : M DiagLocals :=
  if ready_to_treatment_plan loc then ret loc
  else
    match fuel with
    | O => diverge
    | S fuel' =>
        loc' <- elimination_body audience loc ;;
        elimination_loop fuel' audience loc'
    end.

(** The end of both branches: store the result, mark the stage. *)
Definition conclude_diagnosis (conclusion basis : pyval) : M dict :=
  modify_state (set_diagnosis_result
                  [(PStr "diagnosis_conclusion", conclusion);
                   (PStr "diagnosis_basis", basis)]) ;;;
  modify_state (append_section "diagnosis") ;;;
  st <- get_state ;;
  ret (diagnosis_result st).

(** The code from [if len(list_of_other_diagnosis_possibility) > 0] on. *)
Definition diagnosis_settle (fuel : nat) (audience : string) (loc : DiagLocals)
  : M dict :=
  n <- lift (Py.len (list_of_other_diagnosis_possibility loc)) ;;
  final <- (if (0 <? n)%nat
            then elimination_loop fuel audience (set_ready false loc)
            else ret loc) ;;
  conclude_diagnosis (diagnosis_conclusion final) (diagnosis_basis final).

Definition diagnosis_assistance (fuel : nat) (p_outline : ProcessOutline)
  : M dict :=
  skip <- input ;;
  if String.eqb (PyStr.lower skip) "q" then
    final_diagnosis_conclusion <- input ;;
    final_diagnosis_basis <- input ;;
    conclude_diagnosis (PStr final_diagnosis_conclusion) (PStr final_diagnosis_basis)
  else
    st <- get_state ;;
    let audience := audience_level st in
    loc <- diagnosis_consult audience p_outline ;;
    diagnosis_settle fuel audience loc.

(** *** Stage 4: [treatment_plan_creation] *)

Definition plan_path (name : string) : string :=
  "treatment_plans/treatment_plan_" ++ name ++ ".md".

Definition treatment_inputs (st : PatientState) (p_diagnosis_result : dict)
  : list (string * pyval) :=
  let audience := audience_level st in
  let conclusion :=
    Py.dict_get_or p_diagnosis_result "diagnosis_conclusion" (PStr "无诊断结论") in
  let basis :=
    Py.dict_get_or p_diagnosis_result "diagnosis_basis" (PStr "无诊断依据") in
  let supplementary_auxiliary_examinations' :=
    supplementary_auxiliary_examinations (process_outline st) in
  let suggested_diagnostic_dialectics' :=
    supplementary_auxiliary_examinations (process_outline st) in
  let i := initial_inquiry st in
  [("audience_level", PStr audience);
   ("diagnosis_conclusion", conclusion);
   ("diagnosis_basis", basis);
   ("supplementary_auxiliary_examinations",
    PDict supplementary_auxiliary_examinations');
   ("suggested_diagnostic_dialectics", PDict suggested_diagnostic_dialectics');
   ("history_of_present_illness", PStr (history_of_present_illness i));
   ("past_medical_history", PStr (past_medical_history i));
   ("allergy_history", PStr (allergy_history i));
   ("family_history", PStr (family_history i));
   ("personal_history", PStr (personal_history i))].

(** [self.state.treatment_plan.update(x)] *)
Definition update_treatment_plan (x : pyval) : M unit :=
  st <- get_state ;;
  let r := Py.update (treatment_plan st) x in
  modify_state (set_treatment_plan (fst r)) ;;;
  match snd r with
  | Some e => raise e
  | None => ret tt
  end.

Definition treatment_plan_creation (p_diagnosis_result : dict)
  : M ProcessOutline :=
  treatment_plan_filename <- new_uuid ;;
  skip <- input ;;
  (if String.eqb (PyStr.lower skip) "q" then
     plan <- input ;;
     st <- get_state ;;
     modify_state (set_treatment_plan
                     (Py.dict_set (treatment_plan st)
                                  (PStr "manual_treatment_plan") (PStr plan))) ;;;
     write_file (plan_path treatment_plan_filename) plan
   else
     st <- get_state ;;
     raw <- kickoff_crew TreatmentPlanCrew (treatment_inputs st p_diagnosis_result) ;;
     dict_plan_result <- loads_or ValueError raw ;;
     update_treatment_plan dict_plan_result ;;;
     write_file (plan_path treatment_plan_filename) raw) ;;;
  modify_state (append_section "treatment plan") ;;;
  st <- get_state ;;
  ret (process_outline st).

(** *** Stage 5: [multiagents_report] *)

Definition report_path (name : string) : string :=
  "summary_reports/report_" ++ name ++ ".md".

(** [prepare_for_llm] *)
Definition prepare_for_llm (v : pyval) : string := json_dumps W v.

Definition report_inputs (st : PatientState) (p_outline : ProcessOutline)
  : list (string * pyval) :=
  let i := initial_inquiry st in
  [("audience_level", PStr (audience_level st));
   ("history_of_present_illness", PStr (history_of_present_illness i));
   ("past_medical_history", PStr (past_medical_history i));
   ("allergy_history", PStr (allergy_history i));
   ("family_history", PStr (family_history i));
   ("personal_history", PStr (personal_history i));
   ("physical_examination", PStr (physical_examination i));
   ("auxiliary_examination", PDict (auxiliary_examination i));
   ("supplementary_inquiries", PDict (supplementary_inquiries p_outline));
   ("suggested_diagnostic_dialectics",
    PStr (prepare_for_llm (PList (suggested_diagnostic_dialectics p_outline))));
   ("supplementary_auxiliary_examinations",
    PDict (supplementary_auxiliary_examinations p_outline));
   ("complete_sections",
    PStr (prepare_for_llm (PList (map PStr (complete_sections p_outline)))));
   ("diagnosis_result", PDict (diagnosis_result st));
   ("treatment_plan", PDict (treatment_plan st))].

Definition multiagents_report (p_outline : ProcessOutline) : M string :=
  st <- get_state ;;
  final_report <- kickoff_crew MultiAgentsReportCrew (report_inputs st p_outline) ;;
  report_filename <- new_uuid ;;
  write_file (report_path report_filename) final_report ;;;
  ret "Summary of multi-agents cooperating to diagonse is done".

(** *** The flow: each stage listens to the one before it *)

Definition kickoff (fuel : nat) : M string :=
  p_state <- get_user_input fuel ;;
  p_outline <- inquiry_assistance fuel p_state ;;
  p_diagnosis_result <- diagnosis_assistance fuel p_outline ;;
  p_outline' <- treatment_plan_creation p_diagnosis_result ;;
  multiagents_report p_outline'.

End Flow.

(** ** A reference decoder and a reference world

    The stages are stated for every [World].  To run them on concrete
    replies, [Ref.loads] decodes the fragment of JSON without escape
    sequences and without fractions or exponents, the way [json.loads] does
    on that fragment; [Ref.js] writes such a text with apostrophes standing
    for the double quotes. *)

Module Ref.

Definition dquote : ascii := ascii_of_nat 34.

Definition js (s : string) : string :=
  (fix go (s : string) : string :=
     match s with
     | EmptyString => EmptyString
     | String c s' => String (if Ascii.eqb c "'" then dquote else c) (go s')
     end) s.

Definition json_ws (c : ascii) : bool :=
  Ascii.eqb c " " || Ascii.eqb c (ascii_of_nat 9)
  || Ascii.eqb c (ascii_of_nat 10) || Ascii.eqb c (ascii_of_nat 13).

Fixpoint skip_ws (s : string) : string :=
  match s with
  | String c s' => if json_ws c then skip_ws s' else s
  | EmptyString => s
  end.

(** The characters of a string literal up to its closing quote. *)
Fixpoint string_body (s : string) : option (string * string) :=
  match s with
  | EmptyString => None
  | String c s' =>
      if Ascii.eqb c dquote then Some (EmptyString, s')
      else if Ascii.eqb c "\" || (nat_of_ascii c <? 32)%nat then None
      else match string_body s' with
           | Some (body, rest) => Some (String c body, rest)
           | None => None
           end
  end.

Definition is_digit (c : ascii) : bool :=
  (48 <=? nat_of_ascii c)%nat && (nat_of_ascii c <=? 57)%nat.

Fixpoint digits (s : string) : list nat * string :=
  match s with
  | String c s' =>
      if is_digit c
      then let r := digits s' in ((nat_of_ascii c - 48) :: fst r, snd r)
      else ([], s)
  | EmptyString => ([], s)
  end.

Definition number (s : string) : option (pyval * string) :=
  let r := match s with
           | String c s' => if Ascii.eqb c "-" then (true, s') else (false, s)
           | EmptyString => (false, s)
           end in
  let ds := digits (snd r) in
  match fst ds with
  | [] => None
  | d :: more =>
      if (d =? 0)%nat && negb (match more with [] => true | _ => false end)
      then None
      else
        match snd ds with
        | String c _ =>
            if Ascii.eqb c "." || Ascii.eqb c "e" || Ascii.eqb c "E" then None
            else
              let z := fold_left (fun a x => (10 * a + Z.of_nat x)%Z) (fst ds) 0%Z in
              Some (PInt (if fst r then (- z)%Z else z), snd ds)
        | EmptyString =>
            let z := fold_left (fun a x => (10 * a + Z.of_nat x)%Z) (fst ds) 0%Z in
            Some (PInt (if fst r then (- z)%Z else z), snd ds)
        end
  end.

(** Is the first character of [s] the character [c]? *)
Definition next_is (c : ascii) (s : string) : option string :=
  match s with
  | String c' s' => if Ascii.eqb c c' then Some s' else None
  | EmptyString => None
  end.

Fixpoint value (fuel : nat) (s : string) : option (pyval * string) :=
  match fuel with
  | O => None
  | S fuel' =>
      let elements :=
        fix elements (n : nat) (s : string) (acc : list pyval) :=
          match n with
          | O => None
          | S n' =>
              match value fuel' s with
              | None => None
              | Some (v, r) =>
                  match next_is "," (skip_ws r), next_is "]" (skip_ws r) with
                  | Some r', _ => elements n' r' (acc ++ [v])%list
                  | None, Some r' => Some (PList (acc ++ [v])%list, r')
                  | None, None => None
                  end
              end
          end in
      let members :=
        fix members (n : nat) (s : string) (acc : dict) :=
          match n with
          | O => None
          | S n' =>
              match next_is dquote (skip_ws s) with
              | None => None
              | Some r0 =>
                  match string_body r0 with
                  | None => None
                  | Some (key, r1) =>
                      match next_is ":" (skip_ws r1) with
                      | None => None
                      | Some r2 =>
                          match value fuel' r2 with
                          | None => None
                          | Some (v, r3) =>
                              let acc' := Py.dict_set acc (PStr key) v in
                              match next_is "," (skip_ws r3),
                                    next_is "}" (skip_ws r3) with
                              | Some r', _ => members n' r' acc'
                              | None, Some r' => Some (PDict acc', r')
                              | None, None => None
                              end
                          end
                      end
                  end
              end
          end in
      match skip_ws s with
      | EmptyString => None
      | String c r =>
          if Ascii.eqb c "{" then
            match next_is "}" (skip_ws r) with
            | Some r' => Some (PDict [], r')
            | None => members (String.length r) r []
            end
          else if Ascii.eqb c "[" then
            match next_is "]" (skip_ws r) with
            | Some r' => Some (PList [], r')
            | None => elements (String.length r) r []
            end
          else if Ascii.eqb c dquote then
            match string_body r with
            | Some (body, r') => Some (PStr body, r')
            | None => None
            end
          else
            match PyStr.drop_prefix "true" (String c r),
                  PyStr.drop_prefix "false" (String c r),
                  PyStr.drop_prefix "null" (String c r) with
            | Some r', _, _ => Some (PBool true, r')
            | _, Some r', _ => Some (PBool false, r')
            | _, _, Some r' => Some (PNone, r')
            | None, None, None => number (String c r)
            end
      end
  end.

Definition loads (s : string) : option pyval :=
  match value (S (String.length s)) s with
  | Some (v, r) => if PyStr.is_empty (skip_ws r) then Some v else None
  | None => None
  end.

(** A world with the reference decoder, whose agents answer with the texts
    of [replies] in turn (and with nothing after them), whose identifiers
    are [id-i], [id-ii], ..., and in which
    every file can be written. *)
Definition strokes (n : nat) : string :=
  (fix go (n : nat) : string :=
     match n with O => EmptyString | S n' => String "i" (go n') end) n.

Definition world (replies : list string) : World :=
  mkWorld (fun s => match loads s with
                    | Some v => Decoded v
                    | None => Fails JSONDecodeError
                    end)
          (fun _ => "<object>")
          (fun _ => "<json>")
          (fun n => nth n replies EmptyString)
          (fun n => "id-" ++ strokes (S n))
          (fun _ => true).

End Ref.


(** ** Vocabulary of the properties *)

(** The list [complete_sections] of a flow state. *)
Definition sections_of (p : PatientState) : list string :=
  complete_sections (process_outline p).

(** The values the specification enumerates for the audience level. *)
Definition spec_audience_levels : list string :=
  ["patient"; "professional"; "expert"].

(** The session once the invocation of [c] with [ins] is recorded. *)
Definition log_call (c : Crew) (ins : list (string * pyval)) (s : Session) : Session :=
  mkSession (state s) (stdin s) (calls s ++ [mkCall c ins])%list (uuids s) (files s).

(** The session once the console lines before [rest] are read. *)
Definition with_stdin (rest : list string) (s : Session) : Session :=
  mkSession (state s) rest (calls s) (uuids s) (files s).

Definition is_dict (v : pyval) : bool :=
  match v with PDict _ => true | _ => false end.

(** The value bound to [name] in the inputs of an invocation. *)
Definition binding (name : string) (ins : list (string * pyval)) : option pyval :=
  option_map snd (find (fun b => String.eqb name (fst b)) ins).

(** The flow state with another list of diagnostic question/answer pairs. *)
Definition with_dialectics (l : list pyval) (p : PatientState) : PatientState :=
  let o := process_outline p in
  set_process_outline
    (mkProcessOutline (complete_sections o) (supplementary_inquiries o) l
       (supplementary_auxiliary_examinations o)) p.

(** [m] leaves the observation [proj] of the session as it found it,
    whatever its outcome. *)
Definition keeps {A B} (proj : Session -> A) (m : M B) : Prop :=
  forall s, proj (fst (m s)) = proj s.

(** [m] either leaves the list of completed sections alone or puts [x] at
    its end. *)
Definition may_append {B} (x : string) (m : M B) : Prop :=
  forall s,
    sections_of (state (fst (m s))) = sections_of (state s)
    \/ sections_of (state (fst (m s))) = (sections_of (state s) ++ [x])%list.

(** When [m] returns, it has put the entries [x] at the end of the list of
    completed sections. *)
Definition appends {B} (x : list string) (m : M B) : Prop :=
  forall s s' b,
    m s = (s', Return b) ->
    sections_of (state s') = (sections_of (state s) ++ x)%list.

(** [m] ends (by returning or by raising) whatever the session. *)
Definition total {B} (m : M B) : Prop := forall s, snd (m s) <> Diverge.

(** Whatever [m] returns satisfies [Q]. *)
Definition returns_only {B} (Q : B -> Prop) (m : M B) : Prop :=
  forall s s' b, m s = (s', Return b) -> Q b.

(** ** Scenarios

    Replies and sessions on which the stages are run below. *)

Module Scenario.

Definition complete_reply : string :=
  Ref.js "{'inquiry_analysis': 'clear', 'supplementary_inquiries': [], 'inquiry_complete': 'yes'}".

Definition incomplete_reply : string :=
  Ref.js "{'inquiry_analysis': 'thin', 'supplementary_inquiries': [], 'inquiry_complete': 'no'}".

Definition diagnosis_reply : string :=
  Ref.js "{'diagnosis_conclusion': 'fracture', 'diagnosis_basis': 'x-ray', 'other_diagnosis_possibility': []}".

Definition settled_reply : string :=
  Ref.js "{'further_inquiries_needed': 'No', 'diagnosis_conclusion': 'malunion', 'diagnosis_basis': 'imaging'}".

Definition unchecked_reply : string :=
  Ref.js "{'further_inquiries_needed': 'yes', 'diagnosis_conclusion': 'malunion', 'diagnosis_basis': 'imaging', 'other_diagnosis_possibility': [{'name': 'sprain'}], 'suggested_auxiliary_check': []}".

(** A session in the middle of a run: intake done, nothing else yet. *)
Definition after_intake (console : list string) : Session :=
  mkSession (set_audience_level "professional"
               (set_initial_inquiry intake_record default_PatientState))
            console [] 0 [].

(** The locals of the diagnosis stage when two alternatives are open. *)
Definition two_open : DiagLocals :=
  mkDiagLocals (PStr "fracture") (PStr "x-ray")
    (PList [PDict [(PStr "name", PStr "sprain")];
            PDict [(PStr "name", PStr "bruise")]])
    "name:sprain; name:bruise" (PStr "暂无建议的诊断对话") false.

End Scenario.

(** ** Further vocabulary *)

(** [s] holds a backtick somewhere. *)
Fixpoint has_backtick (s : string) : bool :=
  match s with
  | EmptyString => false
  | String c s' => Ascii.eqb c "`" || has_backtick s'
  end.

(** A reply made of some prose, a fenced block around [content], and some
    more text. *)
Definition fenced_reply (prose : string) (tag : bool) (content rest : string)
  : string :=
  prose ++ Fence.fence ++ (if tag then "json" else "") ++ nl ++ content ++ nl
        ++ Fence.fence ++ rest.

(** The text with the given UTF-8 bytes. *)
Definition utf8 (bytes : list nat) : string :=
  fold_right (fun b s => String (ascii_of_nat b) s) EmptyString bytes.

(** The place of a crew in the order of the stages. *)
Definition rank (c : Crew) : nat :=
  match c with
  | SupervisorLLM => 0
  | DiagnosisCrew => 1
  | PossibilitiesEliminationCrew => 2
  | TreatmentPlanCrew => 3
  | MultiAgentsReportCrew => 4
  end.

(** The numbers of [l] never go down, and start at [lo] or above. *)
Fixpoint ordered_from (lo : nat) (l : list nat) : bool :=
  match l with
  | [] => true
  | a :: l' => (lo <=? a)%nat && ordered_from a l'
  end.

(** The ranks of the crews invoked, in the order of the call log. *)
Definition ranks (l : list Call) : list nat := map (fun c => rank (crew c)) l.

(** [m] only adds to the list of completed sections, whatever its outcome. *)
Definition grows {B} (m : M B) : Prop :=
  forall s, exists x,
    sections_of (state (fst (m s))) = (sections_of (state s) ++ x)%list.

(** [m] only adds to the call log, whatever its outcome: invocations of
    crews of rank [lo] to [hi], in the order of their ranks. *)
Definition emits {B} (lo hi : nat) (m : M B) : Prop :=
  forall s, exists l,
    calls (fst (m s)) = (calls s ++ l)%list
    /\ ordered_from lo (ranks l) = true
    /\ forallb (fun r => (r <=? hi)%nat) (ranks l) = true.

(** The identifiers drawn and the files written so far. *)
Definition io (s : Session) : nat * list (string * string) := (uuids s, files s).

(** When [m] returns, it has written one file, at [path], and drawn no
    identifier. *)
Definition writes_one {B} (path : string) (m : M B) : Prop :=
  forall s s' b,
    m s = (s', Return b) ->
    uuids s' = uuids s /\ exists text, files s' = (path, text) :: files s.

(** [m] never puts lines back on the console. *)
Definition reads {B} (m : M B) : Prop :=
  forall s, (length (stdin (fst (m s))) <= length (stdin s))%nat.

(** When [m] returns, it has read at least one console line. *)
Definition reads_some {B} (m : M B) : Prop :=
  forall s s' b,
    m s = (s', Return b) -> (length (stdin s') < length (stdin s))%nat.

(** When [m] returns, either its result is [done] or it has read at least
    one console line. *)
Definition ends_or_reads {B} (done : B -> bool) (m : M B) : Prop :=
  forall s s' b,
    m s = (s', Return b) ->
    done b = true \/ (length (stdin s') < length (stdin s))%nat.

(** What a dictionary key is compared by: [True] and [1] are one key, a
    list or a dictionary is no key at all. *)
Inductive key_kind : Type :=
| KNone
| KInt (z : Z)
| KStr (s : string)
| KUnhashable.

Definition key_class (k : pyval) : key_kind :=
  match k with
  | PNone => KNone
  | PBool true => KInt 1
  | PBool false => KInt 0
  | PInt z => KInt z
  | PStr s => KStr s
  | PList _ | PDict _ => KUnhashable
  end.

(** The question/answer pairs recorded so far. *)
Definition dialectics_of (p : PatientState) : list pyval :=
  suggested_diagnostic_dialectics (process_outline p).

(** What a pass of the elimination loop leaves for the next one: when [m]
    returns and the loop goes on, the pair handed on is empty and nothing
    was recorded, or it is the one pair just recorded. *)
Definition hands_on (m : M DiagLocals) : Prop :=
  forall s s' b,
    m s = (s', Return b) ->
    ready_to_treatment_plan b = true
    \/ (suggested_dialectics b = PDict []
        /\ dialectics_of (state s') = dialectics_of (state s))
    \/ (exists q ans,
          PyStr.is_empty ans = false
          /\ suggested_dialectics b = PDict [(q, PStr ans)]
          /\ dialectics_of (state s')
             = (dialectics_of (state s) ++ [PDict [(q, PStr ans)]])%list).

(** The reply, once cleaned and decoded, is an object whose
    [inquiry_complete] is ["yes"] in some letter case. *)
Definition says_complete (W : World) (reply : string) : bool :=
  match json_loads W (clean_and_parse_json reply) with
  | Decoded (PDict d) =>
      match Py.dict_get_or d "inquiry_complete" (PStr "") with
      | PStr a => String.eqb (PyStr.lower a) "yes"
      | _ => false
      end
  | _ => false
  end.


(** The answer [line] to [question] can be recorded: it is empty, and then
    nothing is stored, or [question] can be a dictionary key. *)
Definition answerable (question : pyval) (line : string) : bool :=
  PyStr.is_empty line || Py.hashable question.

(** The result [line] of the suggested examination [exam] can be recorded:
    it is empty, or [exam] is an object whose name can be a dictionary key. *)
Definition recordable (exam : pyval) (line : string) : bool :=
  PyStr.is_empty line
  || match exam with
     | PDict e => Py.hashable (Py.dict_get_or e "examination_name" (PStr "无检查项目"))
     | _ => false
     end.

(** * Properties *)

(** ** Facts about whitespace and the fence pattern *)

Section SpaceFacts.
Import PyStr.

Lemma skip_0 s : skip s 0 = s.
Proof. destruct s; reflexivity. Qed.

Lemma skip_length s : forall k, String.length (skip s k) <= String.length s.
Proof.
  induction s as [|c s IH]; intros [|k]; cbn [skip String.length]; try lia.
  specialize (IH k). lia.
Qed.

Lemma skip_app x r : forall k,
  k <= String.length r -> skip (r ++ x) k = skip r k ++ x.
Proof.
  induction r as [|c r IH]; intros [|k] H; cbn [String.length] in H.
  - rewrite !skip_0. reflexivity.
  - lia.
  - reflexivity.
  - cbn [append skip]. apply IH. lia.
Qed.

Lemma ascii_space_low n : ascii_space n = true -> n <= 32.
Proof.
  unfold ascii_space. rewrite orb_true_iff, !andb_true_iff, !Nat.leb_le. lia.
Qed.

Lemma space2_high n m : space2 n m = true -> 128 <= n /\ 128 <= m.
Proof.
  unfold space2. rewrite andb_true_iff, orb_true_iff, !Nat.eqb_eq. lia.
Qed.

Lemma space3_high n m k : space3 n m k = true -> 128 <= n /\ 128 <= m /\ 128 <= k.
Proof.
  unfold space3.
  rewrite !orb_true_iff, !andb_true_iff, !orb_true_iff, !andb_true_iff,
    !Nat.eqb_eq, !Nat.leb_le.
  lia.
Qed.

Lemma space2_low n m : m < 128 -> space2 n m = false.
Proof.
  intros H. destruct (space2 n m) eqn:E; [|reflexivity].
  apply space2_high in E. lia.
Qed.

Lemma space3_low n m k : m < 128 \/ k < 128 -> space3 n m k = false.
Proof.
  intros H. destruct (space3 n m k) eqn:E; [|reflexivity].
  apply space3_high in E. lia.
Qed.

(** The three shapes of a whitespace character. *)
Lemma space_width_view c r k :
  space_width (String c r) = S k ->
  (k = 0 /\ nat_of_ascii c <= 32)
  \/ (exists c2 r2,
        k = 1 /\ r = String c2 r2
        /\ 128 <= nat_of_ascii c /\ 128 <= nat_of_ascii c2)
  \/ (exists c2 c3 r3,
        k = 2 /\ r = String c2 (String c3 r3)
        /\ 128 <= nat_of_ascii c /\ 128 <= nat_of_ascii c2
        /\ 128 <= nat_of_ascii c3).
Proof.
  cbn [space_width].
  destruct (ascii_space (nat_of_ascii c)) eqn:A.
  { intros H. left. apply ascii_space_low in A. split; [congruence | exact A]. }
  destruct r as [|c2 r2]; [discriminate|].
  destruct (space2 (nat_of_ascii c) (nat_of_ascii c2)) eqn:B.
  { intros H. right. left. apply space2_high in B. exists c2, r2.
    split; [congruence|]. split; [reflexivity | exact B]. }
  destruct r2 as [|c3 r3]; [discriminate|].
  destruct (space3 (nat_of_ascii c) (nat_of_ascii c2) (nat_of_ascii c3)) eqn:C;
    [|discriminate].
  intros H. right. right. apply space3_high in C. exists c2, c3, r3.
  split; [congruence|]. split; [reflexivity | exact C].
Qed.

Lemma space_width_fits c r k :
  space_width (String c r) = S k -> k <= String.length r.
Proof.
  intros H. destruct (space_width_view _ _ _ H)
    as [[K _]|[(c2 & r2 & K & R & _)|(c2 & c3 & r3 & K & R & _)]];
    subst; cbn [String.length]; lia.
Qed.

Lemma space_width_app c r k x :
  space_width (String c r) = S k -> space_width (String c r ++ x) = S k.
Proof.
  destruct r as [|c2 [|c3 r3]]; cbn [append space_width];
    destruct (ascii_space (nat_of_ascii c)); try (intros H; exact H);
    try discriminate.
  destruct (space2 (nat_of_ascii c) (nat_of_ascii c2));
    [intros H; exact H | discriminate].
Qed.

(** A character that is no whitespace does not become one when an ASCII
    character follows. *)
Lemma space_width_app0 c d a y :
  space_width (String c d) = 0 -> nat_of_ascii a < 128 ->
  space_width (String c d ++ String a y) = 0.
Proof.
  intros H L.
  destruct d as [|c2 [|c3 d']]; cbn [append space_width] in *;
    destruct (ascii_space (nat_of_ascii c)); try discriminate.
  - rewrite space2_low by exact L.
    destruct y; [reflexivity|]. rewrite space3_low by (left; exact L). reflexivity.
  - destruct (space2 (nat_of_ascii c) (nat_of_ascii c2)); [discriminate|].
    rewrite space3_low by (right; exact L). reflexivity.
  - exact H.
Qed.

Lemma backtick_code c : Ascii.eqb "`" c = true -> nat_of_ascii c = 96.
Proof. intros H. apply Ascii.eqb_eq in H. subst c. reflexivity. Qed.

Lemma startswith_fence_head c r :
  nat_of_ascii c <> 96 -> startswith Fence.fence (String c r) = false.
Proof.
  intros H. cbn [startswith Fence.fence].
  destruct (Ascii.eqb "`" c) eqn:E; [|reflexivity].
  apply backtick_code in E. contradiction.
Qed.

Lemma space_not_backtick c r k :
  space_width (String c r) = S k -> startswith Fence.fence (String c r) = false.
Proof.
  intros H. apply startswith_fence_head.
  destruct (space_width_view _ _ _ H)
    as [[_ L]|[(c2 & r2 & _ & _ & L & _)|(c2 & c3 & r3 & _ & _ & L & _)]]; lia.
Qed.

(** Induction along the whitespace characters at the head of a text. *)
Lemma space_ind (P : string -> Prop) :
  (forall s, space_width s = 0 -> P s) ->
  (forall c r k, space_width (String c r) = S k -> P (skip r k) -> P (String c r)) ->
  forall s, P s.
Proof.
  intros H0 HS s.
  remember (String.length s) as n eqn:En.
  revert s En. induction n as [n IH] using lt_wf_ind. intros s En.
  destruct (space_width s) as [|k] eqn:E; [apply H0; exact E|].
  destruct s as [|c r]; [discriminate E|].
  apply (HS c r k E).
  apply (IH (String.length (skip r k))); [|reflexivity].
  subst n. cbn [String.length]. pose proof (skip_length r k). lia.
Qed.

Lemma lstrip_space c r k :
  space_width (String c r) = S k -> lstrip (String c r) = lstrip (skip r k).
Proof. intros H. cbn [lstrip]. rewrite H. reflexivity. Qed.

Lemma lstrip_nospace s : space_width s = 0 -> lstrip s = s.
Proof. intros H. destruct s; cbn [lstrip]; [|rewrite H]; reflexivity. Qed.

Lemma all_space_space c r k :
  space_width (String c r) = S k -> all_space (String c r) = all_space (skip r k).
Proof. intros H. cbn [all_space]. rewrite H. reflexivity. Qed.

Lemma all_space_nospace s :
  space_width s = 0 -> all_space s = true -> s = EmptyString.
Proof.
  intros H. destruct s; [reflexivity|]. cbn [all_space]. rewrite H. discriminate.
Qed.

Lemma lstrip_width s : space_width (lstrip s) = 0.
Proof.
  induction s as [s H|c r k H IH] using space_ind.
  - rewrite lstrip_nospace by exact H. exact H.
  - rewrite (lstrip_space _ _ _ H). exact IH.
Qed.

Lemma lstrip_head s : lstrip (lstrip s) = lstrip s.
Proof. apply lstrip_nospace, lstrip_width. Qed.

Lemma all_space_app a b :
  all_space a = true -> all_space b = true -> all_space (a ++ b) = true.
Proof.
  intros Ha Hb. induction a as [a H|c r k H IH] using space_ind.
  - rewrite (all_space_nospace _ H Ha). exact Hb.
  - rewrite (all_space_space _ _ _ H) in Ha.
    change (String c r ++ b) with (String c (r ++ b)).
    rewrite (all_space_space c (r ++ b) k) by exact (space_width_app _ _ _ b H).
    rewrite skip_app by exact (space_width_fits _ _ _ H).
    apply IH. exact Ha.
Qed.

(** What [rstrip] removes is whitespace. *)
Lemma rstrip_split s : exists t, s = rstrip s ++ t /\ all_space t = true.
Proof.
  induction s as [|c s (t & E & A)].
  - exists EmptyString. split; reflexivity.
  - cbn [rstrip]. destruct (all_space (String c s)) eqn:F.
    + exists (String c s). split; [reflexivity | exact F].
    + exists t. split; [cbn [append]; rewrite <- E; reflexivity | exact A].
Qed.

Lemma rstrip_idem s : rstrip (rstrip s) = rstrip s.
Proof.
  induction s as [|c s IH]; [reflexivity|].
  cbn [rstrip]. destruct (all_space (String c s)) eqn:E; [reflexivity|].
  cbn [rstrip]. rewrite IH.
  destruct (all_space (String c (rstrip s))) eqn:E2; [|reflexivity].
  exfalso. destruct (rstrip_split s) as (t & Es & At).
  pose proof (all_space_app _ _ E2 At) as A.
  cbn [append] in A. rewrite <- Es in A. congruence.
Qed.

(** A prefix of a text that begins with no whitespace begins with none. *)
Lemma prefix_width g t : space_width (g ++ t) = 0 -> g <> EmptyString -> space_width g = 0.
Proof.
  intros H N. destruct g as [|c g]; [contradiction|].
  destruct (space_width (String c g)) eqn:E; [reflexivity|].
  rewrite (space_width_app _ _ _ t E) in H. discriminate.
Qed.

Lemma rstrip_keeps_head s : space_width s = 0 -> space_width (rstrip s) = 0.
Proof.
  intros H. destruct (rstrip_split s) as (t & E & _).
  destruct (rstrip s) as [|c g] eqn:R; [reflexivity|].
  rewrite E in H. apply (prefix_width _ t H). discriminate.
Qed.

Lemma strip_idem s : strip (strip s) = strip s.
Proof.
  unfold strip.
  rewrite (lstrip_nospace (rstrip (lstrip s)))
    by (apply rstrip_keeps_head, lstrip_width).
  apply rstrip_idem.
Qed.

End SpaceFacts.

Section FenceFacts.
Import PyStr Fence.

Lemma is_empty_true (s : string) : is_empty s = true -> s = EmptyString.
Proof. destruct s; simpl; congruence. Qed.

Lemma has_fence_tail c d : has_fence (String c d) = false -> has_fence d = false.
Proof.
  cbn [has_fence]. intros H. apply orb_false_iff in H. tauto.
Qed.

Lemma has_fence_head d : has_fence d = false -> startswith fence d = false.
Proof.
  destruct d; cbn [has_fence]; intros H; apply orb_false_iff in H; tauto.
Qed.

Lemma has_fence_skip s : forall k, has_fence s = false -> has_fence (skip s k) = false.
Proof.
  induction s as [|c s IH]; intros [|k] H; cbn [skip]; try exact H.
  apply IH. exact (has_fence_tail _ _ H).
Qed.

(** No byte of a whitespace character begins a fence. *)
Lemma has_fence_space c r k :
  space_width (String c r) = S k -> has_fence (String c r) = has_fence (skip r k).
Proof.
  intros H. pose proof (space_not_backtick _ _ _ H) as B.
  destruct (space_width_view _ _ _ H)
    as [[K _]|[(c2 & r2 & K & R & _ & L2)|(c2 & c3 & r3 & K & R & _ & L2 & L3)]];
    subst; cbn [has_fence skip]; rewrite ?skip_0.
  - change (has_fence (String c r)) with (startswith fence (String c r) || has_fence r).
    rewrite B. reflexivity.
  - change (has_fence (String c (String c2 r2)))
      with (startswith fence (String c (String c2 r2))
            || (startswith fence (String c2 r2) || has_fence r2)).
    rewrite B, startswith_fence_head by lia. reflexivity.
  - change (has_fence (String c (String c2 (String c3 r3))))
      with (startswith fence (String c (String c2 (String c3 r3)))
            || (startswith fence (String c2 (String c3 r3))
                || (startswith fence (String c3 r3) || has_fence r3))).
    rewrite B, !startswith_fence_head by lia. reflexivity.
Qed.

Lemma has_fence_lstrip_eq s : has_fence (lstrip s) = has_fence s.
Proof.
  induction s as [s H|c r k H IH] using space_ind.
  - rewrite lstrip_nospace by exact H. reflexivity.
  - rewrite (lstrip_space _ _ _ H), IH. symmetry. exact (has_fence_space _ _ _ H).
Qed.

Lemma ws_fence_eq r :
  ws_fence r
  = startswith fence r
    || match r with
       | String _ r' =>
           match space_width r with
           | S k => ws_fence (skip r' k)
           | O => false
           end
       | EmptyString => false
       end.
Proof. destruct r; reflexivity. Qed.

Lemma ws_fence_space c r k :
  space_width (String c r) = S k -> ws_fence (String c r) = ws_fence (skip r k).
Proof.
  intros H. rewrite ws_fence_eq, H, (space_not_backtick _ _ _ H). reflexivity.
Qed.

Lemma ws_fence_nospace s : space_width s = 0 -> ws_fence s = startswith fence s.
Proof.
  intros H. rewrite ws_fence_eq. destruct s; [|rewrite H]; apply orb_false_r.
Qed.

(** The closing part of the pattern matches only where a fence follows. *)
Lemma ws_fence_has_fence s : ws_fence s = true -> has_fence s = true.
Proof.
  induction s as [s H|c r k H IH] using space_ind.
  - rewrite ws_fence_nospace by exact H. intros F.
    destruct s; cbn [has_fence]; rewrite F; reflexivity.
  - rewrite (ws_fence_space _ _ _ H), (has_fence_space _ _ _ H). exact IH.
Qed.

(** The lazy group fails exactly on the texts that hold no fence. *)
Lemma lazy_group_none t : lazy_group t = None <-> has_fence t = false.
Proof.
  induction t as [|c t IH].
  - split; reflexivity.
  - cbn [lazy_group]. destruct (ws_fence (String c t)) eqn:E.
    + rewrite (ws_fence_has_fence _ E). split; discriminate.
    + rewrite ws_fence_eq in E. apply orb_false_iff in E. destruct E as [E _].
      cbn [has_fence]. rewrite E. cbn [orb]. rewrite <- IH.
      destruct (lazy_group t); cbn [option_map]; split; congruence.
Qed.

(** The greedy whitespace before the group never has to give anything
    back: what the group can match after less whitespace it can match after
    all of it. *)
Lemma ws_then_lazy_group r : ws_then lazy_group r = lazy_group (lstrip r).
Proof.
  induction r as [s H|c r k H IH] using space_ind.
  - rewrite lstrip_nospace by exact H. destruct s; cbn [ws_then]; [|rewrite H]; reflexivity.
  - cbn [ws_then]. rewrite H, IH, (lstrip_space _ _ _ H).
    destruct (lazy_group (lstrip (skip r k))) eqn:E; [reflexivity|].
    apply (proj2 (lazy_group_none _)). apply (proj1 (lazy_group_none _)) in E.
    rewrite has_fence_lstrip_eq in E. rewrite (has_fence_space _ _ _ H). exact E.
Qed.

(** Whitespace before the closing part is skipped. *)
Lemma ws_fence_app d x : all_space d = true -> ws_fence (d ++ x) = ws_fence x.
Proof.
  intros A. induction d as [d H|c r k H IH] using space_ind.
  - rewrite (all_space_nospace _ H A). reflexivity.
  - rewrite (all_space_space _ _ _ H) in A.
    change (String c r ++ x) with (String c (r ++ x)).
    rewrite (ws_fence_space c (r ++ x) k) by exact (space_width_app _ _ _ x H).
    rewrite skip_app by exact (space_width_fits _ _ _ H).
    apply IH. exact A.
Qed.

(** A text without a fence does not begin one when a newline follows it. *)
Lemma no_fence_before_nl c d x :
  has_fence (String c d) = false ->
  startswith fence (String c d ++ nl ++ x) = false.
Proof.
  intros H. apply has_fence_head in H. revert H.
  destruct d as [|c2 [|c3 d]]; cbn;
    repeat match goal with
           | |- context [Ascii.eqb ?a ?b] => destruct (Ascii.eqb a b); cbn
           end; congruence.
Qed.

Lemma all_space_width0 c d : space_width (String c d) = 0 -> all_space (String c d) = false.
Proof. intros H. cbn [all_space]. rewrite H. reflexivity. Qed.

Lemma ws_fence_tail d rest :
  has_fence d = false ->
  ws_fence (d ++ nl ++ fence ++ rest) = all_space d.
Proof.
  induction d as [d H|c r k H IH] using space_ind; intros F.
  - destruct d as [|c d]; [reflexivity|].
    rewrite ws_fence_nospace
      by (apply space_width_app0; [exact H | cbn; lia]).
    rewrite (no_fence_before_nl _ _ _ F), (all_space_width0 _ _ H). reflexivity.
  - change (String c r ++ nl ++ fence ++ rest)
      with (String c (r ++ nl ++ fence ++ rest)).
    rewrite (ws_fence_space c (r ++ nl ++ fence ++ rest) k)
      by exact (space_width_app _ _ _ _ H).
    rewrite skip_app by exact (space_width_fits _ _ _ H).
    rewrite (all_space_space _ _ _ H).
    apply IH. apply has_fence_skip. exact (has_fence_tail _ _ F).
Qed.

Lemma lazy_group_tail d rest :
  has_fence d = false ->
  lazy_group (d ++ nl ++ fence ++ rest) = Some (rstrip d).
Proof.
  induction d as [|c d IH]; intros H; [reflexivity|].
  change (lazy_group (String c d ++ nl ++ fence ++ rest))
    with (if ws_fence (String c d ++ nl ++ fence ++ rest) then Some EmptyString
          else option_map (String c) (lazy_group (d ++ nl ++ fence ++ rest))).
  rewrite (ws_fence_tail _ _ H), (IH (has_fence_tail _ _ H)).
  cbn [rstrip]. destruct (all_space (String c d)); reflexivity.
Qed.

Lemma lazy_group_lstrip c rest :
  has_fence c = false ->
  lazy_group (lstrip (c ++ nl ++ fence ++ rest)) = Some (strip c).
Proof.
  unfold strip.
  induction c as [c H|a r k H IH] using space_ind; intros F.
  - destruct c as [|a c]; [reflexivity|].
    rewrite (lstrip_nospace (String a c ++ _))
      by (apply space_width_app0; [exact H | cbn; lia]).
    rewrite (lstrip_nospace _ H). apply lazy_group_tail. exact F.
  - change (String a r ++ nl ++ fence ++ rest)
      with (String a (r ++ nl ++ fence ++ rest)).
    rewrite (lstrip_space a (r ++ nl ++ fence ++ rest) k)
      by exact (space_width_app _ _ _ _ H).
    rewrite skip_app by exact (space_width_fits _ _ _ H).
    rewrite (lstrip_space _ _ _ H).
    apply IH. apply has_fence_skip. exact (has_fence_tail _ _ F).
Qed.

Lemma lstrip_nl x : lstrip (nl ++ x) = lstrip x.
Proof.
  change (nl ++ x) with (String (ascii_of_nat 10) x).
  rewrite (lstrip_space _ x 0) by reflexivity. rewrite skip_0. reflexivity.
Qed.

Lemma match_at_block (tag : bool) (c rest : string) :
  has_fence c = false ->
  match_at (fence ++ (if tag then "json" else "") ++ nl ++ c ++ nl ++ fence ++ rest)
  = Some (strip c).
Proof.
  intros H.
  assert (G : ws_then lazy_group (nl ++ c ++ nl ++ fence ++ rest) = Some (strip c)).
  { rewrite ws_then_lazy_group, lstrip_nl. apply lazy_group_lstrip. exact H. }
  destruct tag; unfold match_at.
  - change (drop_prefix fence (fence ++ "json" ++ nl ++ c ++ nl ++ fence ++ rest))
      with (Some ("json" ++ nl ++ c ++ nl ++ fence ++ rest)).
    cbv iota beta.
    change (drop_prefix "json" ("json" ++ nl ++ c ++ nl ++ fence ++ rest))
      with (Some (nl ++ c ++ nl ++ fence ++ rest)).
    cbv iota beta. rewrite G. reflexivity.
  - change (drop_prefix fence (fence ++ "" ++ nl ++ c ++ nl ++ fence ++ rest))
      with (Some (nl ++ c ++ nl ++ fence ++ rest)).
    cbv iota beta.
    change (drop_prefix "json" (nl ++ c ++ nl ++ fence ++ rest)) with (@None string).
    cbv iota beta. exact G.
Qed.

Lemma drop_prefix_none p s : startswith p s = false -> drop_prefix p s = None.
Proof.
  revert s. induction p as [|a p IH]; intros [|b s]; cbn; try congruence.
  destruct (Ascii.eqb a b); cbn; auto.
Qed.

Lemma search_no_fence c : has_fence c = false -> search c = None.
Proof.
  induction c as [|a c IH]; intros H; [reflexivity|].
  cbn [search]. unfold match_at.
  rewrite (drop_prefix_none _ _ (has_fence_head _ H)).
  apply IH. exact (has_fence_tail _ _ H).
Qed.

Lemma search_match_at s g : match_at s = Some g -> search s = Some g.
Proof. intros H. destruct s; cbn [search]; rewrite H; reflexivity. Qed.

(** The pattern cannot start inside a text without backticks. *)
Lemma search_skips_prose x : forall prose,
  has_backtick prose = false -> search (prose ++ x) = search x.
Proof.
  induction prose as [|c prose IH]; intros H; [reflexivity|].
  cbn [has_backtick] in H. apply orb_false_iff in H. destruct H as [Hc Hp].
  change (String c prose ++ x) with (String c (prose ++ x)).
  cbn [search]. unfold match_at. cbn [drop_prefix fence].
  rewrite Ascii.eqb_sym, Hc. exact (IH Hp).
Qed.

(** Where a byte continues a character (128..191), no whitespace
    character begins, the pattern cannot start and its closing part cannot
    match: a match starts, and the lazy group ends, between two characters. *)
Lemma inside_a_character c r :
  128 <= nat_of_ascii c <= 191 ->
  space_width (String c r) = 0
  /\ match_at (String c r) = None
  /\ ws_fence (String c r) = false.
Proof.
  intros L.
  assert (E : space_width (String c r) = 0).
  { cbn [space_width].
    destruct (ascii_space (nat_of_ascii c)) eqn:A;
      [apply ascii_space_low in A; lia|].
    destruct r as [|c2 r2]; [reflexivity|].
    destruct (space2 (nat_of_ascii c) (nat_of_ascii c2)) eqn:B.
    { unfold space2 in B. rewrite andb_true_iff, Nat.eqb_eq in B. lia. }
    destruct r2 as [|c3 r3]; [reflexivity|].
    destruct (space3 (nat_of_ascii c) (nat_of_ascii c2) (nat_of_ascii c3)) eqn:C;
      [|reflexivity].
    unfold space3 in C.
    rewrite !orb_true_iff, !andb_true_iff, !Nat.eqb_eq in C. lia. }
  split; [exact E|]. split.
  - unfold match_at. rewrite drop_prefix_none; [reflexivity|].
    apply startswith_fence_head. lia.
  - rewrite ws_fence_nospace by exact E. apply startswith_fence_head. lia.
Qed.

Lemma lazy_group_prefix r : forall g,
  lazy_group r = Some g -> exists rest, r = g ++ rest /\ ws_fence rest = true.
Proof.
  induction r as [|c r IH]; intros g; cbn [lazy_group].
  - destruct (ws_fence EmptyString) eqn:E; [|discriminate].
    intros H. inversion H. exists EmptyString. split; [reflexivity|exact E].
  - destruct (ws_fence (String c r)) eqn:E.
    + intros H. inversion H. exists (String c r). split; [reflexivity|exact E].
    + destruct (lazy_group r) as [g'|]; [|discriminate].
      intros H. inversion H. destruct (IH g' eq_refl) as (rest & E1 & E2).
      exists rest. split; [cbn; rewrite <- E1; reflexivity | exact E2].
Qed.

Lemma lazy_group_rstrip r : forall g, lazy_group r = Some g -> rstrip g = g.
Proof.
  induction r as [|c r IH]; intros g; cbn [lazy_group].
  - destruct (ws_fence EmptyString); [|discriminate].
    intros H. inversion H. reflexivity.
  - destruct (ws_fence (String c r)) eqn:E.
    + intros H. inversion H. reflexivity.
    + destruct (lazy_group r) as [g'|] eqn:G; [|discriminate].
      intros H. inversion H. cbn [rstrip]. rewrite (IH g' eq_refl).
      destruct (all_space (String c g')) eqn:A; [|reflexivity].
      exfalso. destruct (lazy_group_prefix _ _ G) as (rest & E1 & E2).
      pose proof (ws_fence_app _ rest A) as F.
      cbn [append] in F. rewrite <- E1, E2 in F. congruence.
Qed.

Lemma lazy_group_head r g :
  space_width r = 0 -> lazy_group r = Some g -> space_width g = 0.
Proof.
  intros Hr H. destruct (lazy_group_prefix _ _ H) as (rest & E & _).
  destruct g as [|c g]; [reflexivity|].
  rewrite E in Hr. apply (prefix_width _ rest Hr). discriminate.
Qed.

Lemma match_at_group s g :
  match_at s = Some g ->
  exists r, lazy_group (lstrip r) = Some g.
Proof.
  unfold match_at. destruct (drop_prefix fence s) as [r1|]; [|discriminate].
  destruct (drop_prefix "json" r1) as [r2|].
  - rewrite !ws_then_lazy_group.
    destruct (lazy_group (lstrip r2)) eqn:E.
    + intros H. inversion H. subst. exists r2. exact E.
    + intros H. exists r1. exact H.
  - rewrite ws_then_lazy_group. intros H. exists r1. exact H.
Qed.

Lemma search_group s : forall g,
  search s = Some g -> exists r, lazy_group (lstrip r) = Some g.
Proof.
  induction s as [|c s IH]; intros g; cbn [search].
  - destruct (match_at EmptyString) eqn:E; [|discriminate].
    intros H. inversion H. subst. exact (match_at_group _ _ E).
  - destruct (match_at (String c s)) eqn:E.
    + intros H. inversion H. subst. exact (match_at_group _ _ E).
    + apply IH.
Qed.

Lemma startswith_app p : forall g rest,
  startswith p g = true -> startswith p (g ++ rest) = true.
Proof.
  induction p as [|a p IH]; intros [|b g] rest; cbn; try congruence.
  destruct (Ascii.eqb a b); cbn; [apply IH | congruence].
Qed.

Lemma lazy_group_no_fence r : forall g, lazy_group r = Some g -> has_fence g = false.
Proof.
  induction r as [|c r IH]; intros g; cbn [lazy_group].
  - destruct (ws_fence EmptyString); [|discriminate].
    intros H. inversion H. reflexivity.
  - destruct (ws_fence (String c r)) eqn:E.
    + intros H. inversion H. reflexivity.
    + destruct (lazy_group r) as [g'|] eqn:G; [|discriminate].
      intros H. inversion H. cbn [has_fence]. rewrite (IH g' eq_refl).
      rewrite orb_false_r.
      destruct (startswith fence (String c g')) eqn:S; [|reflexivity].
      exfalso. destruct (lazy_group_prefix _ _ G) as (rest & E1 & _).
      rewrite ws_fence_eq in E. apply orb_false_iff in E. destruct E as [E _].
      rewrite E1 in E.
      change (String c (g' ++ rest)) with (String c g' ++ rest) in E.
      rewrite (startswith_app _ _ _ S) in E. discriminate.
Qed.

End FenceFacts.

(** C6, as the specification states it, fails: a content that itself holds
    three backticks (here inside what would be a JSON string) is cut at
    them once it is wrapped, while the bare content has no closing marker
    and is only stripped. *)
Lemma fence_roundtrip_counterexample :
  clean_and_parse_json (fence_wrap true "{a: ```}") = "{a:"
  /\ clean_and_parse_json "{a: ```}" = "{a: ```}"
  /\ clean_and_parse_json (fence_wrap true "{a: ```}")
     <> clean_and_parse_json "{a: ```}".
Proof. repeat split; try reflexivity. cbv. discriminate. Qed.

(** C6 (amended): for every content without three backticks in a row,
    wrapping it in a fence (with or without the [json] tag) and then
    stripping gives what stripping the bare content gives, namely the
    content without the whitespace characters, ASCII or not, at its ends. *)
Theorem fence_roundtrip (tag : bool) (content : string) :
  has_fence content = false ->
  clean_and_parse_json (fence_wrap tag content) = clean_and_parse_json content
  /\ clean_and_parse_json content = PyStr.strip content.
Proof.
  intros H. unfold clean_and_parse_json.
  rewrite (search_no_fence _ H).
  assert (G : Fence.search (fence_wrap tag content) = Some (PyStr.strip content)).
  { apply search_match_at. exact (match_at_block tag content "" H). }
  rewrite G. split; reflexivity.
Qed.

Lemma fence_roundtrip_witness :
  let content := utf8 [227; 128; 128] ++ " {a: 1}" ++ utf8 [194; 160; 10] in
  has_fence content = false
  /\ clean_and_parse_json (fence_wrap true content) = "{a: 1}"
  /\ clean_and_parse_json content = "{a: 1}".
Proof.
  intros content. split; [reflexivity|].
  destruct (fence_roundtrip true content eq_refl) as [H1 H2].
  rewrite H1, H2. split; reflexivity.
Defined.

(** X1: the text [clean_and_parse_json] returns never has a whitespace
    character at either end, whatever the response: stripping it again
    changes nothing. *)
Theorem clean_is_stripped (response : string) :
  PyStr.strip (clean_and_parse_json response) = clean_and_parse_json response.
Proof.
  unfold clean_and_parse_json.
  destruct (Fence.search response) as [g|] eqn:E; [|apply strip_idem].
  destruct (search_group _ _ E) as [r G].
  unfold PyStr.strip.
  rewrite (lstrip_nospace g) by exact (lazy_group_head _ _ (lstrip_width r) G).
  exact (lazy_group_rstrip _ _ G).
Qed.

(** X2: when the pattern finds a fenced block in the response, the text
    returned holds no fence marker. *)
Theorem clean_block_has_no_fence (response : string) :
  Fence.search response <> None ->
  has_fence (clean_and_parse_json response) = false.
Proof.
  intros N. unfold clean_and_parse_json.
  destruct (Fence.search response) as [g|] eqn:E; [|contradiction].
  destruct (search_group _ _ E) as [r G].
  exact (lazy_group_no_fence _ _ G).
Qed.

Lemma clean_block_has_no_fence_witness :
  Fence.search "see ```json {1} ``` and ``` {2} ```" <> None
  /\ clean_and_parse_json "see ```json {1} ``` and ``` {2} ```" = "{1}"
  /\ has_fence (clean_and_parse_json "see ```json {1} ``` and ``` {2} ```") = false.
Proof.
  assert (N : Fence.search "see ```json {1} ``` and ``` {2} ```" <> None)
    by (vm_compute; discriminate).
  split; [exact N|]. split; [reflexivity|].
  exact (clean_block_has_no_fence "see ```json {1} ``` and ``` {2} ```" N).
Defined.

(** X16: a reply made of prose without backticks, then a fenced block (with
    or without the [json] tag) around a content without three backticks in
    a row, then anything at all, is cleaned to the content of that block
    without the whitespace characters at its ends: the prose before the
    block and everything after its closing marker, further blocks included,
    are dropped. *)
Theorem clean_finds_block_in_prose (prose : string) (tag : bool)
    (content rest : string) :
  has_backtick prose = false ->
  has_fence content = false ->
  clean_and_parse_json (fenced_reply prose tag content rest) = PyStr.strip content.
Proof.
  intros Hp Hc. unfold clean_and_parse_json, fenced_reply.
  rewrite (search_skips_prose _ _ Hp).
  assert (G : Fence.search
                (Fence.fence ++ (if tag then "json" else "") ++ nl ++ content
                 ++ nl ++ Fence.fence ++ rest) = Some (PyStr.strip content)).
  { apply search_match_at. apply match_at_block. exact Hc. }
  rewrite G. reflexivity.
Qed.

Lemma clean_finds_block_in_prose_witness :
  let content := utf8 [227; 128; 128] ++ "{1}" ++ utf8 [226; 128; 137] in
  has_backtick "Here is the plan: " = false
  /\ has_fence content = false
  /\ clean_and_parse_json
       (fenced_reply "Here is the plan: " true content " and ``` {2} ```")
     = "{1}".
Proof.
  intros content.
  split; [reflexivity|]. split; [reflexivity|].
  rewrite (clean_finds_block_in_prose "Here is the plan: " true content
             " and ``` {2} ```" eq_refl eq_refl).
  reflexivity.
Defined.

(** ** Reasoning about the stages *)

Section FlowFacts.

Variable W : World.

Local Open Scope list_scope.

Lemma keeps_bind {A B C} (proj : Session -> A) (m : M B) (k : B -> M C) :
  keeps proj m -> (forall b, keeps proj (k b)) -> keeps proj (bind m k).
Proof.
  intros Hm Hk s. unfold bind. specialize (Hm s).
  destruct (m s) as [s1 [b|e|]]; cbn in *; [|assumption|assumption].
  rewrite Hk. assumption.
Qed.

Lemma keeps_for_each {A B} (proj : Session -> A) (l : list B) (f : B -> M unit) :
  (forall x, keeps proj (f x)) -> keeps proj (for_each l f).
Proof.
  intros Hf. induction l as [|x l IH]; cbn [for_each].
  - intros s. reflexivity.
  - apply keeps_bind; auto.
Qed.

Lemma keeps_lift {A B} (proj : Session -> A) (r : outcome B) : keeps proj (lift r).
Proof. intros s. reflexivity. Qed.

Lemma keeps_ret {A B} (proj : Session -> A) (b : B) : keeps proj (ret b).
Proof. intros s. reflexivity. Qed.

Lemma keeps_raise {A B} (proj : Session -> A) (e : exn) : keeps proj (@raise B e).
Proof. intros s. reflexivity. Qed.

Lemma keeps_diverge {A B} (proj : Session -> A) : keeps proj (@diverge B).
Proof. intros s. reflexivity. Qed.

Lemma keeps_get_state {A} (proj : Session -> A) : keeps proj get_state.
Proof. intros s. reflexivity. Qed.

Lemma keeps_loads_or {A} (proj : Session -> A) e text :
  keeps proj (loads_or W e text).
Proof.
  intros s. unfold loads_or. destruct (json_loads W text) as [v|[]]; reflexivity.
Qed.

(** Observations of the flow state alone are blind to the console, the
    call log, the identifiers and the files. *)
Lemma keeps_input {A} (f : PatientState -> A) : keeps (fun s => f (state s)) input.
Proof. intros s. unfold input. destruct (stdin s); reflexivity. Qed.

Lemma keeps_kickoff_crew {A} (f : PatientState -> A) c ins :
  keeps (fun s => f (state s)) (kickoff_crew W c ins).
Proof. intros s. reflexivity. Qed.

Lemma keeps_new_uuid {A} (f : PatientState -> A) :
  keeps (fun s => f (state s)) (new_uuid W).
Proof. intros s. reflexivity. Qed.

Lemma keeps_write_file {A} (f : PatientState -> A) path text :
  keeps (fun s => f (state s)) (write_file W path text).
Proof. intros s. unfold write_file. destruct (can_open W path); reflexivity. Qed.

Lemma keeps_modify_state {A} (f : PatientState -> A) g :
  (forall p, f (g p) = f p) -> keeps (fun s => f (state s)) (modify_state g).
Proof. intros H s. cbn. apply H. Qed.

(** The call log is blind to everything but agent invocations. *)
Lemma calls_input : keeps calls input.
Proof. intros s. unfold input. destruct (stdin s); reflexivity. Qed.

Lemma calls_modify_state g : keeps calls (modify_state g).
Proof. intros s. reflexivity. Qed.

Lemma calls_new_uuid : keeps calls (new_uuid W).
Proof. intros s. reflexivity. Qed.

Lemma calls_write_file path text : keeps calls (write_file W path text).
Proof. intros s. unfold write_file. destruct (can_open W path); reflexivity. Qed.

(** Walks down a computation, one construct at a time. *)
Ltac keeps_generic :=
  first
    [ apply keeps_lift | apply keeps_ret | apply keeps_raise
    | apply keeps_diverge | apply keeps_get_state | apply keeps_loads_or
    | match goal with
      | |- keeps _ (bind _ _) => apply keeps_bind; [|intros]
      | |- keeps _ (for_each _ _) => apply keeps_for_each; intros
      | |- keeps _ (when ?c _) => unfold when; destruct c
      | |- keeps _ (if ?c then _ else _) => destruct c
      | |- keeps _ (match ?x with _ => _ end) => destruct x
      end ].

(** For an observation [f] of the flow state. *)
Ltac state_keeps f :=
  repeat first
    [ apply (keeps_input f) | apply (keeps_kickoff_crew f)
    | apply (keeps_new_uuid f) | apply (keeps_write_file f)
    | apply (keeps_modify_state f); intros; reflexivity
    | keeps_generic ].

(** For the call log. *)
Ltac calls_keeps :=
  repeat first
    [ apply calls_input | apply calls_modify_state | apply calls_new_uuid
    | apply calls_write_file | keeps_generic ].

(** *** The audience level after intake *)

Lemma audience_loop_sets fuel s :
  audience_loop (S fuel) s
  = (mkSession (set_audience_level "professional" (state s))
               (stdin s) (calls s) (uuids s) (files s), Return tt).
Proof. reflexivity. Qed.

Lemma inquiry_body_audience p : keeps (fun s => audience_level (state s)) (inquiry_body W p).
Proof.
  unfold inquiry_body, checked_loads, record_inquiry.
  state_keeps audience_level.
Qed.

Lemma inquiry_assistance_audience fuel p :
  keeps (fun s => audience_level (state s)) (inquiry_assistance W fuel p).
Proof.
  unfold inquiry_assistance.
  assert (L : forall n, keeps (fun s => audience_level (state s))
                              (inquiry_loop W fuel p n)).
  { induction fuel as [|fuel IH]; intros n; cbn [inquiry_loop];
      state_keeps audience_level.
    - apply inquiry_body_audience.
    - apply IH. }
  state_keeps audience_level. apply L.
Qed.

Lemma elimination_body_audience a loc :
  keeps (fun s => audience_level (state s)) (elimination_body W a loc).
Proof.
  unfold elimination_body, show_each, record_examination, single_dict.
  state_keeps audience_level.
Qed.

Lemma elimination_loop_audience fuel a loc :
  keeps (fun s => audience_level (state s)) (elimination_loop W fuel a loc).
Proof.
  revert loc. induction fuel as [|fuel IH]; intros loc; cbn [elimination_loop];
    state_keeps audience_level.
  - apply elimination_body_audience.
  - apply IH.
Qed.

Lemma diagnosis_assistance_audience fuel p :
  keeps (fun s => audience_level (state s)) (diagnosis_assistance W fuel p).
Proof.
  unfold diagnosis_assistance, conclude_diagnosis, diagnosis_settle,
    diagnosis_consult, show_each, record_examination, single_dict.
  state_keeps audience_level.
  apply elimination_loop_audience.
Qed.

Lemma treatment_plan_creation_audience p :
  keeps (fun s => audience_level (state s)) (treatment_plan_creation W p).
Proof.
  unfold treatment_plan_creation, update_treatment_plan.
  state_keeps audience_level.
Qed.

Lemma multiagents_report_audience p :
  keeps (fun s => audience_level (state s)) (multiagents_report W p).
Proof.
  unfold multiagents_report. state_keeps audience_level.
Qed.

(** *** The list of completed sections *)

Local Abbreviation sec := (fun s : Session => sections_of (state s)).

Lemma bind_return_inv {A B} (m : M A) (k : A -> M B) s s' b :
  bind m k s = (s', Return b) ->
  exists s1 a, m s = (s1, Return a) /\ k a s1 = (s', Return b).
Proof.
  unfold bind. destruct (m s) as [s1 [a|e|]]; intros H; try discriminate.
  exists s1, a. split; [reflexivity|exact H].
Qed.

Lemma may_append_bind {A B} x (m : M A) (k : A -> M B) :
  keeps sec m -> (forall a, may_append x (k a)) -> may_append x (bind m k).
Proof.
  intros Hm Hk s. unfold bind. specialize (Hm s).
  destruct (m s) as [s1 [a|e|]]; cbn [fst] in *; try (left; assumption).
  rewrite <- Hm. apply Hk.
Qed.

Lemma appends_bind {A B} x (m : M A) (k : A -> M B) :
  keeps sec m -> (forall a, appends x (k a)) -> appends x (bind m k).
Proof.
  intros Hm Hk s s' b H.
  apply bind_return_inv in H. destruct H as (s1 & a & H1 & H2).
  specialize (Hm s). rewrite H1 in Hm. cbn [fst] in Hm.
  rewrite <- Hm. exact (Hk a s1 s' b H2).
Qed.

Lemma audience_loop_sections fuel : keeps sec (audience_loop fuel).
Proof. destruct fuel; intros s; reflexivity. Qed.

Lemma get_user_input_sections fuel : keeps sec (get_user_input fuel).
Proof.
  unfold get_user_input. state_keeps sections_of. apply audience_loop_sections.
Qed.

Lemma inquiry_body_sections p : may_append "initial_inquiry" (inquiry_body W p).
Proof.
  unfold inquiry_body, checked_loads, record_inquiry.
  repeat match goal with
         | |- may_append _ (bind _ _) =>
             apply may_append_bind; [solve [state_keeps sections_of] | intros]
         end.
  intros s. unfold when.
  match goal with |- context [String.eqb ?x "yes"] => destruct (String.eqb x "yes") end;
    [right|left]; reflexivity.
Qed.

Lemma inquiry_guard_done n st :
  In "initial_inquiry" (sections_of st) -> inquiry_guard n st = false.
Proof.
  intros H. unfold inquiry_guard.
  replace (existsb (String.eqb "initial_inquiry") (complete_sections (process_outline st)))
    with true; [reflexivity|].
  symmetry. apply existsb_exists. exists "initial_inquiry".
  split; [exact H | apply String.eqb_refl].
Qed.

Lemma inquiry_loop_exit fuel p n s :
  inquiry_guard n (state s) = false ->
  inquiry_loop W fuel p n s = (s, Return n).
Proof.
  intros H. destruct fuel; cbn [inquiry_loop]; unfold bind, get_state;
    rewrite H; reflexivity.
Qed.

Lemma inquiry_loop_step fuel p n s :
  inquiry_guard n (state s) = true ->
  inquiry_loop W (S fuel) p n s
  = bind (inquiry_body W p) (fun _ => inquiry_loop W fuel p (n + 1)) s.
Proof.
  intros H. cbn [inquiry_loop]. unfold bind at 1. unfold get_state.
  rewrite H. reflexivity.
Qed.

Lemma inquiry_loop_sections fuel p n : may_append "initial_inquiry" (inquiry_loop W fuel p n).
Proof.
  revert n. induction fuel as [|fuel IH]; intros n s.
  - left. cbn [inquiry_loop]. unfold bind, get_state.
    destruct (inquiry_guard n (state s)); reflexivity.
  - destruct (inquiry_guard n (state s)) eqn:G.
    2:{ rewrite (inquiry_loop_exit _ _ _ _ G). left; reflexivity. }
    rewrite (inquiry_loop_step _ _ _ _ G).
    unfold bind. pose proof (inquiry_body_sections p s) as Hb.
    destruct (inquiry_body W p s) as [s1 [[]|e|]]; cbn [fst] in *; try exact Hb.
    destruct Hb as [Hb|Hb].
    + rewrite <- Hb. apply IH.
    + rewrite inquiry_loop_exit; [right; exact Hb|].
      apply inquiry_guard_done. unfold sections_of in *. rewrite Hb.
      apply in_or_app. right. left. reflexivity.
Qed.

Lemma inquiry_assistance_sections fuel p :
  may_append "initial_inquiry" (inquiry_assistance W fuel p).
Proof.
  unfold inquiry_assistance. intros s. unfold bind.
  pose proof (inquiry_loop_sections fuel p 0 s) as H.
  destruct (inquiry_loop W fuel p 0 s) as [s1 [a|e|]]; exact H.
Qed.

Lemma elimination_body_sections a loc : keeps sec (elimination_body W a loc).
Proof.
  unfold elimination_body, show_each, record_examination, single_dict.
  state_keeps sections_of.
Qed.

Lemma elimination_loop_sections fuel a loc : keeps sec (elimination_loop W fuel a loc).
Proof.
  revert loc. induction fuel as [|fuel IH]; intros loc; cbn [elimination_loop];
    state_keeps sections_of.
  - apply elimination_body_sections.
  - apply IH.
Qed.

Lemma diagnosis_consult_sections a p : keeps sec (diagnosis_consult W a p).
Proof.
  unfold diagnosis_consult, show_each, record_examination, single_dict.
  state_keeps sections_of.
Qed.

Lemma conclude_diagnosis_sections c b : appends ["diagnosis"] (conclude_diagnosis c b).
Proof. intros s s' r H. cbv in H. inversion H. reflexivity. Qed.

Lemma diagnosis_assistance_sections fuel p :
  appends ["diagnosis"] (diagnosis_assistance W fuel p).
Proof.
  unfold diagnosis_assistance, diagnosis_settle.
  apply appends_bind; [state_keeps sections_of | intros skip].
  destruct (String.eqb (PyStr.lower skip) "q").
  - repeat match goal with
           | |- appends _ (bind _ _) =>
               apply appends_bind; [solve [state_keeps sections_of] | intros]
           end.
    apply conclude_diagnosis_sections.
  - apply appends_bind; [state_keeps sections_of | intros st].
    apply appends_bind; [apply diagnosis_consult_sections | intros loc].
    apply appends_bind; [state_keeps sections_of | intros n].
    apply appends_bind; [|intros; apply conclude_diagnosis_sections].
    destruct (0 <? n)%nat; [apply elimination_loop_sections | apply keeps_ret].
Qed.

Lemma treatment_plan_creation_sections p :
  appends ["treatment plan"] (treatment_plan_creation W p).
Proof.
  unfold treatment_plan_creation, update_treatment_plan.
  repeat match goal with
         | |- appends _ (bind _ _) =>
             apply appends_bind; [solve [state_keeps sections_of] | intros]
         end.
  intros s s' r H. cbv in H. inversion H. reflexivity.
Qed.

Lemma multiagents_report_sections p : keeps sec (multiagents_report W p).
Proof. unfold multiagents_report. state_keeps sections_of. Qed.


(** *** Termination within the fuel *)

Lemma total_bind {A B} (m : M A) (k : A -> M B) :
  total m -> (forall a, total (k a)) -> total (bind m k).
Proof.
  intros Hm Hk s. unfold bind. specialize (Hm s).
  destruct (m s) as [s1 [a|e|]]; cbn [snd] in *;
    [apply Hk | discriminate | exfalso; apply Hm; reflexivity].
Qed.

Lemma total_for_each {B} (l : list B) (f : B -> M unit) :
  (forall x, total (f x)) -> total (for_each l f).
Proof.
  intros Hf. induction l as [|x l IH]; cbn [for_each].
  - intros s. discriminate.
  - apply total_bind; auto.
Qed.

Lemma total_lift {B} (r : outcome B) : r <> Diverge -> total (lift r).
Proof. intros H s. exact H. Qed.

Lemma total_input : total input.
Proof. intros s. unfold input. destruct (stdin s); discriminate. Qed.

Lemma total_loads_or e text : total (loads_or W e text).
Proof.
  intros s. unfold loads_or. destruct (json_loads W text) as [v|[]]; discriminate.
Qed.

Ltac pure_total :=
  unfold Py.get, Py.lower, Py.len, Py.getitem, Py.setitem;
  repeat match goal with
         | |- context [match ?x with _ => _ end] => destruct x
         | |- context [if ?x then _ else _] => destruct x
         end; discriminate.

Ltac total_tac :=
  repeat first
    [ apply total_input | apply total_loads_or
    | apply total_lift; pure_total
    | match goal with
      | |- total (bind _ _) => apply total_bind; [|intros]
      | |- total (for_each _ _) => apply total_for_each; intros
      | |- total (when ?c _) => unfold when; destruct c
      | |- total (if ?c then _ else _) => destruct c
      | |- total (match ?x with _ => _ end) => destruct x
      | |- total _ => intros ?; discriminate
      end ].

Lemma inquiry_body_total p : total (inquiry_body W p).
Proof.
  unfold inquiry_body, checked_loads, record_inquiry. total_tac.
Qed.

(** *** Agent invocations of the inquiry loop *)

Lemma bind_get_state {B} (k : PatientState -> M B) s :
  bind get_state k s = k (state s) s.
Proof. reflexivity. Qed.

Lemma bind_kickoff_crew {B} c ins (k : string -> M B) s :
  bind (kickoff_crew W c ins) k s
  = k (agent_reply W (length (calls s)))
      (mkSession (state s) (stdin s) (calls s ++ [mkCall c ins]) (uuids s) (files s)).
Proof. reflexivity. Qed.

Lemma bind_assoc {A B C} (m : M A) (k1 : A -> M B) (k2 : B -> M C) s :
  bind (bind m k1) k2 s = bind m (fun x => bind (k1 x) k2) s.
Proof. unfold bind. destruct (m s) as [s1 [x|e|]]; reflexivity. Qed.

Lemma bind_ret {A B} (v : A) (k : A -> M B) s : bind (ret v) k s = k v s.
Proof. reflexivity. Qed.

Lemma bind_pure {A B} (v : A) (k : A -> M B) s : bind (lift (Return v)) k s = k v s.
Proof. reflexivity. Qed.

Lemma bind_modify_state {B} f (k : unit -> M B) s :
  bind (modify_state f) k s
  = k tt (mkSession (f (state s)) (stdin s) (calls s) (uuids s) (files s)).
Proof. reflexivity. Qed.

Lemma bind_input {B} (k : string -> M B) s line rest :
  stdin s = line :: rest ->
  bind input k s
  = k line (mkSession (state s) rest (calls s) (uuids s) (files s)).
Proof. intros H. unfold bind, input. rewrite H. reflexivity. Qed.

Lemma bind_new_uuid {B} (k : string -> M B) s :
  bind (new_uuid W) k s
  = k (uuid4 W (uuids s))
      (mkSession (state s) (stdin s) (calls s) (S (uuids s)) (files s)).
Proof. reflexivity. Qed.

(** Runs the deterministic steps at the head of a computation. *)
Ltac run :=
  repeat (first [ rewrite bind_assoc | rewrite bind_ret | rewrite bind_pure
                | rewrite bind_get_state | rewrite bind_kickoff_crew
                | rewrite bind_modify_state | rewrite bind_new_uuid ];
          cbv beta).

Lemma record_inquiry_calls k v : keeps calls (record_inquiry k v).
Proof. unfold record_inquiry. calls_keeps. Qed.

(** Every pass of the loop invokes the supervising model exactly once. *)
Lemma inquiry_body_calls p s :
  calls (fst (inquiry_body W p s))
  = calls s ++ [mkCall SupervisorLLM (inquiry_messages p (state s))].
Proof.
  unfold inquiry_body. rewrite bind_get_state, bind_kickoff_crew.
  match goal with
  | |- calls (fst (?m ?s1)) = _ =>
      assert (K : keeps calls m)
        by (unfold checked_loads; calls_keeps; apply record_inquiry_calls);
      rewrite (K s1)
  end.
  reflexivity.
Qed.

Lemma inquiry_guard_true n st :
  inquiry_guard n st = true <->
  ~ In "initial_inquiry" (sections_of st) /\ n < 2.
Proof.
  unfold inquiry_guard, sections_of. rewrite andb_true_iff, negb_true_iff, Nat.ltb_lt.
  split; intros [H1 H2]; split; try assumption.
  - intros Hin. assert (E : existsb (String.eqb "initial_inquiry")
                              (complete_sections (process_outline st)) = true).
    { apply existsb_exists. exists "initial_inquiry". split; [assumption|apply String.eqb_refl]. }
    congruence.
  - destruct (existsb _ _) eqn:E; [|reflexivity].
    apply existsb_exists in E. destruct E as (x & Hin & Hx).
    apply String.eqb_eq in Hx. subst x. contradiction.
Qed.

Lemma inquiry_loop_bound fuel p : forall n s,
  n <= 2 -> 2 <= fuel + n ->
  snd (inquiry_loop W fuel p n s) <> Diverge
  /\ length (calls (fst (inquiry_loop W fuel p n s))) + n <= length (calls s) + 2
  /\ (forall m, snd (inquiry_loop W fuel p n s) = Return m ->
        m <= 2 /\ length (calls (fst (inquiry_loop W fuel p n s))) + n
                  = length (calls s) + m).
Proof.
  induction fuel as [|fuel IH]; intros n s Hn Hf;
    destruct (inquiry_guard n (state s)) eqn:G;
    try (rewrite (inquiry_loop_exit _ _ _ _ G); cbn [fst snd];
         split; [discriminate | split; [lia | intros m Hm; inversion Hm; subst; lia]]).
  - apply inquiry_guard_true in G. lia.
  - pose proof (proj2 (proj1 (inquiry_guard_true _ _) G)) as Hlt.
    rewrite (inquiry_loop_step _ _ _ _ G). unfold bind.
    pose proof (inquiry_body_calls p s) as Hc.
    pose proof (inquiry_body_total p s) as Ht.
    destruct (inquiry_body W p s) as [s1 [[]|e|]]; cbn [fst snd] in *.
    + assert (L : length (calls s1) = length (calls s) + 1)
        by (rewrite Hc, length_app; reflexivity).
      destruct (IH (n + 1) s1) as (I1 & I2 & I3); try lia.
      split; [assumption | split; [lia|]].
      intros m Hm. destruct (I3 m Hm). lia.
    + assert (L : length (calls s1) = length (calls s) + 1)
        by (rewrite Hc, length_app; reflexivity).
      split; [discriminate | split; [lia | discriminate]].
    + exfalso. apply Ht. reflexivity.
Qed.

(** C5: given fuel for two passes, the inquiry loop always ends, after at
    most two passes (each pass is one invocation of the supervising model,
    and the returned counter is the number of passes); a pass is entered
    only when ["initial_inquiry"] is not yet among the completed sections
    and the counter is below 2, and it is followed by the loop at the
    counter plus one. *)
Theorem inquiry_loop_at_most_twice (fuel : nat) (p_state : PatientState)
    (s : Session) :
  2 <= fuel ->
  (snd (inquiry_loop W fuel p_state 0 s) <> Diverge
   /\ length (calls (fst (inquiry_loop W fuel p_state 0 s))) <= length (calls s) + 2
   /\ (forall n, snd (inquiry_loop W fuel p_state 0 s) = Return n ->
         n <= 2 /\ length (calls (fst (inquiry_loop W fuel p_state 0 s)))
                   = length (calls s) + n))
  /\ (forall f n s0,
        inquiry_guard n (state s0) = false ->
        inquiry_loop W f p_state n s0 = (s0, Return n))
  /\ (forall f n s0,
        inquiry_guard n (state s0) = true ->
        inquiry_loop W (S f) p_state n s0
        = bind (inquiry_body W p_state)
               (fun _ => inquiry_loop W f p_state (n + 1)) s0)
  /\ (forall n st,
        inquiry_guard n st = true <->
        ~ In "initial_inquiry" (sections_of st) /\ n < 2).
Proof.
  intros Hf. split; [|split; [|split]].
  - destruct (inquiry_loop_bound fuel p_state 0 s) as (I1 & I2 & I3); try lia.
    split; [assumption | split; [lia|]].
    intros n Hn. destruct (I3 n Hn). lia.
  - intros. apply inquiry_loop_exit. assumption.
  - intros. apply inquiry_loop_step. assumption.
  - apply inquiry_guard_true.
Qed.

(** *** Which replies mark the inquiry complete *)

Lemma get_user_input_calls fuel : keeps calls (get_user_input fuel).
Proof.
  unfold get_user_input. calls_keeps. destruct fuel; intros s; reflexivity.
Qed.

Lemma checked_loads_return response s s' v :
  checked_loads W response s = (s', Return v) ->
  s' = s /\ json_loads W (clean_and_parse_json response) = Decoded v.
Proof.
  unfold checked_loads, loads_or, raise, ret.
  destruct (PyStr.is_empty _); [discriminate|].
  destruct (negb _); [discriminate|].
  destruct (json_loads W _) as [v0|[]]; intros H; inversion H. split; reflexivity.
Qed.

(** A pass that returns has appended ["initial_inquiry"] exactly when its
    reply says that the inquiry is complete. *)
Lemma inquiry_body_marks p s s' u :
  inquiry_body W p s = (s', Return u) ->
  sections_of (state s')
  = sections_of (state s)
    ++ (if says_complete W (agent_reply W (length (calls s)))
        then ["initial_inquiry"%string] else []).
Proof.
  unfold inquiry_body. rewrite bind_get_state, bind_kickoff_crew. intros H.
  apply bind_return_inv in H. destruct H as (s1 & reply & H1 & H).
  apply checked_loads_return in H1. destruct H1 as [E1 Hj]. subst s1.
  unfold says_complete. rewrite Hj.
  destruct reply as [|b|z|t|l|d];
    try (unfold bind, lift in H; cbn [Py.get] in H; discriminate H).
  cbn [Py.get] in H. rewrite bind_pure in H.
  do 4 (apply bind_return_inv in H;
        let sx := fresh "sx" in
        let K := fresh "K" in
        destruct H as (sx & ? & K & H);
        match type of K with
        | ?m ?s0 = _ =>
            let P := fresh "P" in
            assert (P : keeps sec m)
              by (unfold record_inquiry; state_keeps sections_of);
            specialize (P s0); rewrite K in P; cbn [fst state] in P; clear K
        end).
  rewrite bind_pure in H.
  destruct (Py.dict_get_or d "inquiry_complete" (PStr "")) as [|b|z|a|l|d'];
    try (unfold bind, lift in H; cbn [Py.lower] in H; discriminate H).
  cbn [Py.lower] in H. rewrite bind_pure in H. unfold when in H.
  destruct (String.eqb (PyStr.lower a) "yes");
    inversion H; cbn [state]; unfold sections_of in *; cbn;
    congruence || (rewrite app_nil_r; congruence).
Qed.

(** The two passes of the loop, started where nothing is marked yet. *)
Lemma inquiry_loop_marks fuel p s s' n :
  sections_of (state s) = [] ->
  inquiry_loop W fuel p 0 s = (s', Return n) ->
  sections_of (state s')
  = if says_complete W (agent_reply W (length (calls s)))
       || says_complete W (agent_reply W (S (length (calls s))))
    then ["initial_inquiry"%string] else [].
Proof.
  intros E H.
  assert (G0 : inquiry_guard 0 (state s) = true).
  { apply inquiry_guard_true. rewrite E. split; [intros []|lia]. }
  destruct fuel as [|fuel].
  { cbn [inquiry_loop] in H. rewrite bind_get_state, G0 in H. discriminate H. }
  rewrite (inquiry_loop_step _ _ _ _ G0) in H.
  apply bind_return_inv in H. destruct H as (s1 & u & B1 & H).
  pose proof (inquiry_body_marks _ _ _ _ B1) as M1. rewrite E in M1.
  pose proof (inquiry_body_calls p s) as C1. rewrite B1 in C1. cbn [fst] in C1.
  cbn [Nat.add] in H.
  destruct (says_complete W (agent_reply W (length (calls s)))).
  { rewrite inquiry_loop_exit in H
      by (apply inquiry_guard_done; rewrite M1; left; reflexivity).
    inversion H. subst. exact M1. }
  cbn [app orb] in M1 |- *.
  assert (G1 : inquiry_guard 1 (state s1) = true).
  { apply inquiry_guard_true. rewrite M1. split; [intros []|lia]. }
  destruct fuel as [|fuel].
  { cbn [inquiry_loop] in H. rewrite bind_get_state, G1 in H. discriminate H. }
  rewrite (inquiry_loop_step _ _ _ _ G1) in H.
  apply bind_return_inv in H. destruct H as (s2 & u2 & B2 & H).
  pose proof (inquiry_body_marks _ _ _ _ B2) as M2. rewrite M1 in M2.
  rewrite C1, length_app in M2. cbn [length] in M2. rewrite Nat.add_1_r in M2.
  cbn [Nat.add] in H.
  rewrite inquiry_loop_exit in H.
  - inversion H. subst. exact M2.
  - destruct (inquiry_guard 2 (state s2)) eqn:G2; [|reflexivity].
    apply inquiry_guard_true in G2. lia.
Qed.

(** C1 (amended): a completed run leaves in [complete_sections] exactly
    ["initial_inquiry"], ["diagnosis"], ["treatment plan"], in this order
    and each once, when the first reply of the supervising model or, failing
    that, its second reply says that the inquiry is complete; otherwise it
    leaves exactly ["diagnosis"], ["treatment plan"]. *)
Theorem complete_sections_of_run (fuel : nat) (console : list string)
    (s' : Session) (r : string) :
  kickoff W fuel (initial_session console) = (s', Return r) ->
  sections_of (state s')
  = (if says_complete W (agent_reply W 0) || says_complete W (agent_reply W 1)
     then ["initial_inquiry"%string] else [])
    ++ ["diagnosis"%string; "treatment plan"%string].
Proof.
  unfold kickoff. intros H.
  apply bind_return_inv in H. destruct H as (s1 & p_state & H1 & H).
  apply bind_return_inv in H. destruct H as (s2 & p_outline & H2 & H).
  apply bind_return_inv in H. destruct H as (s3 & p_diag & H3 & H).
  apply bind_return_inv in H. destruct H as (s4 & p_outline' & H4 & H5).
  pose proof (get_user_input_sections fuel (initial_session console)) as E1.
  rewrite H1 in E1. cbn in E1.
  pose proof (get_user_input_calls fuel (initial_session console)) as C1.
  rewrite H1 in C1. cbn in C1.
  unfold inquiry_assistance in H2.
  apply bind_return_inv in H2. destruct H2 as (sl & n & L & H2).
  rewrite bind_get_state in H2. inversion H2. subst s2 p_outline. clear H2.
  pose proof (inquiry_loop_marks _ _ _ _ _ E1 L) as E2. rewrite C1 in E2.
  cbn [length] in E2.
  apply diagnosis_assistance_sections in H3.
  apply treatment_plan_creation_sections in H4.
  pose proof (multiagents_report_sections p_outline' s4) as E5.
  rewrite H5 in E5. cbn [fst] in E5.
  rewrite E5, H4, H3, E2.
  destruct (says_complete W (agent_reply W 0) || says_complete W (agent_reply W 1));
    reflexivity.
Qed.


(** *** The audience level *)

(** C7: intake stores the audience level once, as ["professional"], one of
    the enumerated values (and one of the values the code accepts); every
    later stage leaves it as it is, whatever its outcome; so it is that
    value at the end of every run, completed or not. *)
Theorem audience_level_set_once (fuel : nat) :
  (forall s, get_user_input (S fuel) s
             = (mkSession (set_audience_level "professional"
                             (set_initial_inquiry intake_record (state s)))
                          (stdin s) (calls s) (uuids s) (files s),
                Return (set_audience_level "professional"
                          (set_initial_inquiry intake_record (state s)))))
  /\ In "professional" spec_audience_levels
  /\ In "professional" audience_choices
  /\ (forall p s, audience_level (state (fst (inquiry_assistance W fuel p s)))
                  = audience_level (state s))
  /\ (forall p s, audience_level (state (fst (diagnosis_assistance W fuel p s)))
                  = audience_level (state s))
  /\ (forall p s, audience_level (state (fst (treatment_plan_creation W p s)))
                  = audience_level (state s))
  /\ (forall p s, audience_level (state (fst (multiagents_report W p s)))
                  = audience_level (state s))
  /\ (forall console,
        audience_level (state (fst (kickoff W (S fuel) (initial_session console))))
        = "professional").
Proof.
  split; [reflexivity|].
  split; [cbn; tauto|].
  split; [cbn; tauto|].
  split; [intros; apply inquiry_assistance_audience|].
  split; [intros; apply diagnosis_assistance_audience|].
  split; [intros; apply treatment_plan_creation_audience|].
  split; [intros; apply multiagents_report_audience|].
  intros console. unfold kickoff.
  assert (K : forall p, keeps (fun s => audience_level (state s))
    (p_outline <- inquiry_assistance W (S fuel) p ;;
     p_diagnosis_result <- diagnosis_assistance W (S fuel) p_outline ;;
     p_outline' <- treatment_plan_creation W p_diagnosis_result ;;
     multiagents_report W p_outline')).
  { intros p.
    apply keeps_bind; [apply inquiry_assistance_audience|intros].
    apply keeps_bind; [apply diagnosis_assistance_audience|intros].
    apply keeps_bind; [apply treatment_plan_creation_audience|intros].
    apply multiagents_report_audience. }
  unfold bind at 1.
  change (get_user_input (S fuel) (initial_session console))
    with (mkSession (set_audience_level "professional"
                       (set_initial_inquiry intake_record default_PatientState))
                    console [] 0 [],
          Return (set_audience_level "professional"
                    (set_initial_inquiry intake_record default_PatientState))).
  cbv iota. rewrite K. reflexivity.
Qed.

(** *** The elimination loop *)

Lemma elimination_loop_ready fuel a loc s :
  ready_to_treatment_plan loc = true ->
  elimination_loop W fuel a loc s = (s, Return loc).
Proof. intros H. destruct fuel; cbn [elimination_loop]; rewrite H; reflexivity. Qed.

Lemma elimination_loop_step fuel a loc s :
  ready_to_treatment_plan loc = false ->
  elimination_loop W (S fuel) a loc s
  = bind (elimination_body W a loc) (fun loc' => elimination_loop W fuel a loc') s.
Proof. intros H. cbn [elimination_loop]. rewrite H. reflexivity. Qed.

(** C3: when the reply of the elimination agent says, in any letter case,
    that no further inquiries are needed, that pass is the last one: the
    loop returns after exactly one invocation, with the conclusion and the
    basis of the reply, whatever alternatives were left. *)
Theorem elimination_stops_on_no (fuel : nat) (a : string) (loc : DiagLocals)
    (s : Session) (d : dict) (answer : string) :
  ready_to_treatment_plan loc = false ->
  json_loads W (agent_reply W (length (calls s))) = Decoded (PDict d) ->
  Py.dict_get_or d "further_inquiries_needed" (PStr "unknown") = PStr answer ->
  PyStr.lower answer = "no"%string ->
  elimination_loop W (S fuel) a loc s
  = (log_call PossibilitiesEliminationCrew (elimination_inputs a loc (state s)) s,
     Return (mkDiagLocals
               (Py.dict_get_or d "diagnosis_conclusion" (PStr "无更新诊断结论"))
               (Py.dict_get_or d "diagnosis_basis" (PStr "无更新诊断依据"))
               (list_of_other_diagnosis_possibility loc)
               (str_of_other_diagnosis_possibility loc)
               (suggested_dialectics loc) true)).
Proof.
  intros Hr Hj Hf Hn.
  rewrite (elimination_loop_step _ _ _ _ Hr).
  unfold bind at 1. unfold elimination_body.
  rewrite bind_get_state, bind_kickoff_crew.
  unfold bind at 1. unfold loads_or. rewrite Hj.
  cbn [ret Py.get lift bind]. rewrite Hf. cbn [Py.lower]. rewrite Hn.
  cbn [String.eqb Ascii.eqb Bool.eqb ret].
  apply elimination_loop_ready. reflexivity.
Qed.

Lemma show_each_from (l : list pyval) : forall n k s,
  k + n <= length l ->
  for_each (seq k n) (fun i => lift (Py.getitem (PList l) i) ;;; ret tt) s
  = (s, Return tt).
Proof.
  induction n as [|n IH]; intros k s H; [reflexivity|].
  cbn [seq for_each]. unfold bind at 1. unfold bind at 1. cbn [lift Py.getitem].
  destruct (nth_error l k) eqn:E.
  - cbn [ret]. apply IH. lia.
  - apply nth_error_None in E. lia.
Qed.

Lemma show_each_list (l : list pyval) s :
  show_each (PList l) (length l) s = (s, Return tt).
Proof. unfold show_each. apply show_each_from. lia. Qed.





(** *** The diagnosis stage without alternatives *)

Lemma returns_only_bind {A B} (Q : B -> Prop) (m : M A) (k : A -> M B) :
  (forall a, returns_only Q (k a)) -> returns_only Q (bind m k).
Proof.
  intros Hk s s' b H. apply bind_return_inv in H.
  destruct H as (s1 & a & _ & H). exact (Hk a s1 s' b H).
Qed.

Lemma returns_only_ret {B} (Q : B -> Prop) (b : B) : Q b -> returns_only Q (ret b).
Proof. intros H s s' b' E. inversion E. subst. exact H. Qed.

Lemma record_examination_calls k v : keeps calls (record_examination k v).
Proof. unfold record_examination. calls_keeps. Qed.

Lemma diagnosis_consult_result a p s s1 loc d :
  json_loads W (agent_reply W (length (calls s))) = Decoded (PDict d) ->
  diagnosis_consult W a p s = (s1, Return loc) ->
  diagnosis_conclusion loc = Py.dict_get_or d "diagnosis_conclusion" (PStr "无诊断结论")
  /\ diagnosis_basis loc = Py.dict_get_or d "diagnosis_basis" (PStr "无诊断依据")
  /\ list_of_other_diagnosis_possibility loc
     = Py.dict_get_or d "other_diagnosis_possibility" (PList [])
  /\ calls s1 = calls s ++ [mkCall DiagnosisCrew (diagnosis_inputs a (state s) p)].
Proof.
  intros Hj. unfold diagnosis_consult. run.
  unfold loads_or. rewrite Hj. run. cbn [Py.get]. run.
  match goal with
  | |- ?m ?s0 = _ -> _ =>
      assert (R : returns_only
                (fun loc =>
                   diagnosis_conclusion loc
                   = Py.dict_get_or d "diagnosis_conclusion" (PStr "无诊断结论")
                   /\ diagnosis_basis loc
                      = Py.dict_get_or d "diagnosis_basis" (PStr "无诊断依据")
                   /\ list_of_other_diagnosis_possibility loc
                      = Py.dict_get_or d "other_diagnosis_possibility" (PList [])) m)
        by (repeat (apply returns_only_bind; intros);
            apply returns_only_ret; repeat split);
      assert (K : keeps calls m)
        by (unfold show_each, single_dict; calls_keeps;
            apply record_examination_calls);
      intros H; specialize (R _ _ _ H); specialize (K s0); rewrite H in K
  end.
  cbn [fst calls] in K. cbv beta in R. tauto.
Qed.

Lemma map_outcome_total {A B} (f : A -> outcome B) (l : list A) :
  (forall x, f x <> Diverge) -> Py.map_outcome f l <> Diverge.
Proof.
  intros Hf. induction l as [|x l IH]; cbn [Py.map_outcome]; [discriminate|].
  specialize (Hf x). destruct (f x); cbn [Py.obind]; try discriminate; try congruence.
  destruct (Py.map_outcome f l); cbn [Py.obind]; try discriminate; congruence.
Qed.

Lemma join_possibilities_total v : join_possibilities W v <> Diverge.
Proof.
  unfold join_possibilities.
  destruct (Py.iter v) as [entities|e|] eqn:E; cbn [Py.obind]; try discriminate.
  - match goal with
    | |- context [Py.map_outcome ?f entities] =>
        assert (T : Py.map_outcome f entities <> Diverge)
          by (apply map_outcome_total; intros x; destruct x; cbn; discriminate);
        destruct (Py.map_outcome f entities)
    end; cbn [Py.obind]; try discriminate.
    exfalso. apply T. reflexivity.
  - destruct v; discriminate E.
Qed.

Lemma diagnosis_consult_calls a p s :
  calls (fst (diagnosis_consult W a p s))
  = calls s ++ [mkCall DiagnosisCrew (diagnosis_inputs a (state s) p)].
Proof.
  unfold diagnosis_consult. rewrite bind_get_state, bind_kickoff_crew.
  match goal with
  | |- calls (fst (?m ?s1)) = _ =>
      assert (K : keeps calls m)
        by (unfold show_each, single_dict; calls_keeps;
            apply record_examination_calls);
      rewrite (K s1)
  end.
  reflexivity.
Qed.

Lemma diagnosis_settle_no_alternatives fuel a loc s :
  list_of_other_diagnosis_possibility loc = PList [] ->
  let result := [(PStr "diagnosis_conclusion", diagnosis_conclusion loc);
                 (PStr "diagnosis_basis", diagnosis_basis loc)] in
  diagnosis_settle W fuel a loc s
  = (mkSession (append_section "diagnosis" (set_diagnosis_result result (state s)))
               (stdin s) (calls s) (uuids s) (files s),
     Return result).
Proof.
  intros E result. unfold diagnosis_settle. rewrite E. cbn [Py.len length]. run.
  cbn [Nat.ltb Nat.leb]. run. unfold conclude_diagnosis. run. reflexivity.
Qed.

Lemma skipn_nth_error {A} (l : list A) : forall k x,
  nth_error l k = Some x -> skipn k l = x :: skipn (S k) l.
Proof.
  induction l as [|y l IH]; intros [|k] x H; cbn in H; try discriminate.
  - inversion H. reflexivity.
  - cbn [skipn]. rewrite (IH _ _ H). reflexivity.
Qed.

(** The dialogue about the suggested examinations goes through when every
    result given can be recorded. *)
Lemma record_exams_returns (es : list pyval) (rest' : list string) :
  forall n k lines s,
    k + n <= length es ->
    length lines = n ->
    stdin s = lines ++ rest' ->
    forallb (fun p => recordable (fst p) (snd p)) (combine (skipn k es) lines) = true ->
    exists s',
      for_each (seq k n)
        (fun i =>
           exam <- lift (Py.getitem (PList es) i) ;;
           suggested_auxiliary_check_answer <- input ;;
           when (negb (PyStr.is_empty suggested_auxiliary_check_answer))
             (name <- lift (Py.get exam "examination_name" (PStr "无检查项目")) ;;
              record_examination name (PStr suggested_auxiliary_check_answer))) s
      = (s', Return tt)
      /\ stdin s' = rest'.
Proof.
  induction n as [|n IH]; intros k lines s Hk Hl Hs Hr.
  - destruct lines; [|discriminate]. exists s. split; [reflexivity | exact Hs].
  - destruct lines as [|line lines]; [discriminate|].
    cbn [seq for_each]. rewrite bind_assoc. cbn [Py.getitem].
    destruct (nth_error es k) as [exam|] eqn:E;
      [|apply nth_error_None in E; lia].
    rewrite (skipn_nth_error _ _ _ E) in Hr. cbn [combine forallb fst snd] in Hr.
    apply andb_true_iff in Hr. destruct Hr as [Hx Hr].
    run. rewrite (bind_input _ _ line (lines ++ rest')) by exact Hs. cbv beta.
    unfold recordable in Hx.
    destruct (PyStr.is_empty line); cbn [negb when orb] in Hx |- *.
    + run. apply (IH (S k) lines); [lia | | reflexivity | exact Hr].
      cbn [length] in Hl. lia.
    + destruct exam as [| | | | |e]; try discriminate Hx.
      cbn [Py.get]. run. unfold record_examination. run.
      unfold Py.setitem. rewrite Hx. run.
      apply (IH (S k) lines); [lia | | reflexivity | exact Hr].
      cbn [length] in Hl. lia.
Qed.

Lemma diagnosis_consult_total a p : total (diagnosis_consult W a p).
Proof.
  unfold diagnosis_consult, show_each, record_examination, single_dict.
  total_tac; apply total_lift, join_possibilities_total.
Qed.

(** C4 (amended): when the reply of the diagnosis agent is an object whose
    list of alternatives is empty (or missing), no pass of the elimination
    loop is made: with any fuel, 0 included, any console and whatever the
    outcome, the stage ends with the diagnosis crew's as the only
    invocation.  When the stage returns, it returns and stores the
    conclusion and the basis of that reply and marks ["diagnosis"].  It does
    return when the console holds an answer to the suggested question
    (empty, or any answer when the question can be a dictionary key) and
    then one line for each suggested auxiliary examination, each empty or
    given for an examination that is an object whose name can be a key. *)
Theorem no_alternatives_no_elimination (fuel : nat) (p_outline : ProcessOutline)
    (s : Session) (skip : string) (rest : list string) (d : dict) :
  stdin s = skip :: rest ->
  String.eqb (PyStr.lower skip) "q" = false ->
  json_loads W (agent_reply W (length (calls s))) = Decoded (PDict d) ->
  Py.dict_get_or d "other_diagnosis_possibility" (PList []) = PList [] ->
  let run := diagnosis_assistance W fuel p_outline s in
  let result :=
    [(PStr "diagnosis_conclusion",
      Py.dict_get_or d "diagnosis_conclusion" (PStr "无诊断结论"));
     (PStr "diagnosis_basis",
      Py.dict_get_or d "diagnosis_basis" (PStr "无诊断依据"))] in
  calls (fst run)
  = calls s ++ [mkCall DiagnosisCrew
                  (diagnosis_inputs (audience_level (state s)) (state s) p_outline)]
  /\ snd run <> Diverge
  /\ (forall r,
        snd run = Return r ->
        r = result
        /\ diagnosis_result (state (fst run)) = result
        /\ sections_of (state (fst run)) = sections_of (state s) ++ ["diagnosis"%string])
  /\ (forall answer lines rest' es,
        rest = answer :: lines ++ rest' ->
        answerable (Py.dict_get_or d "suggested_question" (PStr "无建议问题")) answer
        = true ->
        Py.dict_get_or d "suggested_auxiliary_examinations" (PList []) = PList es ->
        length lines = length es ->
        forallb (fun p => recordable (fst p) (snd p)) (combine es lines) = true ->
        snd run = Return result /\ stdin (fst run) = rest').
Proof.
  intros Hs Hq Hj Ho run result.
  assert (R : run
              = bind (diagnosis_consult W (audience_level (state s)) p_outline)
                     (fun loc => diagnosis_settle W fuel (audience_level (state s)) loc)
                     (with_stdin rest s)).
  { unfold run, diagnosis_assistance.
    rewrite (bind_input _ _ skip rest) by exact Hs.
    rewrite Hq. run. reflexivity. }
  pose proof (diagnosis_consult_calls (audience_level (state s)) p_outline
                (with_stdin rest s)) as C.
  pose proof (diagnosis_consult_total (audience_level (state s)) p_outline
                (with_stdin rest s)) as T.
  pose proof (diagnosis_consult_sections (audience_level (state s)) p_outline
                (with_stdin rest s)) as Sc.
  assert (Q : forall s1 loc,
             diagnosis_consult W (audience_level (state s)) p_outline (with_stdin rest s)
             = (s1, Return loc) ->
             run = (mkSession
                      (append_section "diagnosis" (set_diagnosis_result result (state s1)))
                      (stdin s1) (calls s1) (uuids s1) (files s1),
                    Return result)).
  { intros s1 loc E.
    destruct (diagnosis_consult_result _ _ (with_stdin rest s) _ _ d Hj E)
      as (E1 & E2 & E3 & _).
    rewrite R. unfold bind. rewrite E.
    rewrite diagnosis_settle_no_alternatives by (rewrite E3; exact Ho).
    rewrite E1, E2. reflexivity. }
  split; [|split; [|split]].
  - destruct (diagnosis_consult W (audience_level (state s)) p_outline
                (with_stdin rest s)) as [s1 [loc|e|]] eqn:E.
    + rewrite (Q _ _ eq_refl). exact C.
    + rewrite R. unfold bind. rewrite E. exact C.
    + rewrite R. unfold bind. rewrite E. exact C.
  - destruct (diagnosis_consult W (audience_level (state s)) p_outline
                (with_stdin rest s)) as [s1 [loc|e|]] eqn:E.
    + rewrite (Q _ _ eq_refl). discriminate.
    + rewrite R. unfold bind. rewrite E. discriminate.
    + exfalso. apply T. reflexivity.
  - intros r Hr.
    destruct (diagnosis_consult W (audience_level (state s)) p_outline
                (with_stdin rest s)) as [s1 [loc|e|]] eqn:E.
    + rewrite (Q _ _ eq_refl) in Hr |- *. cbn [fst snd state] in *.
      split; [congruence|]. split; [reflexivity|].
      cbn [fst] in Sc. cbv beta in Sc. unfold sections_of in *. cbn.
      cbn in Sc. rewrite Sc. reflexivity.
    + rewrite R in Hr. unfold bind in Hr. rewrite E in Hr. discriminate Hr.
    + rewrite R in Hr. unfold bind in Hr. rewrite E in Hr. discriminate Hr.
  - intros answer lines rest' es Hrest Ha He Hl Hr.
    assert (X : exists s1 loc,
               diagnosis_consult W (audience_level (state s)) p_outline
                 (with_stdin rest s) = (s1, Return loc)
               /\ stdin s1 = rest').
    { clear Q C T Sc R. unfold diagnosis_consult. run.
      unfold loads_or. cbn [with_stdin calls state]. rewrite Hj. run.
      cbn [Py.get]. run. rewrite Ho. cbn [Py.len length]. run.
      unfold bind at 1. rewrite (show_each_list []). cbv iota beta.
      change (join_possibilities W (PList [])) with (@Return string ""%string).
      run.
      rewrite (bind_input _ _ answer (lines ++ rest')) by (cbn [stdin]; exact Hrest).
      cbv beta. rewrite He. cbn [Py.len]. unfold answerable in Ha.
      assert (Y : forall s0 : Session,
                 stdin s0 = lines ++ rest' ->
                 exists s1,
                   when (negb (length es =? 0)%nat)
                     (for_each (seq 0 (length es))
                        (fun i =>
                           exam <- lift (Py.getitem (PList es) i) ;;
                           suggested_auxiliary_check_answer <- input ;;
                           when (negb (PyStr.is_empty suggested_auxiliary_check_answer))
                             (name <- lift (Py.get exam "examination_name"
                                              (PStr "无检查项目")) ;;
                              record_examination name
                                (PStr suggested_auxiliary_check_answer)))) s0
                   = (s1, Return tt)
                   /\ stdin s1 = rest').
      { intros s0 H0. destruct es as [|x es].
        - destruct lines; [|discriminate]. exists s0. split; [reflexivity | exact H0].
        - change (negb (length (x :: es) =? 0)%nat) with true. cbn [when].
          apply (record_exams_returns (x :: es) rest' (length (x :: es)) 0 lines);
            [lia | exact Hl | exact H0 | exact Hr]. }
      destruct (PyStr.is_empty answer); cbn [negb when orb] in Ha |- *.
      - run. cbn [Py.len]. run.
        match goal with
        | |- exists s1 loc, ?k ?s0 = _ /\ _ =>
            destruct (Y s0 eq_refl) as (s1 & Y1 & Y2)
        end.
        unfold bind at 1. rewrite Y1. run.
        do 2 eexists. split; [reflexivity | exact Y2].
      - run. unfold single_dict. rewrite Ha. run. cbn [Py.len]. run.
        match goal with
        | |- exists s1 loc, ?k ?s0 = _ /\ _ =>
            destruct (Y s0 eq_refl) as (s1 & Y1 & Y2)
        end.
        unfold bind at 1. rewrite Y1. run.
        do 2 eexists. split; [reflexivity | exact Y2]. }
    destruct X as (s1 & loc & E & E').
    rewrite (Q _ _ E). split; [reflexivity | exact E'].
Qed.

(** *** Treatment planning *)

Lemma key_eqb_str k : Py.key_eqb (PStr k) (PStr k) = true.
Proof. cbn. apply String.eqb_refl. Qed.

Lemma dict_get_set k v : forall d,
  Py.dict_get (Py.dict_set d (PStr k) v) (PStr k) = Some v.
Proof.
  induction d as [|[k' v'] d IH]; cbn [Py.dict_set Py.dict_get].
  - rewrite key_eqb_str. reflexivity.
  - destruct (Py.key_eqb k' (PStr k)) eqn:E; cbn [Py.dict_get]; rewrite E;
      [reflexivity | exact IH].
Qed.

(** C8: when the operator answers [q] and then types a plan, and the plan
    file can be opened, the stage returns; the plan text is the content
    written to the path made from the identifier just drawn, the entry
    ["manual_treatment_plan"] of the treatment plan is that text, no agent
    is invoked, and the stage is marked complete. *)
Theorem manual_plan_bypass (p_diagnosis_result : dict) (s : Session)
    (skip plan : string) (rest : list string) :
  stdin s = skip :: plan :: rest ->
  PyStr.lower skip = "q"%string ->
  can_open W (plan_path (uuid4 W (uuids s))) = true ->
  exists s',
    treatment_plan_creation W p_diagnosis_result s
    = (s', Return (process_outline (state s')))
    /\ files s' = (plan_path (uuid4 W (uuids s)), plan) :: files s
    /\ Py.dict_get (treatment_plan (state s')) (PStr "manual_treatment_plan")
       = Some (PStr plan)
    /\ calls s' = calls s
    /\ sections_of (state s') = sections_of (state s) ++ ["treatment plan"].
Proof.
  intros Hs Hq Ho. unfold treatment_plan_creation. run.
  rewrite (bind_input _ _ skip (plan :: rest)) by exact Hs.
  rewrite Hq. cbn [String.eqb Ascii.eqb Bool.eqb]. rewrite bind_assoc.
  rewrite (bind_input _ _ plan rest) by reflexivity. run.
  unfold bind at 1. unfold write_file. rewrite Ho. run.
  eexists. split; [reflexivity|]. cbn.
  repeat split. apply dict_get_set.
Qed.

(** C10: when the operator does not bypass treatment planning, the
    treatment-plan crew is invoked with the binding
    [suggested_diagnostic_dialectics] set to the dictionary of supplementary
    auxiliary examinations (the same value as the binding
    [supplementary_auxiliary_examinations]), never to the list of recorded
    question/answer pairs: the inputs do not depend on that list at all. *)
Theorem treatment_inputs_dialectics (p_diagnosis_result : dict) (s : Session)
    (skip : string) (rest : list string) :
  stdin s = skip :: rest ->
  String.eqb (PyStr.lower skip) "q" = false ->
  let ins := treatment_inputs (state s) p_diagnosis_result in
  let exams := supplementary_auxiliary_examinations (process_outline (state s)) in
  calls (fst (treatment_plan_creation W p_diagnosis_result s))
  = calls s ++ [mkCall TreatmentPlanCrew ins]
  /\ binding "suggested_diagnostic_dialectics" ins = Some (PDict exams)
  /\ binding "suggested_diagnostic_dialectics" ins
     = binding "supplementary_auxiliary_examinations" ins
  /\ binding "suggested_diagnostic_dialectics" ins
     <> Some (PList (suggested_diagnostic_dialectics (process_outline (state s))))
  /\ (forall l, treatment_inputs (with_dialectics l (state s)) p_diagnosis_result = ins).
Proof.
  intros Hs Hq ins exams.
  split; [|split; [reflexivity | split; [reflexivity | split; [discriminate | reflexivity]]]].
  unfold treatment_plan_creation. run.
  rewrite (bind_input _ _ skip rest) by exact Hs.
  rewrite Hq. run. cbn [state].
  match goal with
  | |- calls (fst (?m ?s0)) = _ =>
      assert (K : keeps calls m)
        by (unfold update_treatment_plan; calls_keeps);
      rewrite (K s0)
  end.
  reflexivity.
Qed.

(** *** Replies that cannot be decoded *)


(** *** The list of completed sections only grows *)

Lemma grows_of_keeps {B} (m : M B) :
  keeps (fun s => sections_of (state s)) m -> grows m.
Proof. intros H s. exists []. rewrite app_nil_r. apply H. Qed.

Lemma grows_bind {A B} (m : M A) (k : A -> M B) :
  grows m -> (forall a, grows (k a)) -> grows (bind m k).
Proof.
  intros Hm Hk s. unfold bind. destruct (Hm s) as [x Hx].
  destruct (m s) as [s1 [a|e|]]; cbn [fst] in *; try (exists x; exact Hx).
  destruct (Hk a s1) as [y Hy]. exists (x ++ y).
  rewrite Hy, Hx, app_assoc. reflexivity.
Qed.

Lemma grows_for_each {B} (l : list B) (f : B -> M unit) :
  (forall x, grows (f x)) -> grows (for_each l f).
Proof.
  intros Hf. induction l as [|x l IH]; cbn [for_each].
  - apply grows_of_keeps, keeps_ret.
  - apply grows_bind; auto.
Qed.

Lemma grows_append x : grows (modify_state (append_section x)).
Proof. intros s. exists [x]. reflexivity. Qed.

Ltac grows_tac :=
  repeat first
    [ apply grows_append
    | apply grows_of_keeps;
      first [ apply (keeps_input sections_of) | apply (keeps_kickoff_crew sections_of)
            | apply (keeps_new_uuid sections_of) | apply (keeps_write_file sections_of)
            | apply (keeps_modify_state sections_of); intros; reflexivity
            | apply keeps_lift | apply keeps_ret | apply keeps_raise
            | apply keeps_diverge | apply keeps_get_state | apply keeps_loads_or ]
    | match goal with
      | |- grows (bind _ _) => apply grows_bind; [|intros]
      | |- grows (for_each _ _) => apply grows_for_each; intros
      | |- grows (when ?c _) => unfold when; destruct c
      | |- grows (if ?c then _ else _) => destruct c
      | |- grows (match ?x with _ => _ end) => destruct x
      end ].

Lemma inquiry_loop_grows fuel p : forall n, grows (inquiry_loop W fuel p n).
Proof.
  induction fuel as [|fuel IH]; intros n; cbn [inquiry_loop]; grows_tac.
  - unfold inquiry_body, checked_loads, record_inquiry. grows_tac.
  - apply IH.
Qed.

Lemma elimination_loop_grows fuel a : forall loc, grows (elimination_loop W fuel a loc).
Proof.
  intros loc. apply grows_of_keeps. apply elimination_loop_sections.
Qed.

(** X3: no stage ever removes or reorders an entry of [complete_sections]:
    after each stage, and after a whole run started in any session, the list
    is the old list followed by what was appended, whether the stage
    returned, raised, or ran out of fuel. *)
Theorem complete_sections_only_grow (fuel : nat) :
  (forall s, exists x,
      sections_of (state (fst (get_user_input fuel s))) = sections_of (state s) ++ x)
  /\ (forall p s, exists x,
        sections_of (state (fst (inquiry_assistance W fuel p s)))
        = sections_of (state s) ++ x)
  /\ (forall p s, exists x,
        sections_of (state (fst (diagnosis_assistance W fuel p s)))
        = sections_of (state s) ++ x)
  /\ (forall p s, exists x,
        sections_of (state (fst (treatment_plan_creation W p s)))
        = sections_of (state s) ++ x)
  /\ (forall p s, exists x,
        sections_of (state (fst (multiagents_report W p s)))
        = sections_of (state s) ++ x)
  /\ (forall s, exists x,
        sections_of (state (fst (kickoff W fuel s))) = sections_of (state s) ++ x).
Proof.
  assert (G1 : grows (get_user_input fuel))
    by (apply grows_of_keeps, get_user_input_sections).
  assert (G2 : forall p, grows (inquiry_assistance W fuel p))
    by (intros p; unfold inquiry_assistance; grows_tac; apply inquiry_loop_grows).
  assert (G3 : forall p, grows (diagnosis_assistance W fuel p)).
  { intros p. unfold diagnosis_assistance, conclude_diagnosis, diagnosis_settle.
    grows_tac.
    - apply grows_of_keeps, diagnosis_consult_sections.
    - apply elimination_loop_grows. }
  assert (G4 : forall p, grows (treatment_plan_creation W p))
    by (intros p; unfold treatment_plan_creation, update_treatment_plan; grows_tac).
  assert (G5 : forall p, grows (multiagents_report W p))
    by (intros p; apply grows_of_keeps, multiagents_report_sections).
  split; [exact G1|]. split; [exact G2|]. split; [exact G3|].
  split; [exact G4|]. split; [exact G5|].
  unfold kickoff.
  apply grows_bind; [exact G1|intros].
  apply grows_bind; [apply G2|intros].
  apply grows_bind; [apply G3|intros].
  apply grows_bind; [apply G4|intros]. apply G5.
Qed.

(** *** The call log follows the order of the stages *)

Lemma ordered_from_weaken lo lo' l :
  lo' <= lo -> ordered_from lo l = true -> ordered_from lo' l = true.
Proof.
  destruct l as [|a l]; [reflexivity|]. cbn [ordered_from].
  rewrite !andb_true_iff, !Nat.leb_le. intros H [H1 H2]. split; [lia|exact H2].
Qed.

Lemma ordered_from_app mid : forall l1 lo l2,
  lo <= mid ->
  ordered_from lo l1 = true ->
  forallb (fun r => (r <=? mid)%nat) l1 = true ->
  ordered_from mid l2 = true ->
  ordered_from lo (l1 ++ l2) = true.
Proof.
  induction l1 as [|a l1 IH]; intros lo l2 Hlo H1 Hb H2; cbn [app].
  - exact (ordered_from_weaken _ _ _ Hlo H2).
  - cbn [ordered_from forallb] in *.
    rewrite andb_true_iff in H1, Hb. destruct H1 as [Ha H1]. destruct Hb as [Hm Hb].
    rewrite Ha. cbn [andb]. apply IH; try assumption.
    apply Nat.leb_le. exact Hm.
Qed.

Lemma bounded_weaken hi hi' l :
  hi <= hi' ->
  forallb (fun r => (r <=? hi)%nat) l = true -> forallb (fun r => (r <=? hi')%nat) l = true.
Proof.
  intros H. rewrite !forallb_forall. intros F x Hx. specialize (F x Hx).
  rewrite Nat.leb_le in *. lia.
Qed.

Lemma ordered_from_bounded : forall l lo,
  ordered_from lo l = true -> forallb (fun r => (lo <=? r)%nat) l = true.
Proof.
  induction l as [|a l IH]; intros lo; [reflexivity|].
  cbn [ordered_from forallb]. rewrite !andb_true_iff. intros [Ha H].
  split; [exact Ha|]. specialize (IH a H).
  rewrite forallb_forall in *. intros x Hx. specialize (IH x Hx).
  rewrite Nat.leb_le in *. lia.
Qed.

Lemma emits_of_keeps {B} lo hi (m : M B) : keeps calls m -> emits lo hi m.
Proof.
  intros H s. exists []. rewrite app_nil_r. split; [apply H|]. split; reflexivity.
Qed.

Lemma emits_kickoff_crew c ins : emits (rank c) (rank c) (kickoff_crew W c ins).
Proof.
  intros s. exists [mkCall c ins]. split; [reflexivity|].
  cbn. rewrite Nat.leb_refl. split; reflexivity.
Qed.

Lemma emits_bind {A B} lo mid hi (m : M A) (k : A -> M B) :
  lo <= mid -> mid <= hi ->
  emits lo mid m -> (forall a, emits mid hi (k a)) -> emits lo hi (bind m k).
Proof.
  intros Hlo Hhi Hm Hk s. unfold bind. destruct (Hm s) as (l1 & E1 & O1 & B1).
  destruct (m s) as [s1 [a|e|]]; cbn [fst] in *;
    try (exists l1; split; [exact E1|]; split;
         [exact O1 | exact (bounded_weaken _ _ _ Hhi B1)]).
  destruct (Hk a s1) as (l2 & E2 & O2 & B2).
  exists (l1 ++ l2). split; [rewrite E2, E1, app_assoc; reflexivity|].
  unfold ranks in *. rewrite map_app. split.
  - apply (ordered_from_app mid); assumption.
  - rewrite forallb_app, (bounded_weaken _ _ _ Hhi B1), B2. reflexivity.
Qed.

Lemma emits_bind_same {A B} r (m : M A) (k : A -> M B) :
  emits r r m -> (forall a, emits r r (k a)) -> emits r r (bind m k).
Proof. apply emits_bind; lia. Qed.

Lemma emits_weaken {B} lo hi lo' hi' (m : M B) :
  lo' <= lo -> hi <= hi' -> emits lo hi m -> emits lo' hi' m.
Proof.
  intros H1 H2 Hm s. destruct (Hm s) as (l & E & O & Bd).
  exists l. split; [exact E|]. split.
  - exact (ordered_from_weaken _ _ _ H1 O).
  - exact (bounded_weaken _ _ _ H2 Bd).
Qed.

Lemma emits_for_each {B} r (l : list B) (f : B -> M unit) :
  (forall x, emits r r (f x)) -> emits r r (for_each l f).
Proof.
  intros Hf. induction l as [|x l IH]; cbn [for_each].
  - apply emits_of_keeps, keeps_ret.
  - apply emits_bind_same; auto.
Qed.

Ltac emits_tac :=
  repeat first
    [ apply emits_kickoff_crew
    | apply emits_of_keeps;
      first [ apply calls_input | apply calls_modify_state | apply calls_new_uuid
            | apply calls_write_file | apply record_inquiry_calls
            | apply record_examination_calls
            | apply keeps_lift | apply keeps_ret | apply keeps_raise
            | apply keeps_diverge | apply keeps_get_state | apply keeps_loads_or ]
    | match goal with
      | |- emits _ _ (bind _ _) => apply emits_bind_same; [|intros]
      | |- emits _ _ (for_each _ _) => apply emits_for_each; intros
      | |- emits _ _ (when ?c _) => unfold when; destruct c
      | |- emits _ _ (if ?c then _ else _) => destruct c
      | |- emits _ _ (match ?x with _ => _ end) => destruct x
      end ].


Lemma inquiry_assistance_emits fuel p : emits 0 0 (inquiry_assistance W fuel p).
Proof.
  unfold inquiry_assistance.
  assert (L : forall n, emits 0 0 (inquiry_loop W fuel p n)).
  { induction fuel as [|fuel IH]; intros n; cbn [inquiry_loop]; emits_tac.
    - change 0 with (rank SupervisorLLM).
      unfold inquiry_body, checked_loads. emits_tac.
    - apply IH. }
  emits_tac. apply L.
Qed.

Lemma diagnosis_consult_emits a p : emits 1 1 (diagnosis_consult W a p).
Proof.
  change 1 with (rank DiagnosisCrew).
  unfold diagnosis_consult, show_each, single_dict. emits_tac.
Qed.

Lemma elimination_loop_emits fuel a : forall loc,
  emits 2 2 (elimination_loop W fuel a loc).
Proof.
  induction fuel as [|fuel IH]; intros loc; cbn [elimination_loop]; emits_tac.
  - change 2 with (rank PossibilitiesEliminationCrew).
    unfold elimination_body, show_each, single_dict. emits_tac.
  - apply IH.
Qed.

Lemma diagnosis_assistance_emits fuel p : emits 1 2 (diagnosis_assistance W fuel p).
Proof.
  unfold diagnosis_assistance.
  apply (emits_bind 1 1 2); [lia | lia | emits_tac | intros skip].
  destruct (String.eqb (PyStr.lower skip) "q").
  - apply emits_of_keeps. unfold conclude_diagnosis. calls_keeps.
  - apply (emits_bind 1 1 2); [lia | lia | emits_tac | intros st].
    apply (emits_bind 1 1 2); [lia | lia | apply diagnosis_consult_emits | intros loc].
    apply (emits_weaken 2 2); [lia | lia |].
    unfold diagnosis_settle, conclude_diagnosis. emits_tac.
    apply elimination_loop_emits.
Qed.

Lemma treatment_plan_creation_emits p : emits 3 3 (treatment_plan_creation W p).
Proof.
  change 3 with (rank TreatmentPlanCrew).
  unfold treatment_plan_creation, update_treatment_plan. emits_tac.
Qed.

Lemma multiagents_report_emits p : emits 4 4 (multiagents_report W p).
Proof.
  change 4 with (rank MultiAgentsReportCrew).
  unfold multiagents_report. emits_tac.
Qed.

(** X4: the agents are invoked in the order of the stages.  In every run,
    completed or not, what the run adds to the call log is ordered by rank:
    first the supervising model, then the diagnosis crew, then the
    elimination crew, then the treatment-plan crew, then the report crew;
    and each stage invokes only its own crews. *)
Theorem calls_follow_the_stages (fuel : nat) (s : Session) :
  (exists l,
      calls (fst (kickoff W fuel s)) = calls s ++ l
      /\ ordered_from 0 (ranks l) = true)
  /\ (forall p s0, exists l,
        calls (fst (inquiry_assistance W fuel p s0)) = calls s0 ++ l
        /\ forallb (fun c => Nat.eqb (rank (crew c)) 0) l = true)
  /\ (forall p s0, exists l,
        calls (fst (diagnosis_assistance W fuel p s0)) = calls s0 ++ l
        /\ ordered_from 1 (ranks l) = true
        /\ forallb (fun r => (r <=? 2)%nat) (ranks l) = true)
  /\ (forall p s0, exists l,
        calls (fst (treatment_plan_creation W p s0)) = calls s0 ++ l
        /\ forallb (fun c => Nat.eqb (rank (crew c)) 3) l = true)
  /\ (forall p s0, exists l,
        calls (fst (multiagents_report W p s0)) = calls s0 ++ l
        /\ forallb (fun c => Nat.eqb (rank (crew c)) 4) l = true).
Proof.
  assert (exact_rank : forall r l,
             ordered_from r (ranks l) = true ->
             forallb (fun x => (x <=? r)%nat) (ranks l) = true ->
             forallb (fun c => Nat.eqb (rank (crew c)) r) l = true).
  { intros r l O Bd. apply ordered_from_bounded in O.
    unfold ranks in *. rewrite forallb_forall in *. intros c Hc.
    specialize (O _ (in_map _ _ _ Hc)). specialize (Bd _ (in_map _ _ _ Hc)).
    cbv beta in *. rewrite Nat.leb_le in *. apply Nat.eqb_eq. lia. }
  split; [|split; [|split; [|split]]].
  - assert (E : emits 0 4 (kickoff W fuel)).
    { unfold kickoff.
      apply (emits_bind 0 0 4); [lia | lia | apply emits_of_keeps, get_user_input_calls | intros].
      apply (emits_bind 0 0 4); [lia | lia | apply inquiry_assistance_emits | intros].
      apply (emits_bind 0 2 4); [lia | lia | | intros].
      { apply (emits_weaken 1 2); [lia | lia | apply diagnosis_assistance_emits]. }
      apply (emits_bind 2 3 4); [lia | lia | | intros].
      { apply (emits_weaken 3 3); [lia | lia | apply treatment_plan_creation_emits]. }
      apply (emits_weaken 4 4); [lia | lia | apply multiagents_report_emits]. }
    destruct (E s) as (l & E1 & E2 & _). exists l. split; assumption.
  - intros p s0. destruct (inquiry_assistance_emits fuel p s0) as (l & E1 & E2 & E3).
    exists l. split; [exact E1 | exact (exact_rank _ _ E2 E3)].
  - intros p s0. destruct (diagnosis_assistance_emits fuel p s0) as (l & E1 & E2 & E3).
    exists l. repeat split; assumption.
  - intros p s0. destruct (treatment_plan_creation_emits p s0) as (l & E1 & E2 & E3).
    exists l. split; [exact E1 | exact (exact_rank _ _ E2 E3)].
  - intros p s0. destruct (multiagents_report_emits p s0) as (l & E1 & E2 & E3).
    exists l. split; [exact E1 | exact (exact_rank _ _ E2 E3)].
Qed.

(** *** What a completed run leaves behind *)

Lemma io_input : keeps io input.
Proof. intros s. unfold input. destruct (stdin s); reflexivity. Qed.

Lemma io_modify_state g : keeps io (modify_state g).
Proof. intros s. reflexivity. Qed.

Lemma io_kickoff_crew c ins : keeps io (kickoff_crew W c ins).
Proof. intros s. reflexivity. Qed.

Ltac io_keeps :=
  repeat first
    [ apply io_input | apply io_modify_state | apply io_kickoff_crew
    | keeps_generic ].

Lemma get_user_input_io fuel : keeps io (get_user_input fuel).
Proof.
  unfold get_user_input. io_keeps. destruct fuel; intros s; reflexivity.
Qed.

Lemma inquiry_assistance_io fuel p : keeps io (inquiry_assistance W fuel p).
Proof.
  unfold inquiry_assistance.
  assert (L : forall n, keeps io (inquiry_loop W fuel p n)).
  { induction fuel as [|fuel IH]; intros n; cbn [inquiry_loop]; io_keeps.
    - unfold inquiry_body, checked_loads, record_inquiry. io_keeps.
    - apply IH. }
  io_keeps. apply L.
Qed.

Lemma elimination_loop_io fuel a : forall loc, keeps io (elimination_loop W fuel a loc).
Proof.
  induction fuel as [|fuel IH]; intros loc; cbn [elimination_loop]; io_keeps.
  - unfold elimination_body, show_each, record_examination, single_dict. io_keeps.
  - apply IH.
Qed.

Lemma diagnosis_assistance_io fuel p : keeps io (diagnosis_assistance W fuel p).
Proof.
  unfold diagnosis_assistance, conclude_diagnosis, diagnosis_settle,
    diagnosis_consult, show_each, record_examination, single_dict.
  io_keeps. apply elimination_loop_io.
Qed.

Lemma writes_one_bind {A B} path (m : M A) (k : A -> M B) :
  keeps io m -> (forall a, writes_one path (k a)) -> writes_one path (bind m k).
Proof.
  intros Hm Hk s s' b H. apply bind_return_inv in H.
  destruct H as (s1 & a & H1 & H2). specialize (Hm s). rewrite H1 in Hm.
  cbn [fst] in Hm. unfold io in Hm. inversion Hm as [[E1 E2]].
  destruct (Hk a s1 s' b H2) as (U & text & F).
  split; [congruence|]. exists text. congruence.
Qed.

Lemma writes_one_write_file path text : writes_one path (write_file W path text).
Proof.
  intros s s' b. unfold write_file. destruct (can_open W path); intros H; inversion H.
  split; [reflexivity|]. exists text. reflexivity.
Qed.

(** What the treatment-planning stage has done when it returns. *)
Lemma treatment_plan_creation_return p s s' o :
  treatment_plan_creation W p s = (s', Return o) ->
  o = process_outline (state s')
  /\ uuids s' = S (uuids s)
  /\ exists text, files s' = (plan_path (uuid4 W (uuids s)), text) :: files s.
Proof.
  unfold treatment_plan_creation. rewrite bind_new_uuid. intros H.
  apply bind_return_inv in H. destruct H as (s2 & skip & H1 & H).
  apply bind_return_inv in H. destruct H as (s3 & u & H2 & H).
  rewrite bind_modify_state, bind_get_state in H. unfold ret in H.
  inversion H. subst. clear H. cbn [state uuids files].
  pose proof (io_input (mkSession (state s) (stdin s) (calls s) (S (uuids s)) (files s)))
    as I1.
  rewrite H1 in I1. cbn [fst] in I1. unfold io in I1. cbn [uuids files] in I1.
  inversion I1 as [[E1 E2]].
  assert (Wr : writes_one (plan_path (uuid4 W (uuids s)))
    (if String.eqb (PyStr.lower skip) "q"
     then plan <- input;;
          st <- get_state;;
          modify_state
            (set_treatment_plan
               (Py.dict_set (treatment_plan st) (PStr "manual_treatment_plan")
                  (PStr plan)));;;
          write_file W (plan_path (uuid4 W (uuids s))) plan
     else st <- get_state;;
          raw <- kickoff_crew W TreatmentPlanCrew (treatment_inputs st p);;
          dict_plan_result <- loads_or W ValueError raw;;
          update_treatment_plan dict_plan_result;;;
          write_file W (plan_path (uuid4 W (uuids s))) raw)).
  { unfold update_treatment_plan.
    destruct (String.eqb (PyStr.lower skip) "q");
      repeat match goal with
             | |- writes_one _ (bind _ _) =>
                 apply writes_one_bind; [solve [io_keeps] | intros]
             end;
      apply writes_one_write_file. }
  destruct (Wr _ _ _ H2) as (U & text & F).
  split; [reflexivity|]. split; [congruence|]. exists text. congruence.
Qed.

(** What the report stage has done when it returns. *)
Lemma multiagents_report_return p s s' r :
  multiagents_report W p s = (s', Return r) ->
  s' = mkSession (state s) (stdin s)
         (calls s ++ [mkCall MultiAgentsReportCrew (report_inputs W (state s) p)])
         (S (uuids s))
         ((report_path (uuid4 W (uuids s)), agent_reply W (length (calls s)))
            :: files s).
Proof.
  unfold multiagents_report. run. unfold bind, write_file. cbn [uuids].
  destruct (can_open W (report_path (uuid4 W (uuids s)))); intros H; inversion H.
  reflexivity.
Qed.

(** X5: a completed run has drawn two identifiers and written exactly two
    files: first the plan, under [treatment_plans/] with the first
    identifier, then the report, under [summary_reports/] with the second;
    the report file holds the raw reply of the last agent invoked, and the
    two paths differ whatever the identifiers are. *)
Theorem run_writes_two_files (fuel : nat) (console : list string)
    (s' : Session) (r : string) :
  kickoff W fuel (initial_session console) = (s', Return r) ->
  uuids s' = 2
  /\ (exists plan_text,
        files s' = [(report_path (uuid4 W 1),
                     agent_reply W (length (calls s') - 1));
                    (plan_path (uuid4 W 0), plan_text)])
  /\ (forall a b, report_path a <> plan_path b).
Proof.
  unfold kickoff. intros H.
  apply bind_return_inv in H. destruct H as (s1 & p_state & H1 & H).
  apply bind_return_inv in H. destruct H as (s2 & p_outline & H2 & H).
  apply bind_return_inv in H. destruct H as (s3 & p_diag & H3 & H).
  apply bind_return_inv in H. destruct H as (s4 & p_outline' & H4 & H5).
  pose proof (get_user_input_io fuel (initial_session console)) as E1.
  rewrite H1 in E1. cbn [fst] in E1.
  pose proof (inquiry_assistance_io fuel p_state s1) as E2.
  rewrite H2 in E2. cbn [fst] in E2.
  pose proof (diagnosis_assistance_io fuel p_outline s2) as E3.
  rewrite H3 in E3. cbn [fst] in E3.
  rewrite E2, E1 in E3. unfold io in E3. cbn [uuids files initial_session] in E3.
  pose proof (f_equal fst E3) as U3. pose proof (f_equal snd E3) as F3.
  cbn [fst snd] in U3, F3.
  destruct (treatment_plan_creation_return _ _ _ _ H4) as (_ & U4 & text & F4).
  rewrite U3 in U4, F4. rewrite F3 in F4.
  apply multiagents_report_return in H5. subst s'. cbn [uuids files calls].
  rewrite U4, F4. split; [reflexivity|]. split.
  - exists text. rewrite length_app. cbn [length].
    replace (length (calls s4) + 1 - 1) with (length (calls s4)) by lia.
    reflexivity.
  - intros a b E. unfold report_path, plan_path in E. cbn in E. discriminate E.
Qed.

(** X6: in a completed run the report crew is the last agent invoked, and
    its inputs are read from the flow state as the run leaves it: the stored
    diagnosis, the stored treatment plan and the list of completed sections
    are those of the final state. *)
Theorem report_sees_final_state (fuel : nat) (console : list string)
    (s' : Session) (r : string) :
  kickoff W fuel (initial_session console) = (s', Return r) ->
  let ins := report_inputs W (state s') (process_outline (state s')) in
  (exists earlier, calls s' = earlier ++ [mkCall MultiAgentsReportCrew ins])
  /\ binding "diagnosis_result" ins = Some (PDict (diagnosis_result (state s')))
  /\ binding "treatment_plan" ins = Some (PDict (treatment_plan (state s')))
  /\ binding "complete_sections" ins
     = Some (PStr (json_dumps W (PList (map PStr (sections_of (state s')))))).
Proof.
  intros H ins. unfold kickoff in H.
  split; [|split; [reflexivity | split; reflexivity]].
  apply bind_return_inv in H. destruct H as (s1 & p_state & H1 & H).
  apply bind_return_inv in H. destruct H as (s2 & p_outline & H2 & H).
  apply bind_return_inv in H. destruct H as (s3 & p_diag & H3 & H).
  apply bind_return_inv in H. destruct H as (s4 & p_outline' & H4 & H5).
  destruct (treatment_plan_creation_return _ _ _ _ H4) as (O & _).
  apply multiagents_report_return in H5. subst s' p_outline'.
  exists (calls s4). reflexivity.
Qed.

(** *** Single passes of the stages *)

(** X7: when the inquiry is not yet marked complete and the first reply,
    once cleaned, is an object that suggests no supplementary inquiry and
    says, in any letter case, that the inquiry is complete, the stage returns
    after that single invocation, without reading the console: the analysis
    is stored under ["inquiry_analysis"] and ["initial_inquiry"] is appended. *)
Theorem inquiry_completes_on_yes (fuel : nat) (p_state : PatientState)
    (s : Session) (cleaned : string) (d : dict) (a : string) :
  ~ In "initial_inquiry" (sections_of (state s)) ->
  clean_and_parse_json (agent_reply W (length (calls s))) = cleaned ->
  PyStr.is_empty (PyStr.strip cleaned) = false ->
  PyStr.startswith "{" (PyStr.strip cleaned) = true ->
  json_loads W cleaned = Decoded (PDict d) ->
  Py.len (Py.dict_get_or d "supplementary_inquiries" (PStr "无补充问诊")) = Return 0 ->
  Py.dict_get_or d "inquiry_complete" (PStr "") = PStr a ->
  PyStr.lower a = "yes"%string ->
  let s' :=
    mkSession
      (append_section "initial_inquiry"
         (set_supplementary_inquiries
            (Py.dict_set (supplementary_inquiries (process_outline (state s)))
               (PStr "inquiry_analysis")
               (Py.dict_get_or d "inquiry_analysis" (PStr "无问诊总结")))
            (state s)))
      (stdin s)
      (calls s ++ [mkCall SupervisorLLM (inquiry_messages p_state (state s))])
      (uuids s) (files s) in
  inquiry_assistance W (S fuel) p_state s = (s', Return (process_outline (state s'))).
Proof.
  intros Hin Hc He Hb Hj Hl Hy Ha s'.
  assert (B : inquiry_body W p_state s = (s', Return tt)).
  { unfold inquiry_body. run. unfold checked_loads. rewrite Hc, He, Hb.
    cbn [negb]. unfold loads_or. rewrite Hj. run. cbn [Py.get]. run.
    unfold record_inquiry. run. cbn [Py.setitem Py.hashable]. run.
    rewrite Hl. run. cbn [Nat.ltb Nat.leb when]. run.
    rewrite Hy. cbn [Py.lower]. run. rewrite Ha. reflexivity. }
  unfold inquiry_assistance.
  assert (G : inquiry_guard 0 (state s) = true)
    by (apply inquiry_guard_true; split; [exact Hin | lia]).
  unfold bind at 1. rewrite (inquiry_loop_step _ _ _ _ G).
  unfold bind at 1. rewrite B.
  rewrite inquiry_loop_exit; [reflexivity|].
  apply inquiry_guard_done. unfold s', sections_of. cbn.
  apply in_or_app. right. left. reflexivity.
Qed.

(** X8: a cleaned reply that is an object without the key
    ["supplementary_inquiries"] makes the pass raise [TypeError]: the length
    test reads the key with a text as default, the loop bound reads it again
    without one and takes the length of [None].  The analysis has been
    stored by then. *)
Theorem inquiry_reply_without_suggestions (p_state : PatientState)
    (s : Session) (cleaned : string) (d : dict) :
  clean_and_parse_json (agent_reply W (length (calls s))) = cleaned ->
  PyStr.is_empty (PyStr.strip cleaned) = false ->
  PyStr.startswith "{" (PyStr.strip cleaned) = true ->
  json_loads W cleaned = Decoded (PDict d) ->
  Py.dict_get d (PStr "supplementary_inquiries") = None ->
  inquiry_body W p_state s
  = (mkSession
       (set_supplementary_inquiries
          (Py.dict_set (supplementary_inquiries (process_outline (state s)))
             (PStr "inquiry_analysis")
             (Py.dict_get_or d "inquiry_analysis" (PStr "无问诊总结")))
          (state s))
       (stdin s)
       (calls s ++ [mkCall SupervisorLLM (inquiry_messages p_state (state s))])
       (uuids s) (files s),
     Raise TypeError).
Proof.
  intros Hc He Hb Hj Hk.
  unfold inquiry_body. run. unfold checked_loads. rewrite Hc, He, Hb.
  cbn [negb]. unfold loads_or. rewrite Hj. run. cbn [Py.get]. run.
  unfold record_inquiry. run. cbn [Py.setitem Py.hashable]. run.
  unfold Py.dict_get_or at 1 2. rewrite Hk. run.
  reflexivity.
Qed.

(** X9: when the operator answers [q] to the first prompt of the diagnosis
    stage, the next two console lines become the conclusion and the basis of
    the stored diagnosis, the stage is marked complete, and no agent is
    invoked, with any fuel. *)
Theorem manual_diagnosis_bypass (fuel : nat) (p_outline : ProcessOutline)
    (s : Session) (skip conclusion basis : string) (rest : list string) :
  stdin s = skip :: conclusion :: basis :: rest ->
  PyStr.lower skip = "q"%string ->
  let result := [(PStr "diagnosis_conclusion", PStr conclusion);
                 (PStr "diagnosis_basis", PStr basis)] in
  diagnosis_assistance W fuel p_outline s
  = (mkSession (append_section "diagnosis" (set_diagnosis_result result (state s)))
               rest (calls s) (uuids s) (files s),
     Return result).
Proof.
  intros Hs Hq result. unfold diagnosis_assistance.
  rewrite (bind_input _ _ skip (conclusion :: basis :: rest)) by exact Hs.
  rewrite Hq. cbn [String.eqb Ascii.eqb Bool.eqb].
  rewrite (bind_input _ _ conclusion (basis :: rest)) by reflexivity.
  rewrite (bind_input _ _ basis rest) by reflexivity.
  reflexivity.
Qed.

(** X10: a reply of the diagnosis crew that decodes to something other
    than an object (an array, a text, a number) makes the stage raise
    [AttributeError] at the first [.get], with the flow state untouched. *)
Theorem diagnosis_reply_not_an_object (fuel : nat) (p_outline : ProcessOutline)
    (s : Session) (skip : string) (rest : list string) (v : pyval) :
  stdin s = skip :: rest ->
  String.eqb (PyStr.lower skip) "q" = false ->
  json_loads W (agent_reply W (length (calls s))) = Decoded v ->
  is_dict v = false ->
  diagnosis_assistance W fuel p_outline s
  = (log_call DiagnosisCrew
       (diagnosis_inputs (audience_level (state s)) (state s) p_outline)
       (with_stdin rest s),
     Raise AttributeError).
Proof.
  intros Hs Hq Hj Hv. unfold diagnosis_assistance.
  rewrite (bind_input _ _ skip rest) by exact Hs.
  rewrite Hq. run. unfold diagnosis_consult. run.
  unfold loads_or. cbn [calls state]. rewrite Hj. run.
  destruct v; try discriminate Hv; reflexivity.
Qed.

(** X11: a reply of the elimination crew that asks for further inquiries
    but lists no alternative any more ends the loop after that pass, without
    reading the console: the conclusion and the basis are those of the reply
    and the text of the alternatives passed to the crew is left as it was. *)
Theorem elimination_stops_on_empty_list (fuel : nat) (a : string)
    (loc : DiagLocals) (s : Session) (d : dict) (answer : string) :
  ready_to_treatment_plan loc = false ->
  json_loads W (agent_reply W (length (calls s))) = Decoded (PDict d) ->
  Py.dict_get_or d "further_inquiries_needed" (PStr "unknown") = PStr answer ->
  String.eqb (PyStr.lower answer) "no" = false ->
  Py.len (Py.dict_get_or d "other_diagnosis_possibility" (PList [])) = Return 0 ->
  elimination_loop W (S fuel) a loc s
  = (log_call PossibilitiesEliminationCrew (elimination_inputs a loc (state s)) s,
     Return (mkDiagLocals
               (Py.dict_get_or d "diagnosis_conclusion" (PStr "无更新诊断结论"))
               (Py.dict_get_or d "diagnosis_basis" (PStr "无更新诊断依据"))
               (Py.dict_get_or d "other_diagnosis_possibility" (PList []))
               (str_of_other_diagnosis_possibility loc)
               (suggested_dialectics loc) true)).
Proof.
  intros Hr Hj Hf Hn Hl.
  rewrite (elimination_loop_step _ _ _ _ Hr).
  unfold elimination_body. run.
  unfold loads_or. rewrite Hj. run.
  cbn [Py.get]. run. rewrite Hf. cbn [Py.lower]. run. rewrite Hn.
  run. rewrite Hl. run. cbn [Nat.eqb]. run.
  apply elimination_loop_ready. reflexivity.
Qed.

(** *** The elimination loop and the console *)

Lemma reads_of_keeps {B} (m : M B) : keeps stdin m -> reads m.
Proof. intros H s. rewrite H. lia. Qed.

Lemma stdin_modify_state g : keeps stdin (modify_state g).
Proof. intros s. reflexivity. Qed.

Lemma stdin_kickoff_crew c ins : keeps stdin (kickoff_crew W c ins).
Proof. intros s. reflexivity. Qed.

Lemma reads_input : reads input.
Proof.
  intros s. unfold input. destruct (stdin s) eqn:E; cbn [fst stdin];
    rewrite ?E; cbn [length]; lia.
Qed.

Lemma reads_bind {A B} (m : M A) (k : A -> M B) :
  reads m -> (forall a, reads (k a)) -> reads (bind m k).
Proof.
  intros Hm Hk s. unfold bind. specialize (Hm s).
  destruct (m s) as [s1 [a|e|]]; cbn [fst] in *; try assumption.
  specialize (Hk a s1). lia.
Qed.

Lemma reads_for_each {B} (l : list B) (f : B -> M unit) :
  (forall x, reads (f x)) -> reads (for_each l f).
Proof.
  intros Hf. induction l as [|x l IH]; cbn [for_each].
  - apply reads_of_keeps, keeps_ret.
  - apply reads_bind; auto.
Qed.

Ltac reads_tac :=
  repeat first
    [ apply reads_input
    | apply reads_of_keeps;
      first [ apply stdin_modify_state | apply stdin_kickoff_crew
            | apply keeps_lift | apply keeps_ret | apply keeps_raise
            | apply keeps_diverge | apply keeps_get_state | apply keeps_loads_or ]
    | match goal with
      | |- reads (bind _ _) => apply reads_bind; [|intros]
      | |- reads (for_each _ _) => apply reads_for_each; intros
      | |- reads (when ?c _) => unfold when; destruct c
      | |- reads (if ?c then _ else _) => destruct c
      | |- reads (match ?x with _ => _ end) => destruct x
      end ].

Lemma reads_some_input : reads_some input.
Proof.
  intros s s' b. unfold input. destruct (stdin s) as [|l rest];
    intros H; inversion H. cbn. lia.
Qed.

Lemma reads_some_bind {A B} (m : M A) (k : A -> M B) :
  reads_some m -> (forall a, reads (k a)) -> reads_some (bind m k).
Proof.
  intros Hm Hk s s' b H. apply bind_return_inv in H.
  destruct H as (s1 & a & H1 & H2). specialize (Hm _ _ _ H1).
  specialize (Hk a s1). rewrite H2 in Hk. cbn [fst] in Hk. lia.
Qed.

Lemma ends_or_reads_bind {A B} done (m : M A) (k : A -> M B) :
  reads m -> (forall a, ends_or_reads done (k a)) -> ends_or_reads done (bind m k).
Proof.
  intros Hm Hk s s' b H. apply bind_return_inv in H.
  destruct H as (s1 & a & H1 & H2). specialize (Hm s). rewrite H1 in Hm.
  cbn [fst] in Hm. destruct (Hk a s1 s' b H2) as [D|L]; [left; exact D | right; lia].
Qed.

Lemma ends_or_reads_ret {B} (done : B -> bool) b :
  done b = true -> ends_or_reads done (ret b).
Proof. intros D s s' b' H. inversion H. subst. left. exact D. Qed.

(** A pass that does not end the loop has asked the operator something. *)
Lemma elimination_body_progress a loc :
  ends_or_reads ready_to_treatment_plan (elimination_body W a loc).
Proof.
  unfold elimination_body, show_each, record_examination, single_dict.
  do 7 (apply ends_or_reads_bind; [solve [reads_tac] | intros]).
  match goal with |- ends_or_reads _ (if ?c then _ else _) => destruct c end;
    [apply ends_or_reads_ret; reflexivity|].
  do 2 (apply ends_or_reads_bind; [solve [reads_tac] | intros]).
  match goal with |- ends_or_reads _ (if ?c then _ else _) => destruct c end;
    [apply ends_or_reads_ret; reflexivity|].
  do 6 (apply ends_or_reads_bind; [solve [reads_tac] | intros]).
  intros s s' b H. right. revert s s' b H.
  apply reads_some_bind; [apply reads_some_input | intros; reads_tac].
Qed.

Lemma elimination_body_total a loc : total (elimination_body W a loc).
Proof.
  unfold elimination_body, show_each, record_examination, single_dict.
  total_tac; apply total_lift, join_possibilities_total.
Qed.

Lemma elimination_body_calls a loc s :
  calls (fst (elimination_body W a loc s))
  = calls s ++ [mkCall PossibilitiesEliminationCrew (elimination_inputs a loc (state s))].
Proof.
  unfold elimination_body. rewrite bind_get_state, bind_kickoff_crew.
  match goal with
  | |- calls (fst (?m ?s1)) = _ =>
      assert (K : keeps calls m)
        by (unfold show_each, single_dict; calls_keeps;
            apply record_examination_calls);
      rewrite (K s1)
  end.
  reflexivity.
Qed.

Lemma elimination_loop_bound a : forall fuel loc s,
  length (stdin s) < fuel ->
  snd (elimination_loop W fuel a loc s) <> Diverge
  /\ length (calls (fst (elimination_loop W fuel a loc s)))
     <= length (calls s) + length (stdin s) + 1.
Proof.
  induction fuel as [|fuel IH]; intros loc s Hf; [lia|].
  destruct (ready_to_treatment_plan loc) eqn:R.
  - rewrite elimination_loop_ready by exact R. cbn [fst snd].
    split; [discriminate | lia].
  - rewrite (elimination_loop_step _ _ _ _ R). unfold bind.
    pose proof (elimination_body_progress a loc s) as P.
    pose proof (elimination_body_total a loc s) as T.
    pose proof (elimination_body_calls a loc s) as C.
    destruct (elimination_body W a loc s) as [s1 [loc'|e|]]; cbn [fst snd] in *.
    + assert (L : length (calls s1) = length (calls s) + 1)
        by (rewrite C, length_app; reflexivity).
      destruct (P s1 loc' eq_refl) as [D|D].
      * rewrite elimination_loop_ready by exact D. cbn [fst snd].
        split; [discriminate | lia].
      * destruct (IH loc' s1) as [I1 I2]; [lia|]. split; [exact I1 | lia].
    + assert (L : length (calls s1) = length (calls s) + 1)
        by (rewrite C, length_app; reflexivity).
      split; [discriminate | lia].
    + exfalso. apply T. reflexivity.
Qed.

(** X12: the elimination loop cannot go on without the operator.  Every
    pass that does not end the loop reads at least one console line, so with
    more fuel than there are console lines left the loop always ends
    (returning, or raising, for instance at the end of the console), after
    at most one invocation per line left, plus one. *)
Theorem elimination_loop_needs_operator (fuel : nat) (a : string)
    (loc : DiagLocals) (s : Session) :
  length (stdin s) < fuel ->
  snd (elimination_loop W fuel a loc s) <> Diverge
  /\ length (calls (fst (elimination_loop W fuel a loc s)))
     <= length (calls s) + length (stdin s) + 1
  /\ (forall s1 loc1,
        elimination_body W a loc s = (s1, Return loc1) ->
        ready_to_treatment_plan loc1 = false ->
        length (stdin s1) < length (stdin s)).
Proof.
  intros Hf. destruct (elimination_loop_bound a fuel loc s Hf) as [H1 H2].
  split; [exact H1|]. split; [exact H2|].
  intros s1 loc1 Hb Hr.
  destruct (elimination_body_progress a loc s s1 loc1 Hb) as [D|D]; [congruence|exact D].
Qed.

(** *** Dictionaries of the session *)

Lemma key_eqb_class a b :
  Py.key_eqb a b = true <->
  key_class a = key_class b /\ key_class a <> KUnhashable.
Proof.
  destruct a as [|[|]|z|x|l|d], b as [|[|]|z'|y|l'|d'];
    cbv [Py.key_eqb Py.int_of_key key_class];
    rewrite ?Z.eqb_eq, ?String.eqb_eq;
    (split; [intros H; first [discriminate | split; [congruence | discriminate]]
            | intros [H H']; congruence]).
Qed.

Lemma hashable_class k : Py.hashable k = true <-> key_class k <> KUnhashable.
Proof.
  destruct k as [|[|]|z|x|l|d]; cbn; split; intros H; try discriminate;
    try reflexivity; try congruence.
Qed.

(** Reading a dictionary after storing under a key. *)
Lemma dict_get_dict_set k v k' : forall d,
  Py.hashable k = true ->
  Py.dict_get (Py.dict_set d k v) k'
  = if Py.key_eqb k k' then Some v else Py.dict_get d k'.
Proof.
  intros d Hk. apply hashable_class in Hk.
  induction d as [|[k0 v0] d IH]; cbn [Py.dict_set Py.dict_get]; [reflexivity|].
  destruct (Py.key_eqb k0 k) eqn:E0; cbn [Py.dict_get].
  - apply key_eqb_class in E0. destruct E0 as [C0 N0].
    destruct (Py.key_eqb k0 k') eqn:E1, (Py.key_eqb k k') eqn:E2; try reflexivity.
    + exfalso. apply key_eqb_class in E1. destruct E1 as [A1 A2].
      assert (C : Py.key_eqb k k' = true) by (apply key_eqb_class; split; congruence).
      congruence.
    + exfalso. apply key_eqb_class in E2. destruct E2 as [B1 B2].
      assert (C : Py.key_eqb k0 k' = true) by (apply key_eqb_class; split; congruence).
      congruence.
  - rewrite IH. destruct (Py.key_eqb k0 k') eqn:E1, (Py.key_eqb k k') eqn:E2;
      try reflexivity.
    exfalso. apply key_eqb_class in E1. apply key_eqb_class in E2.
    destruct E1 as [A1 A2]. destruct E2 as [B1 B2].
    assert (C : Py.key_eqb k0 k = true) by (apply key_eqb_class; split; congruence).
    congruence.
Qed.

Lemma dict_get_app_one k v k' : forall l,
  Py.dict_get (l ++ [(k, v)]) k'
  = match Py.dict_get l k' with
    | Some x => Some x
    | None => if Py.key_eqb k k' then Some v else None
    end.
Proof.
  induction l as [|[k0 v0] l IH]; cbn [app Py.dict_get]; [reflexivity|].
  destruct (Py.key_eqb k0 k'); [reflexivity | exact IH].
Qed.

(** Reading a dictionary after [update] with a dictionary: the last value
    given to the key wins, and keys not given keep their value. *)
Lemma dict_get_update k' : forall kvs d,
  (forall kv, In kv kvs -> Py.hashable (fst kv) = true) ->
  Py.dict_get (fold_left (fun acc kv => Py.dict_set acc (fst kv) (snd kv)) kvs d) k'
  = match Py.dict_get (rev kvs) k' with
    | Some v => Some v
    | None => Py.dict_get d k'
    end.
Proof.
  induction kvs as [|[k v] kvs IH]; intros d H; [reflexivity|].
  cbn [fold_left fst snd rev]. rewrite IH by (intros; apply H; right; assumption).
  rewrite dict_get_app_one.
  destruct (Py.dict_get (rev kvs) k'); [reflexivity|].
  rewrite dict_get_dict_set by exact (H (k, v) (or_introl eq_refl)).
  destruct (Py.key_eqb k k'); reflexivity.
Qed.

(** X13: when the operator does not bypass treatment planning, the reply
    decodes to an object and the plan file can be opened, the stage returns;
    the raw reply is the content of the plan file, and the stored treatment
    plan is the old one updated with the reply: under every key the reply
    gives, its (last) value; under every other key, the old value. *)
Theorem treatment_plan_merges_reply (p_diagnosis_result : dict) (s : Session)
    (skip : string) (rest : list string) (kvs : dict) :
  stdin s = skip :: rest ->
  String.eqb (PyStr.lower skip) "q" = false ->
  json_loads W (agent_reply W (length (calls s))) = Decoded (PDict kvs) ->
  (forall kv, In kv kvs -> Py.hashable (fst kv) = true) ->
  can_open W (plan_path (uuid4 W (uuids s))) = true ->
  exists s',
    treatment_plan_creation W p_diagnosis_result s
    = (s', Return (process_outline (state s')))
    /\ files s' = (plan_path (uuid4 W (uuids s)), agent_reply W (length (calls s)))
                  :: files s
    /\ (forall k,
          Py.dict_get (treatment_plan (state s')) k
          = match Py.dict_get (rev kvs) k with
            | Some v => Some v
            | None => Py.dict_get (treatment_plan (state s)) k
            end)
    /\ sections_of (state s') = sections_of (state s) ++ ["treatment plan"%string].
Proof.
  intros Hs Hq Hj Hk Ho. unfold treatment_plan_creation. run.
  rewrite (bind_input _ _ skip rest) by exact Hs. cbv beta.
  rewrite Hq. run. unfold loads_or. cbn [calls state]. rewrite Hj. run.
  unfold update_treatment_plan. run. cbn [Py.update fst snd state]. run.
  unfold bind at 1. unfold write_file. cbn [uuids]. rewrite Ho. run.
  eexists. split; [reflexivity|]. cbn [files state].
  split; [reflexivity|]. split; [|reflexivity].
  intros k. cbn. apply dict_get_update. exact Hk.
Qed.

(** *** Supplementary inquiries *)

Lemma decline_all (qs : list pyval) (rest : list string) : forall n k s,
  k + n <= length qs ->
  stdin s = repeat ""%string n ++ rest ->
  for_each (seq k n)
    (fun i =>
       question <- lift (Py.getitem (PList qs) i) ;;
       supplementary_anwser <- input ;;
       when (negb (PyStr.is_empty supplementary_anwser))
         (record_inquiry question (PStr supplementary_anwser))) s
  = (with_stdin rest s, Return tt).
Proof.
  induction n as [|n IH]; intros k s Hk Hs.
  - cbn in Hs. destruct s. cbn in *. subst. reflexivity.
  - cbn [seq for_each]. rewrite bind_assoc. cbn [Py.getitem].
    destruct (nth_error qs k) eqn:E; [|apply nth_error_None in E; lia].
    run.
    rewrite (bind_input _ _ ""%string (repeat ""%string n ++ rest)) by exact Hs.
    cbv beta. cbn [PyStr.is_empty negb when]. run.
    rewrite IH; [reflexivity | lia | reflexivity].
Qed.

(** X14: when the operator answers every suggested supplementary inquiry
    with an empty line, the pass reads exactly one line per suggestion and
    records nothing but the analysis; the stage is marked complete exactly
    when the reply says so. *)
Theorem declined_suggestions_record_nothing (p_state : PatientState)
    (s : Session) (cleaned : string) (d : dict) (qs : list pyval)
    (rest : list string) (a : string) :
  clean_and_parse_json (agent_reply W (length (calls s))) = cleaned ->
  PyStr.is_empty (PyStr.strip cleaned) = false ->
  PyStr.startswith "{" (PyStr.strip cleaned) = true ->
  json_loads W cleaned = Decoded (PDict d) ->
  Py.dict_get d (PStr "supplementary_inquiries") = Some (PList qs) ->
  stdin s = repeat ""%string (length qs) ++ rest ->
  Py.dict_get_or d "inquiry_complete" (PStr "") = PStr a ->
  let recorded :=
    set_supplementary_inquiries
      (Py.dict_set (supplementary_inquiries (process_outline (state s)))
         (PStr "inquiry_analysis")
         (Py.dict_get_or d "inquiry_analysis" (PStr "无问诊总结")))
      (state s) in
  inquiry_body W p_state s
  = (mkSession
       (if String.eqb (PyStr.lower a) "yes"
        then append_section "initial_inquiry" recorded else recorded)
       rest
       (calls s ++ [mkCall SupervisorLLM (inquiry_messages p_state (state s))])
       (uuids s) (files s),
     Return tt).
Proof.
  intros Hc He Hb Hj Hk Hs Hy recorded.
  unfold inquiry_body. run. unfold checked_loads. rewrite Hc, He, Hb.
  cbn [negb]. unfold loads_or. rewrite Hj. run. cbn [Py.get]. run.
  unfold record_inquiry. run. cbn [Py.setitem Py.hashable]. run.
  unfold Py.dict_get_or at 1 2. rewrite Hk. cbn [Py.len]. run.
  rewrite Hy. cbn [Py.lower].
  destruct qs as [|q qs].
  - cbn [length Nat.ltb Nat.leb when]. run. cbn in Hs. rewrite Hs.
    unfold Py.lower. run.
    unfold when. destruct (String.eqb (PyStr.lower a) "yes"); reflexivity.
  - change (0 <? length (q :: qs))%nat with true. cbn [when].
    run. cbn [Py.len]. run. unfold bind at 1.
    rewrite (decline_all (q :: qs) rest (length (q :: qs)) 0); [|lia|exact Hs].
    cbn [with_stdin state stdin calls uuids files]. unfold Py.lower. run.
    unfold when. destruct (String.eqb (PyStr.lower a) "yes"); reflexivity.
Qed.

(** X15: when the reply suggests one supplementary inquiry that is an
    object or a list rather than a text, and the operator answers it, the
    pass raises [TypeError] at the store: such a value cannot be a
    dictionary key.  The answer has been read and the analysis stored by
    then. *)
Theorem answered_suggestion_must_be_a_key (p_state : PatientState)
    (s : Session) (cleaned : string) (d : dict) (q : pyval)
    (answer : string) (rest : list string) :
  clean_and_parse_json (agent_reply W (length (calls s))) = cleaned ->
  PyStr.is_empty (PyStr.strip cleaned) = false ->
  PyStr.startswith "{" (PyStr.strip cleaned) = true ->
  json_loads W cleaned = Decoded (PDict d) ->
  Py.dict_get d (PStr "supplementary_inquiries") = Some (PList [q]) ->
  stdin s = answer :: rest ->
  PyStr.is_empty answer = false ->
  Py.hashable q = false ->
  inquiry_body W p_state s
  = (mkSession
       (set_supplementary_inquiries
          (Py.dict_set (supplementary_inquiries (process_outline (state s)))
             (PStr "inquiry_analysis")
             (Py.dict_get_or d "inquiry_analysis" (PStr "无问诊总结")))
          (state s))
       rest
       (calls s ++ [mkCall SupervisorLLM (inquiry_messages p_state (state s))])
       (uuids s) (files s),
     Raise TypeError).
Proof.
  intros Hc He Hb Hj Hk Hs Ha Hq.
  unfold inquiry_body. run. unfold checked_loads. rewrite Hc, He, Hb.
  cbn [negb]. unfold loads_or. rewrite Hj. run. cbn [Py.get]. run.
  unfold record_inquiry. run. cbn [Py.setitem Py.hashable]. run.
  unfold Py.dict_get_or at 1 2. rewrite Hk. cbn [Py.len length]. run.
  cbn [Nat.ltb Nat.leb when]. run. cbn [Py.len length seq for_each]. run.
  cbn [Py.getitem]. change (seq 0 1) with [0]. cbn [for_each]. cbv beta.
  cbn [nth_error]. run. cbn [state stdin calls uuids files].
  rewrite (bind_input _ _ answer rest) by exact Hs. cbv beta.
  rewrite Ha. cbn [negb when]. run. unfold Py.setitem. rewrite Hq.
  reflexivity.
Qed.

(** *** What one elimination pass hands to the next *)

Lemma hands_on_bind {A} (m : M A) (k : A -> M DiagLocals) :
  keeps (fun s => dialectics_of (state s)) m ->
  (forall a, hands_on (k a)) -> hands_on (bind m k).
Proof.
  intros Hm Hk s s' b H. apply bind_return_inv in H.
  destruct H as (s1 & x & H1 & H2). specialize (Hm s). rewrite H1 in Hm.
  cbn [fst] in Hm. rewrite <- Hm. exact (Hk x s1 s' b H2).
Qed.

Lemma hands_on_ret b : ready_to_treatment_plan b = true -> hands_on (ret b).
Proof. intros D s s' b' H. inversion H. subst. left. exact D. Qed.

Lemma elimination_body_hands_on a loc : hands_on (elimination_body W a loc).
Proof.
  unfold elimination_body, show_each, record_examination.
  do 7 (apply hands_on_bind; [solve [state_keeps dialectics_of] | intros]).
  match goal with |- hands_on (if ?c then _ else _) => destruct c end;
    [apply hands_on_ret; reflexivity|].
  do 2 (apply hands_on_bind; [solve [state_keeps dialectics_of] | intros]).
  match goal with |- hands_on (if ?c then _ else _) => destruct c end;
    [apply hands_on_ret; reflexivity|].
  do 7 (apply hands_on_bind; [solve [state_keeps dialectics_of] | intros]).
  intros s s' b H.
  match type of H with context [PyStr.is_empty ?x] => destruct (PyStr.is_empty x) eqn:E end;
    cbn [negb] in H.
  - rewrite bind_ret in H. inversion H. subst. right. left. split; reflexivity.
  - unfold single_dict in H.
    match type of H with context [Py.hashable ?q] => destruct (Py.hashable q) end;
      [|discriminate H].
    rewrite ?bind_assoc, ?bind_ret, ?bind_modify_state in H; cbv beta in H.
    rewrite ?bind_assoc, ?bind_ret, ?bind_modify_state in H; cbv beta in H.
    inversion H. subst. right. right.
    eexists. eexists. split; [exact E|]. split; reflexivity.
Qed.

(** X17: when a pass of the elimination loop returns and the loop goes on,
    the question/answer pair the next invocation receives is never an
    earlier one: it is the empty dictionary when the operator left the
    suggested question unanswered (and then nothing was recorded), and
    otherwise the single pair just recorded at the end of the list. *)
Theorem elimination_passes_on_last_answer (a : string) (loc loc1 : DiagLocals)
    (s s1 : Session) :
  elimination_body W a loc s = (s1, Return loc1) ->
  ready_to_treatment_plan loc1 = false ->
  let next :=
    binding "suggested_question_and_answer" (elimination_inputs a loc1 (state s1)) in
  (next = Some (PDict [])
   /\ dialectics_of (state s1) = dialectics_of (state s))
  \/ (exists q ans,
        PyStr.is_empty ans = false
        /\ next = Some (PDict [(q, PStr ans)])
        /\ dialectics_of (state s1) = dialectics_of (state s) ++ [PDict [(q, PStr ans)]]).
Proof.
  intros H R next.
  assert (N : next = Some (suggested_dialectics loc1)) by reflexivity.
  rewrite N.
  destruct (elimination_body_hands_on a loc s s1 loc1 H) as [D|[[A B]|(q & ans & E & A & B)]].
  - congruence.
  - left. rewrite A. split; [reflexivity | exact B].
  - right. exists q, ans. rewrite A. split; [exact E|]. split; [reflexivity | exact B].
Qed.

(** *** The console lines a run needs *)

Lemma stdin_new_uuid : keeps stdin (new_uuid W).
Proof. intros s. reflexivity. Qed.

Lemma stdin_write_file path text : keeps stdin (write_file W path text).
Proof. intros s. unfold write_file. destruct (can_open W path); reflexivity. Qed.

Lemma reads_some_after {A B} (m : M A) (k : A -> M B) :
  reads m -> (forall a, reads_some (k a)) -> reads_some (bind m k).
Proof.
  intros Hm Hk s s' b H. apply bind_return_inv in H.
  destruct H as (s1 & a & H1 & H2). specialize (Hm s). rewrite H1 in Hm.
  cbn [fst] in Hm. specialize (Hk a _ _ _ H2). lia.
Qed.

Ltac reads_io :=
  repeat first
    [ apply reads_of_keeps; first [apply stdin_new_uuid | apply stdin_write_file]
    | progress reads_tac ].

Lemma get_user_input_reads fuel : reads (get_user_input fuel).
Proof.
  unfold get_user_input. reads_io.
  destruct fuel; apply reads_of_keeps; intros s; reflexivity.
Qed.

Lemma inquiry_assistance_reads fuel p : reads (inquiry_assistance W fuel p).
Proof.
  unfold inquiry_assistance.
  assert (L : forall n, reads (inquiry_loop W fuel p n)).
  { induction fuel as [|fuel IH]; intros n; cbn [inquiry_loop]; reads_io.
    - unfold inquiry_body, checked_loads, record_inquiry. reads_io.
    - apply IH. }
  reads_io. apply L.
Qed.

Lemma elimination_loop_reads fuel a : forall loc, reads (elimination_loop W fuel a loc).
Proof.
  induction fuel as [|fuel IH]; intros loc; cbn [elimination_loop]; reads_io.
  - unfold elimination_body, show_each, record_examination, single_dict. reads_io.
  - apply IH.
Qed.

Lemma diagnosis_assistance_reads_some fuel p :
  reads_some (diagnosis_assistance W fuel p).
Proof.
  unfold diagnosis_assistance.
  apply reads_some_bind; [apply reads_some_input | intros skip].
  unfold conclude_diagnosis, diagnosis_settle, diagnosis_consult, show_each,
    record_examination, single_dict.
  reads_io. apply elimination_loop_reads.
Qed.

Lemma treatment_plan_creation_reads_some p :
  reads_some (treatment_plan_creation W p).
Proof.
  unfold treatment_plan_creation.
  apply reads_some_after; [reads_io | intros name].
  apply reads_some_bind; [apply reads_some_input | intros skip].
  unfold update_treatment_plan. reads_io.
Qed.

Lemma multiagents_report_reads p : reads (multiagents_report W p).
Proof. unfold multiagents_report. reads_io. Qed.

(** X18: a run that returns has read at least two console lines, the
    answers to the two bypass prompts of the diagnosis and the treatment
    stage, whatever the agents reply; with fewer lines on the console no
    run completes. *)
Theorem run_needs_two_answers (fuel : nat) (console : list string)
    (s' : Session) (r : string) :
  kickoff W fuel (initial_session console) = (s', Return r) ->
  length (stdin s') + 2 <= length console.
Proof.
  unfold kickoff. intros H.
  apply bind_return_inv in H. destruct H as (s1 & a1 & H1 & H).
  apply bind_return_inv in H. destruct H as (s2 & a2 & H2 & H).
  apply bind_return_inv in H. destruct H as (s3 & a3 & H3 & H).
  apply bind_return_inv in H. destruct H as (s4 & a4 & H4 & H5).
  pose proof (get_user_input_reads fuel (initial_session console)) as R1.
  rewrite H1 in R1. cbn [fst] in R1.
  pose proof (inquiry_assistance_reads fuel a1 s1) as R2.
  rewrite H2 in R2. cbn [fst] in R2.
  pose proof (diagnosis_assistance_reads_some fuel a2 _ _ _ H3) as R3.
  pose proof (treatment_plan_creation_reads_some a3 _ _ _ H4) as R4.
  pose proof (multiagents_report_reads a4 s4) as R5.
  rewrite H5 in R5. cbn [fst] in R5.
  change (stdin (initial_session console)) with console in R1.
  lia.
Qed.

End FlowFacts.

(** ** The properties on concrete runs *)

(** C1, as the specification states it, fails: when both passes of the
    inquiry loop are told that the inquiry is not complete, the run still
    completes, and ["initial_inquiry"] is not among its completed sections. *)
Lemma complete_sections_counterexample :
  let W := Ref.world [Scenario.incomplete_reply; Scenario.incomplete_reply; "report"] in
  let r := kickoff W 2 (initial_session ["q"; "fracture"; "x-ray"; "q"; "rest"]) in
  snd r = Return "Summary of multi-agents cooperating to diagonse is done"
  /\ sections_of (state (fst r)) = ["diagnosis"; "treatment plan"]
  /\ ~ In "initial_inquiry" (sections_of (state (fst r))).
Proof.
  vm_compute. repeat split.
  intros [H|[H|[]]]; discriminate.
Qed.

Lemma complete_sections_of_run_witness :
  let W := Ref.world [Scenario.incomplete_reply; Scenario.complete_reply; "report"] in
  let r := kickoff W 2 (initial_session ["q"; "fracture"; "x-ray"; "q"; "rest"]) in
  snd r = Return "Summary of multi-agents cooperating to diagonse is done"
  /\ says_complete W (agent_reply W 0) = false
  /\ says_complete W (agent_reply W 1) = true
  /\ sections_of (state (fst r)) = ["initial_inquiry"; "diagnosis"; "treatment plan"].
Proof.
  intros W r. split; [vm_compute; reflexivity|].
  split; [vm_compute; reflexivity|]. split; [vm_compute; reflexivity|].
  rewrite (complete_sections_of_run W 2 ["q"; "fracture"; "x-ray"; "q"; "rest"] (fst r)
             "Summary of multi-agents cooperating to diagonse is done")
    by (vm_compute; reflexivity).
  vm_compute. reflexivity.
Defined.



Lemma elimination_stops_on_no_witness :
  let W := Ref.world [Scenario.settled_reply] in
  exists s' loc',
    elimination_loop W 1 "professional" Scenario.two_open (Scenario.after_intake [])
    = (s', Return loc')
    /\ diagnosis_conclusion loc' = PStr "malunion"
    /\ diagnosis_basis loc' = PStr "imaging"
    /\ length (calls s') = 1.
Proof.
  intros W. do 2 eexists. split.
  - eapply (elimination_stops_on_no W 0 "professional" Scenario.two_open
              (Scenario.after_intake []) _ "No");
      vm_compute; reflexivity.
  - vm_compute. repeat split.
Defined.

(** C4, as the specification states it, fails: with an empty list of
    alternatives the stage does not always complete.  Here the reply suggests
    an auxiliary examination as a text; once the operator gives its result,
    the stage raises [AttributeError], and no diagnosis is stored. *)
Lemma no_alternatives_counterexample :
  let W := Ref.world [Ref.js "{'diagnosis_conclusion': 'fracture', 'diagnosis_basis': 'x-ray', 'other_diagnosis_possibility': [], 'suggested_auxiliary_examinations': ['MRI']}"] in
  let s := Scenario.after_intake [""; ""; "clear"] in
  let run := diagnosis_assistance W 0 (process_outline (state s)) s in
  snd run = Raise AttributeError
  /\ diagnosis_result (state (fst run)) = []
  /\ sections_of (state (fst run)) = []
  /\ map crew (calls (fst run)) = [DiagnosisCrew].
Proof. vm_compute. repeat split. Qed.

Lemma no_alternatives_no_elimination_witness :
  let W := Ref.world [Ref.js "{'diagnosis_conclusion': 'fracture', 'diagnosis_basis': 'x-ray', 'other_diagnosis_possibility': [], 'suggested_auxiliary_examinations': [{'examination_name': 'MRI'}]}"] in
  let s := Scenario.after_intake [""; ""; "clear"; "unread"] in
  let run := diagnosis_assistance W 0 (process_outline (state s)) s in
  snd run = Return [(PStr "diagnosis_conclusion", PStr "fracture");
                    (PStr "diagnosis_basis", PStr "x-ray")]
  /\ map crew (calls (fst run)) = [DiagnosisCrew]
  /\ stdin (fst run) = ["unread"]
  /\ sections_of (state (fst run)) = ["diagnosis"].
Proof.
  intros W s run.
  destruct (no_alternatives_no_elimination W 0 (process_outline (state s)) s
              "" [""; "clear"; "unread"]
              [(PStr "diagnosis_conclusion", PStr "fracture");
               (PStr "diagnosis_basis", PStr "x-ray");
               (PStr "other_diagnosis_possibility", PList []);
               (PStr "suggested_auxiliary_examinations",
                PList [PDict [(PStr "examination_name", PStr "MRI")]])]
              eq_refl eq_refl eq_refl eq_refl)
    as (C & _ & F & R).
  destruct (R "" ["clear"] ["unread"]
              [PDict [(PStr "examination_name", PStr "MRI")]]
              eq_refl eq_refl eq_refl eq_refl eq_refl) as [R1 R2].
  destruct (F _ R1) as (_ & _ & F3).
  split; [exact R1|]. split; [unfold run; rewrite C; reflexivity|].
  split; [exact R2 | exact F3].
Defined.

Lemma inquiry_loop_at_most_twice_witness :
  let W := Ref.world [Scenario.incomplete_reply; Scenario.incomplete_reply;
                      Scenario.incomplete_reply] in
  let s := Scenario.after_intake [] in
  2 <= 5
  /\ snd (inquiry_loop W 5 (state s) 0 s) = Return 2
  /\ length (calls (fst (inquiry_loop W 5 (state s) 0 s))) = 2.
Proof.
  intros W s.
  assert (H : 2 <= 5) by lia.
  split; [exact H|].
  destruct (inquiry_loop_at_most_twice W 5 (state s) s H) as [[_ [_ B]] _].
  split; [vm_compute; reflexivity|].
  destruct (B 2) as [_ E]; [vm_compute; reflexivity|].
  rewrite E. reflexivity.
Defined.

Lemma manual_plan_bypass_witness :
  let W := Ref.world [] in
  exists s',
    treatment_plan_creation W [] (Scenario.after_intake ["Q"; "rest and ice"])
    = (s', Return (process_outline (state s')))
    /\ files s' = [("treatment_plans/treatment_plan_id-i.md", "rest and ice")]
    /\ Py.dict_get (treatment_plan (state s')) (PStr "manual_treatment_plan")
       = Some (PStr "rest and ice")
    /\ calls s' = [].
Proof.
  intros W.
  destruct (manual_plan_bypass W [] (Scenario.after_intake ["Q"; "rest and ice"])
              "Q" "rest and ice" [] eq_refl eq_refl eq_refl)
    as (s' & H1 & H2 & H3 & H4 & _).
  exists s'. repeat split; assumption.
Defined.



Lemma treatment_inputs_dialectics_witness :
  let W := Ref.world ["{}"] in
  let s := mkSession
             (append_dialectic (PDict [(PStr "pain at night?", PStr "yes")])
                (set_supplementary_auxiliary_examinations
                   [(PStr "MRI", PStr "clear")]
                   (state (Scenario.after_intake []))))
             [""] [] 0 [] in
  map (fun c => binding "suggested_diagnostic_dialectics" (inputs c))
      (calls (fst (treatment_plan_creation W [] s)))
  = [Some (PDict [(PStr "MRI", PStr "clear")])].
Proof.
  intros W s.
  destruct (treatment_inputs_dialectics W [] s "" [] eq_refl eq_refl)
    as (H1 & H2 & _).
  rewrite H1. cbn [calls s app map inputs]. rewrite H2. reflexivity.
Defined.

(** ** The further properties on concrete runs *)

Lemma run_writes_two_files_witness :
  let W := Ref.world [Scenario.complete_reply; "report"] in
  let r := kickoff W 2 (initial_session ["q"; "fracture"; "x-ray"; "q"; "rest"]) in
  snd r = Return "Summary of multi-agents cooperating to diagonse is done"
  /\ uuids (fst r) = 2
  /\ exists plan_text,
       files (fst r) = [("summary_reports/report_id-ii.md", "report");
                        ("treatment_plans/treatment_plan_id-i.md", plan_text)].
Proof.
  intros W r.
  assert (H : kickoff W 2 (initial_session ["q"; "fracture"; "x-ray"; "q"; "rest"])
              = (fst r, Return "Summary of multi-agents cooperating to diagonse is done"))
    by (vm_compute; reflexivity).
  destruct (run_writes_two_files W 2 _ _ _ H) as (U & (plan_text & F) & _).
  split; [vm_compute; reflexivity|]. split; [exact U|].
  exists plan_text. rewrite F. vm_compute. reflexivity.
Defined.

Lemma report_sees_final_state_witness :
  let W := Ref.world [Scenario.complete_reply; "report"] in
  let r := kickoff W 2 (initial_session ["q"; "fracture"; "x-ray"; "q"; "rest"]) in
  let ins := report_inputs W (state (fst r)) (process_outline (state (fst r))) in
  snd r = Return "Summary of multi-agents cooperating to diagonse is done"
  /\ (exists earlier, calls (fst r) = earlier ++ [mkCall MultiAgentsReportCrew ins])%list
  /\ binding "treatment_plan" ins
     = Some (PDict [(PStr "manual_treatment_plan", PStr "rest")]).
Proof.
  intros W r ins.
  assert (H : kickoff W 2 (initial_session ["q"; "fracture"; "x-ray"; "q"; "rest"])
              = (fst r, Return "Summary of multi-agents cooperating to diagonse is done"))
    by (vm_compute; reflexivity).
  pose proof (report_sees_final_state W 2 _ _ _ H) as P. cbv zeta in P.
  destruct P as (C & _ & T & _).
  split; [vm_compute; reflexivity|]. split; [exact C|].
  unfold ins. rewrite T. vm_compute. reflexivity.
Defined.

Lemma inquiry_completes_on_yes_witness :
  let W := Ref.world [Ref.js "{'inquiry_analysis': 'clear', 'supplementary_inquiries': [], 'inquiry_complete': 'YES'}"] in
  let s := Scenario.after_intake ["unread"] in
  let r := inquiry_assistance W 1 (state s) s in
  snd r = Return (process_outline (state (fst r)))
  /\ sections_of (state (fst r)) = ["initial_inquiry"]
  /\ stdin (fst r) = ["unread"]
  /\ length (calls (fst r)) = 1.
Proof.
  intros W s r.
  assert (Hn : ~ In "initial_inquiry" (sections_of (state s)))
    by (vm_compute; tauto).
  pose proof (inquiry_completes_on_yes W 0 (state s) s
                (Ref.js "{'inquiry_analysis': 'clear', 'supplementary_inquiries': [], 'inquiry_complete': 'YES'}")
                [(PStr "inquiry_analysis", PStr "clear");
                 (PStr "supplementary_inquiries", PList []);
                 (PStr "inquiry_complete", PStr "YES")]
                "YES" Hn eq_refl eq_refl eq_refl eq_refl eq_refl eq_refl eq_refl) as P.
  cbv zeta in P. unfold r. rewrite P. vm_compute. repeat split.
Defined.

Lemma inquiry_reply_without_suggestions_witness :
  let W := Ref.world [Ref.js "{'inquiry_analysis': 'thin', 'inquiry_complete': 'yes'}"] in
  let s := Scenario.after_intake [] in
  snd (inquiry_body W (state s) s) = Raise TypeError
  /\ sections_of (state (fst (inquiry_body W (state s) s))) = [].
Proof.
  intros W s.
  rewrite (inquiry_reply_without_suggestions W (state s) s
             (Ref.js "{'inquiry_analysis': 'thin', 'inquiry_complete': 'yes'}")
             [(PStr "inquiry_analysis", PStr "thin");
              (PStr "inquiry_complete", PStr "yes")]
             eq_refl eq_refl eq_refl eq_refl eq_refl).
  split; reflexivity.
Defined.

Lemma manual_diagnosis_bypass_witness :
  let W := Ref.world [] in
  let s := Scenario.after_intake ["Q"; "fracture"; "x-ray"; "next"] in
  let r := diagnosis_assistance W 0 (process_outline (state s)) s in
  snd r = Return [(PStr "diagnosis_conclusion", PStr "fracture");
                  (PStr "diagnosis_basis", PStr "x-ray")]
  /\ sections_of (state (fst r)) = ["diagnosis"]
  /\ stdin (fst r) = ["next"]
  /\ calls (fst r) = [].
Proof.
  intros W s r. unfold r.
  rewrite (manual_diagnosis_bypass W 0 (process_outline (state s)) s
             "Q" "fracture" "x-ray" ["next"] eq_refl eq_refl).
  repeat split.
Defined.

Lemma diagnosis_reply_not_an_object_witness :
  let W := Ref.world ["[1, 2]"] in
  let s := Scenario.after_intake [""] in
  let r := diagnosis_assistance W 0 (process_outline (state s)) s in
  snd r = Raise AttributeError
  /\ map crew (calls (fst r)) = [DiagnosisCrew]
  /\ sections_of (state (fst r)) = [].
Proof.
  intros W s r. unfold r.
  rewrite (diagnosis_reply_not_an_object W 0 (process_outline (state s)) s
             "" [] (PList [PInt 1; PInt 2]) eq_refl eq_refl eq_refl eq_refl).
  repeat split.
Defined.

Lemma elimination_stops_on_empty_list_witness :
  let W := Ref.world [Ref.js "{'further_inquiries_needed': 'yes', 'diagnosis_conclusion': 'malunion', 'other_diagnosis_possibility': []}"] in
  let s := Scenario.after_intake ["unread"] in
  let r := elimination_loop W 1 "professional" Scenario.two_open s in
  option_map ready_to_treatment_plan
    (match snd r with Return loc => Some loc | _ => None end) = Some true
  /\ option_map diagnosis_conclusion
       (match snd r with Return loc => Some loc | _ => None end)
     = Some (PStr "malunion")
  /\ stdin (fst r) = ["unread"]
  /\ length (calls (fst r)) = 1.
Proof.
  intros W s r. unfold r.
  rewrite (elimination_stops_on_empty_list W 0 "professional" Scenario.two_open s
             [(PStr "further_inquiries_needed", PStr "yes");
              (PStr "diagnosis_conclusion", PStr "malunion");
              (PStr "other_diagnosis_possibility", PList [])]
             "yes" eq_refl eq_refl eq_refl eq_refl eq_refl).
  repeat split.
Defined.

Lemma elimination_loop_needs_operator_witness :
  let W := Ref.world [Scenario.unchecked_reply] in
  let s := Scenario.after_intake [""] in
  length (stdin s) < 2
  /\ snd (elimination_loop W 2 "professional" Scenario.two_open s) <> Diverge
  /\ length (calls (fst (elimination_loop W 2 "professional" Scenario.two_open s))) <= 2.
Proof.
  intros W s.
  assert (H : length (stdin s) < 2) by (vm_compute; lia).
  destruct (elimination_loop_needs_operator W 2 "professional" Scenario.two_open s H)
    as (A & B & _).
  split; [exact H|]. split; [exact A | exact B].
Defined.

Lemma treatment_plan_merges_reply_witness :
  let W := Ref.world [Ref.js "{'rest': 'two weeks', 'ice': 'daily'}"] in
  let s := mkSession
             (set_treatment_plan [(PStr "rest", PStr "one week");
                                  (PStr "brace", PStr "worn")]
                (state (Scenario.after_intake [])))
             [""] [] 0 [] in
  exists s',
    treatment_plan_creation W [] s = (s', Return (process_outline (state s')))
    /\ files s' = [("treatment_plans/treatment_plan_id-i.md",
                    Ref.js "{'rest': 'two weeks', 'ice': 'daily'}")]
    /\ Py.dict_get (treatment_plan (state s')) (PStr "rest") = Some (PStr "two weeks")
    /\ Py.dict_get (treatment_plan (state s')) (PStr "brace") = Some (PStr "worn")
    /\ Py.dict_get (treatment_plan (state s')) (PStr "ice") = Some (PStr "daily").
Proof.
  intros W s.
  assert (Hk : forall kv,
             In kv [(PStr "rest", PStr "two weeks"); (PStr "ice", PStr "daily")] ->
             Py.hashable (fst kv) = true)
    by (intros kv [E|[E|[]]]; subst kv; reflexivity).
  destruct (treatment_plan_merges_reply W [] s "" []
              [(PStr "rest", PStr "two weeks"); (PStr "ice", PStr "daily")]
              eq_refl eq_refl eq_refl Hk eq_refl)
    as (s' & E & F & L & _).
  exists s'. split; [exact E|]. split; [rewrite F; reflexivity|].
  rewrite !L. repeat split.
Defined.

Lemma declined_suggestions_record_nothing_witness :
  let W := Ref.world [Ref.js "{'inquiry_analysis': 'thin', 'supplementary_inquiries': ['since when?', 'any fever?'], 'inquiry_complete': 'no'}"] in
  let s := Scenario.after_intake [""; ""; "next"] in
  let r := inquiry_body W (state s) s in
  snd r = Return tt
  /\ stdin (fst r) = ["next"]
  /\ supplementary_inquiries (process_outline (state (fst r)))
     = [(PStr "inquiry_analysis", PStr "thin")]
  /\ sections_of (state (fst r)) = [].
Proof.
  intros W s r.
  pose proof (declined_suggestions_record_nothing W (state s) s
                (Ref.js "{'inquiry_analysis': 'thin', 'supplementary_inquiries': ['since when?', 'any fever?'], 'inquiry_complete': 'no'}")
                [(PStr "inquiry_analysis", PStr "thin");
                 (PStr "supplementary_inquiries",
                  PList [PStr "since when?"; PStr "any fever?"]);
                 (PStr "inquiry_complete", PStr "no")]
                [PStr "since when?"; PStr "any fever?"] ["next"] "no"
                eq_refl eq_refl eq_refl eq_refl eq_refl eq_refl eq_refl) as P.
  cbv zeta in P. unfold r. rewrite P. vm_compute. repeat split.
Defined.

Lemma answered_suggestion_must_be_a_key_witness :
  let W := Ref.world [Ref.js "{'inquiry_analysis': 'thin', 'supplementary_inquiries': [['since when?']]}"] in
  let s := Scenario.after_intake ["yesterday"; "next"] in
  let r := inquiry_body W (state s) s in
  snd r = Raise TypeError
  /\ stdin (fst r) = ["next"]
  /\ supplementary_inquiries (process_outline (state (fst r)))
     = [(PStr "inquiry_analysis", PStr "thin")].
Proof.
  intros W s r. unfold r.
  rewrite (answered_suggestion_must_be_a_key W (state s) s
             (Ref.js "{'inquiry_analysis': 'thin', 'supplementary_inquiries': [['since when?']]}")
             [(PStr "inquiry_analysis", PStr "thin");
              (PStr "supplementary_inquiries", PList [PList [PStr "since when?"]])]
             (PList [PStr "since when?"]) "yesterday" ["next"]
             eq_refl eq_refl eq_refl eq_refl eq_refl eq_refl eq_refl eq_refl).
  repeat split.
Defined.

Lemma elimination_passes_on_last_answer_witness :
  let W := Ref.world [Ref.js "{'further_inquiries_needed': 'yes', 'other_diagnosis_possibility': [{'name': 'sprain'}], 'suggested_auxiliary_check': ['MRI'], 'suggested_question': 'pain at night?'}"] in
  let s := mkSession
             (append_dialectic (PDict [(PStr "swelling?", PStr "some")])
                (state (Scenario.after_intake [])))
             ["clear"; ""] [] 0 [] in
  exists s1 loc1,
    elimination_body W "professional" Scenario.two_open s = (s1, Return loc1)
    /\ ready_to_treatment_plan loc1 = false
    /\ binding "suggested_question_and_answer"
         (elimination_inputs "professional" loc1 (state s1)) = Some (PDict [])
    /\ dialectics_of (state s1) = [PDict [(PStr "swelling?", PStr "some")]].
Proof.
  intros W s. do 2 eexists.
  split; [vm_compute; reflexivity|]. split; [reflexivity|].
  match goal with
  | |- binding _ (elimination_inputs _ ?l (state ?t)) = _ /\ _ =>
      destruct (elimination_passes_on_last_answer W "professional"
                  Scenario.two_open l s t) as [[A B]|(q & ans & _ & A & _)]
  end.
  - vm_compute. reflexivity.
  - reflexivity.
  - split; [exact A | rewrite B; reflexivity].
  - vm_compute in A. discriminate A.
Defined.

Lemma run_needs_two_answers_witness :
  let W := Ref.world [Scenario.complete_reply; "report"] in
  let r := kickoff W 2 (initial_session ["q"; "fracture"; "x-ray"; "q"; "rest"; "unread"]) in
  snd r = Return "Summary of multi-agents cooperating to diagonse is done"
  /\ stdin (fst r) = ["unread"]
  /\ length (stdin (fst r)) + 2 <= 6.
Proof.
  intros W r.
  assert (H : kickoff W 2 (initial_session ["q"; "fracture"; "x-ray"; "q"; "rest"; "unread"])
              = (fst r, Return "Summary of multi-agents cooperating to diagonse is done"))
    by (vm_compute; reflexivity).
  split; [vm_compute; reflexivity|]. split; [vm_compute; reflexivity|].
  exact (run_needs_two_answers W 2 _ _ _ H).
Defined.
